(** * fsoc platform API client: request execution, retry and error
      normalisation ([platform/api/call.go])

    A shallow embedding of [httpRequest], [prepareHTTPRequest],
    [parseIntoError], [urlDisplayPath] and [abbreviateString], together with
    the parts of the Go standard library they lean on (UTF-8 decoding and
    encoding, [encoding/json] decoding, [net/http] header canonicalisation
    and status texts), and of the solution manifest ([package solution]):
    its names, dependencies, component definitions and the reading of the
    objects they refer to.

    Conventions:
    - a Go [string] or [[]byte] is a Rocq [string], that is a sequence of
      bytes ([ascii]); a string literal of this file holds the UTF-8 bytes of
      its characters, as a Go literal does;
    - Go's [int], [rune] and byte values are [Z]; [uint] is [N];
    - a Go [map[string]string] that the code ranges over is an association
      list in the order the runtime happens to iterate it;
      [http.Header] is a [gmap string (list string)];
    - the network, the login procedure, the file system and the other
      collaborators of the call are the fields of a [World] record. *)

From Stdlib Require Import ZArith NArith Ascii String List Lia Bool DecimalString.
From stdpp Require Import base option list strings gmap.

Local Open Scope string_scope.
Local Open Scope Z_scope.

(* ===================================================================== *)
(** ** Bytes and strings *)

Definition byteZ (c : ascii) : Z := Z.of_N (N_of_ascii c).

(** [byte(x)]: conversion of an integer to [uint8] keeps the low 8 bits. *)
Definition toByte (x : Z) : ascii := ascii_of_N (Z.to_N (Z.land x 255)).

(** [s[n:]] for [n <= len(s)]. *)
Fixpoint sliceFrom (n : nat) (s : string) : string :=
  match n, s with
  | O, _ => s
  | S n', String _ t => sliceFrom n' t
  | S _, EmptyString => EmptyString
  end.

(* ===================================================================== *)
(** ** unicode/utf8 *)

Module utf8.

Definition RuneError : Z := 65533.   (* U+FFFD *)
Definition MaxRune : Z := 1114111.   (* U+10FFFF *)
Definition surrogateMin : Z := 55296. (* U+D800 *)
Definition surrogateMax : Z := 57343. (* U+DFFF *)
Definition rune1Max : Z := 127.
Definition rune2Max : Z := 2047.
Definition rune3Max : Z := 65535.

Definition t2 : Z := 192.  (* 1100 0000 *)
Definition t3 : Z := 224.  (* 1110 0000 *)
Definition t4 : Z := 240.  (* 1111 0000 *)
Definition tx : Z := 128.  (* 1000 0000 *)
Definition maskx : Z := 63.
Definition mask2 : Z := 31.
Definition mask3 : Z := 15.
Definition mask4 : Z := 7.
Definition locb : Z := 128.
Definition hicb : Z := 191.

(** The [first] table of the package: what a leading byte announces. *)
Inductive firstInfo : Type :=
| ASCII
| Invalid
| Lead (size : nat) (lo hi : Z).

Definition first (b : Z) : firstInfo :=
  if b <? 128 then ASCII
  else if b <? 194 then Invalid              (* 0x80-0xC1 *)
  else if b <? 224 then Lead 2 128 191       (* 0xC2-0xDF *)
  else if b =? 224 then Lead 3 160 191       (* 0xE0 *)
  else if b <? 237 then Lead 3 128 191       (* 0xE1-0xEC *)
  else if b =? 237 then Lead 3 128 159       (* 0xED *)
  else if b <? 240 then Lead 3 128 191       (* 0xEE-0xEF *)
  else if b =? 240 then Lead 4 144 191       (* 0xF0 *)
  else if b <? 244 then Lead 4 128 191       (* 0xF1-0xF3 *)
  else if b =? 244 then Lead 4 128 143       (* 0xF4 *)
  else Invalid.                              (* 0xF5-0xFF *)

(** [utf8.DecodeRuneInString]: the first rune of [s] and its width in
    bytes; [(RuneError, 0)] on the empty string and [(RuneError, 1)] on an
    invalid encoding. *)
Definition DecodeRuneInString (s : string) : Z * nat :=
  match s with
  | EmptyString => (RuneError, O)
  | String c0 r0 =>
    let s0 := byteZ c0 in
    match first s0 with
    | ASCII => (s0, 1%nat)
    | Invalid => (RuneError, 1%nat)
    | Lead sz lo hi =>
      match r0 with
      | EmptyString => (RuneError, 1%nat)
      | String c1 r1 =>
        let s1 := byteZ c1 in
        if (s1 <? lo) || (hi <? s1) then (RuneError, 1%nat)
        else if (sz <=? 2)%nat then
          (Z.lor (Z.shiftl (Z.land s0 mask2) 6) (Z.land s1 maskx), 2%nat)
        else
          match r1 with
          | EmptyString => (RuneError, 1%nat)
          | String c2 r2 =>
            let s2 := byteZ c2 in
            if (s2 <? locb) || (hicb <? s2) then (RuneError, 1%nat)
            else if (sz <=? 3)%nat then
              (Z.lor (Z.lor (Z.shiftl (Z.land s0 mask3) 12)
                            (Z.shiftl (Z.land s1 maskx) 6))
                     (Z.land s2 maskx), 3%nat)
            else
              match r2 with
              | EmptyString => (RuneError, 1%nat)
              | String c3 _ =>
                let s3 := byteZ c3 in
                if (s3 <? locb) || (hicb <? s3) then (RuneError, 1%nat)
                else
                  (Z.lor (Z.lor (Z.lor (Z.shiftl (Z.land s0 mask4) 18)
                                       (Z.shiftl (Z.land s1 maskx) 12))
                                (Z.shiftl (Z.land s2 maskx) 6))
                         (Z.land s3 maskx), 4%nat)
              end
          end
      end
    end
  end.

(** The loop [for len(s) > 0 { r, size := DecodeRuneInString(s); ...;
    s = s[size:] }], with the length of [s] as fuel. *)
Fixpoint decodeAll (fuel : nat) (s : string) : list Z :=
  match fuel with
  | O => []
  | S fuel' =>
    match s with
    | EmptyString => []
    | _ => let '(r, size) := DecodeRuneInString s in
           r :: decodeAll fuel' (sliceFrom size s)
    end
  end.

(** [[]rune(s)]. *)
Definition runesOf (s : string) : list Z := decodeAll (String.length s) s.

(** [utf8.RuneCountInString]: the same walk, counting. *)
Fixpoint countFrom (fuel : nat) (s : string) : Z :=
  match fuel with
  | O => 0
  | S fuel' =>
    match s with
    | EmptyString => 0
    | _ => 1 + countFrom fuel' (sliceFrom (snd (DecodeRuneInString s)) s)
    end
  end.

Definition RuneCountInString (s : string) : Z := countFrom (String.length s) s.

(** The runtime's [encoderune], as used by [string(runes)]: a rune out of
    range or a surrogate half is encoded as [RuneError]. *)
Definition encode3 (r : Z) : string :=
  String (toByte (Z.lor t3 (Z.land (Z.shiftr r 12) 255)))
 (String (toByte (Z.lor tx (Z.land (Z.land (Z.shiftr r 6) 255) maskx)))
 (String (toByte (Z.lor tx (Z.land (Z.land r 255) maskx))) EmptyString)).

Definition encodeRune (r : Z) : string :=
  let i := r mod 4294967296 in      (* uint32(r) *)
  if i <=? rune1Max then String (toByte r) EmptyString
  else if i <=? rune2Max then
    String (toByte (Z.lor t2 (Z.land (Z.shiftr r 6) 255)))
   (String (toByte (Z.lor tx (Z.land (Z.land r 255) maskx))) EmptyString)
  else if (MaxRune <? i) || ((surrogateMin <=? i) && (i <=? surrogateMax))
    then encode3 RuneError
  else if i <=? rune3Max then encode3 r
  else
    String (toByte (Z.lor t4 (Z.land (Z.shiftr r 18) 255)))
   (String (toByte (Z.lor tx (Z.land (Z.land (Z.shiftr r 12) 255) maskx)))
   (String (toByte (Z.lor tx (Z.land (Z.land (Z.shiftr r 6) 255) maskx)))
   (String (toByte (Z.lor tx (Z.land (Z.land r 255) maskx))) EmptyString))).

(** [string(runes)]. *)
Fixpoint stringOfRunes (rs : list Z) : string :=
  match rs with
  | [] => EmptyString
  | r :: rs' => encodeRune r +:+ stringOfRunes rs'
  end.

(** What a [rune] decoded from a string can be: a Unicode scalar value. *)
Definition validRune (r : Z) : Prop :=
  (0 <= r < surrogateMin) \/ (surrogateMax < r <= MaxRune).

(** The leading-byte table, read as ranges. *)
Inductive firstSpec (b : Z) : firstInfo -> Prop :=
| fs_ascii : b < 128 -> firstSpec b ASCII
| fs_invalid : 128 <= b < 194 \/ 244 < b -> firstSpec b Invalid
| fs_two : 194 <= b < 224 -> firstSpec b (Lead 2 128 191)
| fs_e0 : b = 224 -> firstSpec b (Lead 3 160 191)
| fs_three : 225 <= b < 240 -> b <> 237 -> firstSpec b (Lead 3 128 191)
| fs_ed : b = 237 -> firstSpec b (Lead 3 128 159)
| fs_f0 : b = 240 -> firstSpec b (Lead 4 144 191)
| fs_four : 241 <= b < 244 -> firstSpec b (Lead 4 128 191)
| fs_f4 : b = 244 -> firstSpec b (Lead 4 128 143).

End utf8.

(* ===================================================================== *)
(** ** [abbreviateString] and [urlDisplayPath] *)

Definition ellipsis : Z := 8230.  (* the rune U+2026 *)

(** [abbreviateString(s, n)].  In the last branch the rune count of [s]
    exceeds [n >= 2], so the index [n-1] and the slice bound [n] are in
    range (see [abbreviateString_in_range]) and the Go code does not
    panic. *)
Definition abbreviateString (s : string) (n : N) : string :=
  if utf8.RuneCountInString s <=? Z.of_N n then s
  else if (n =? 0)%N then EmptyString
  else if (n =? 1)%N then "…"
  else
    let runes := utf8.runesOf s in
    let runes := <[N.to_nat (n - 1) := ellipsis]> runes in
    utf8.stringOfRunes (take (N.to_nat n) runes).

(** The two fields of a parsed [*url.URL] that the display form reads. *)
Record URL : Type := mkURL {
  url_String : string;    (* uri.String() *)
  url_Path : string;      (* uri.Path *)
  url_RawQuery : string   (* uri.RawQuery *)
}.

Definition urlDisplayPath (uri : URL) : string :=
  let s := abbreviateString (url_Path uri) 50 in
  if String.eqb (url_RawQuery uri) EmptyString then s
  else s +:+ "?" +:+ abbreviateString (url_RawQuery uri) 6.

(* ===================================================================== *)
(** ** encoding/json: syntax *)

Module json.

Local Set Warnings "-register-all".

(** A JSON text, as the scanner of the package accepts it.  A number keeps
    its literal: what it becomes depends on the Go type it is decoded
    into. *)
Inductive Value : Type :=
| Null
| Bool (b : bool)
| Number (literal : string)
| Str (s : string)
| Array (elems : list Value)
| Object (members : list (string * Value)).

Definition maxNestingDepth : Z := 10000.

Definition isSpace (c : ascii) : bool :=
  match c with
  | " "%char | "009"%char | "010"%char | "013"%char => true
  | _ => false
  end.

Fixpoint skipSpace (s : string) : string :=
  match s with
  | String c t => if isSpace c then skipSpace t else s
  | EmptyString => s
  end.

Definition isDigit (c : ascii) : bool :=
  let b := byteZ c in (48 <=? b) && (b <=? 57).

(** The longest prefix of digits, and what follows it. *)
Fixpoint digits (s : string) : string * string :=
  match s with
  | String c t =>
    if isDigit c then let '(d, r) := digits t in (String c d, r)
    else (EmptyString, s)
  | EmptyString => (EmptyString, EmptyString)
  end.

(** A number literal: an optional minus sign, an integer part without
    leading zeros, an optional fraction, an optional exponent. *)
Definition scanInt (s : string) : option (string * string) :=
  match s with
  | String "0" t => Some ("0", t)
  | String c t =>
    if isDigit c then let '(d, r) := digits t in Some (String c d, r)
    else None
  | EmptyString => None
  end.

Definition scanFrac (s : string) : option (string * string) :=
  match s with
  | String "." t =>
    match digits t with
    | (EmptyString, _) => None
    | (d, r) => Some (String "." d, r)
    end
  | _ => Some (EmptyString, s)
  end.

Definition scanExp (s : string) : option (string * string) :=
  match s with
  | String c t =>
    if (Ascii.eqb c "e" || Ascii.eqb c "E") then
      let '(sign, t') :=
        match t with
        | String "+" u => ("+", u)
        | String "-" u => ("-", u)
        | _ => (EmptyString, t)
        end in
      match digits t' with
      | (EmptyString, _) => None
      | (d, r) => Some (String c (sign +:+ d), r)
      end
    else Some (EmptyString, s)
  | EmptyString => Some (EmptyString, s)
  end.

Definition scanNumber (s : string) : option (string * string) :=
  let '(sign, s1) :=
    match s with
    | String "-" t => ("-", t)
    | _ => (EmptyString, s)
    end in
  match scanInt s1 with
  | None => None
  | Some (i, s2) =>
    match scanFrac s2 with
    | None => None
    | Some (f, s3) =>
      match scanExp s3 with
      | None => None
      | Some (e, s4) => Some (sign +:+ i +:+ f +:+ e, s4)
      end
    end
  end.

Definition hexVal (c : ascii) : option Z :=
  let b := byteZ c in
  if (48 <=? b) && (b <=? 57) then Some (b - 48)
  else if (97 <=? b) && (b <=? 102) then Some (b - 97 + 10)
  else if (65 <=? b) && (b <=? 70) then Some (b - 65 + 10)
  else None.

(** [getu4]: the code unit of a [\uXXXX] escape at the head of [s]. *)
Definition getu4 (s : string) : option (Z * string) :=
  match s with
  | String "092" (String "u" (String a (String b (String c (String d t))))) =>
    match hexVal a, hexVal b, hexVal c, hexVal d with
    | Some x3, Some x2, Some x1, Some x0 =>
      Some (((x3 * 16 + x2) * 16 + x1) * 16 + x0, t)
    | _, _, _, _ => None
    end
  | _ => None
  end.

Definition isSurrogate (r : Z) : bool := (55296 <=? r) && (r <? 57344).

(** [utf16.DecodeRune]. *)
Definition utf16DecodeRune (r1 r2 : Z) : Z :=
  if ((55296 <=? r1) && (r1 <? 56320)) && ((56320 <=? r2) && (r2 <? 57344))
  then Z.lor (Z.shiftl (r1 - 55296) 10) (r2 - 56320) + 65536
  else utf8.RuneError.

(** The body of a string literal after its opening quote: the scanner's
    check and [unquote] in one pass.  Returns the decoded string and what
    follows the closing quote. *)
Fixpoint scanString (fuel : nat) (s : string) : option (string * string) :=
  match fuel with
  | O => None
  | S fuel' =>
    match s with
    | EmptyString => None
    | String "034" t => Some (EmptyString, t)
    | String "092" t =>
      match t with
      | String "u" _ =>
        match getu4 s with
        | None => None
        | Some (rr, t1) =>
          let '(r, t2) :=
            if isSurrogate rr then
              match getu4 t1 with
              | Some (rr1, t1') =>
                let dec := utf16DecodeRune rr rr1 in
                if dec =? utf8.RuneError then (utf8.RuneError, t1)
                else (dec, t1')
              | None => (utf8.RuneError, t1)
              end
            else (rr, t1) in
          match scanString fuel' t2 with
          | Some (d, rest) => Some (utf8.encodeRune r +:+ d, rest)
          | None => None
          end
        end
      | String e t1 =>
        let unescaped :=
          match e with
          | "034"%char => Some "034"%char
          | "092"%char => Some "092"%char
          | "/"%char => Some "/"%char
          | "b"%char => Some "008"%char
          | "f"%char => Some "012"%char
          | "n"%char => Some "010"%char
          | "r"%char => Some "013"%char
          | "t"%char => Some "009"%char
          | _ => None
          end in
        match unescaped with
        | None => None
        | Some c =>
          match scanString fuel' t1 with
          | Some (d, rest) => Some (String c d, rest)
          | None => None
          end
        end
      | EmptyString => None
      end
    | String c t =>
      if byteZ c <? 32 then None
      else if byteZ c <? 128 then
        match scanString fuel' t with
        | Some (d, rest) => Some (String c d, rest)
        | None => None
        end
      else
        let '(r, size) := utf8.DecodeRuneInString s in
        match scanString fuel' (sliceFrom size s) with
        | Some (d, rest) => Some (utf8.encodeRune r +:+ d, rest)
        | None => None
        end
    end
  end.

Definition stripPrefix (p s : string) : option string :=
  if String.prefix p s then Some (sliceFrom (String.length p) s) else None.

(** One value at the head of [s] (no leading space), at nesting depth
    [depth]; returns the value and what follows it. *)
Fixpoint scanValue (fuel : nat) (depth : Z) (s : string)
  : option (Value * string) :=
  match fuel with
  | O => None
  | S fuel' =>
    match s with
    | String "{" t =>
      if maxNestingDepth <? depth + 1 then None
      else
        match skipSpace t with
        | String "}" r => Some (Object [], r)
        | t' =>
          match scanMembers fuel' (depth + 1) t' with
          | Some (ms, r) => Some (Object ms, r)
          | None => None
          end
        end
    | String "[" t =>
      if maxNestingDepth <? depth + 1 then None
      else
        match skipSpace t with
        | String "]" r => Some (Array [], r)
        | t' =>
          match scanElements fuel' (depth + 1) t' with
          | Some (vs, r) => Some (Array vs, r)
          | None => None
          end
        end
    | String "034" t =>
      match scanString (String.length s) t with
      | Some (d, r) => Some (Str d, r)
      | None => None
      end
    | String "t" _ =>
      match stripPrefix "true" s with
      | Some r => Some (Bool true, r) | None => None end
    | String "f" _ =>
      match stripPrefix "false" s with
      | Some r => Some (Bool false, r) | None => None end
    | String "n" _ =>
      match stripPrefix "null" s with
      | Some r => Some (Null, r) | None => None end
    | _ =>
      match scanNumber s with
      | Some (lit, r) => Some (Number lit, r)
      | None => None
      end
    end
  end

(** The elements of a non-empty array, up to its closing bracket. *)
with scanElements (fuel : nat) (depth : Z) (s : string)
  : option (list Value * string) :=
  match fuel with
  | O => None
  | S fuel' =>
    match scanValue fuel' depth s with
    | None => None
    | Some (v, r) =>
      match skipSpace r with
      | String "]" r' => Some ([v], r')
      | String "," r' =>
        match scanElements fuel' depth (skipSpace r') with
        | Some (vs, r'') => Some (v :: vs, r'')
        | None => None
        end
      | _ => None
      end
    end
  end

(** The members of a non-empty object, up to its closing brace. *)
with scanMembers (fuel : nat) (depth : Z) (s : string)
  : option (list (string * Value) * string) :=
  match fuel with
  | O => None
  | S fuel' =>
    match s with
    | String "034" t =>
      match scanString (String.length s) t with
      | None => None
      | Some (k, r) =>
        match skipSpace r with
        | String ":" r1 =>
          match scanValue fuel' depth (skipSpace r1) with
          | None => None
          | Some (v, r2) =>
            match skipSpace r2 with
            | String "}" r3 => Some ([(k, v)], r3)
            | String "," r3 =>
              match scanMembers fuel' depth (skipSpace r3) with
              | Some (ms, r4) => Some ((k, v) :: ms, r4)
              | None => None
              end
            | _ => None
            end
          end
        | _ => None
        end
      end
    | _ => None
    end
  end.

(** A whole JSON text: optional space, one value, optional space.  [None]
    is the [*SyntaxError] of [checkValid].  Every two steps of the walk
    consume at least one byte, so twice the length of the input is ample
    fuel. *)
Definition parse (data : string) : option Value :=
  match scanValue (2 * String.length data + 2) 0 (skipSpace data) with
  | Some (v, r) =>
    match skipSpace r with
    | EmptyString => Some v
    | _ => None
    end
  | None => None
  end.

End json.

(* ===================================================================== *)
(** ** encoding/json: decoding into Go values *)

(** What [json.Unmarshal] does with a well-formed JSON value depends on the
    type [T] of its destination: the standard rules for the kind of [T], or
    the type's own [UnmarshalJSON].  [None] is a non-nil error. *)
Class Unmarshaler (T : Type) : Type := fromJSON : json.Value -> option T.
Global Hint Mode Unmarshaler ! : typeclass_instances.

(** [json.Unmarshal(data, &v)]: the text is checked as a whole first
    ([checkValid]), then decoded into the destination. *)
Definition unmarshal {T : Type} `{Unmarshaler T} (data : string) : option T :=
  match json.parse data with
  | Some v => fromJSON v
  | None => None
  end.

Module jsondec.

Fixpoint digitsValue (acc : Z) (s : string) : Z :=
  match s with
  | String c t => digitsValue (acc * 10 + (byteZ c - 48)) t
  | EmptyString => acc
  end.

Definition allDigits (s : string) : bool :=
  match json.digits s with
  | (_, EmptyString) => true
  | _ => false
  end.

(** [strconv.ParseInt(lit, 10, 64)] on a JSON number literal: the literal
    must be an integer without fraction or exponent, within [int64]. *)
Definition parseInt64 (lit : string) : option Z :=
  let '(neg, ds) :=
    match lit with
    | String "-" t => (true, t)
    | _ => (false, lit)
    end in
  if allDigits ds then
    let v := if neg then - digitsValue 0 ds else digitsValue 0 ds in
    if (-9223372036854775808 <=? v) && (v <=? 9223372036854775807)
    then Some v else None
  else None.

(** The decimal reading [m * 10^e] of a JSON number literal. *)
Definition decimalOf (lit : string) : Z * Z :=
  let unsigned := match lit with String "-" t => t | _ => lit end in
  let '(ip, r1) := json.digits unsigned in
  let '(fp, r2) :=
    match r1 with
    | String "." t => json.digits t
    | _ => (EmptyString, r1)
    end in
  let ex :=
    match r2 with
    | String _ (String "-" t) => - digitsValue 0 t
    | String _ (String "+" t) => digitsValue 0 t
    | String _ t => digitsValue 0 t
    | EmptyString => 0
    end in
  (digitsValue 0 (ip +:+ fp), ex - Z.of_nat (String.length fp)).

(** [strconv.ParseFloat(lit, 64)] reports a range error exactly when the
    magnitude rounds to infinity, that is from [(2^54 - 1) * 2^970] on. *)
Definition fitsFloat64 (lit : string) : bool :=
  let '(m, e) := decimalOf lit in
  let bound := (2 ^ 54 - 1) * 2 ^ 970 in
  if 0 <=? e then m * 10 ^ e <? bound else m <? bound * 10 ^ (- e).

(** Decoding into an [interface{}] fails only on a number that does not
    fit a [float64]. *)
Fixpoint fitsAny (v : json.Value) : bool :=
  match v with
  | json.Number lit => fitsFloat64 lit
  | json.Array vs => forallb fitsAny vs
  | json.Object ms => forallb (fun kv => fitsAny (snd kv)) ms
  | _ => true
  end.

(** [foldName]: the key under which a member name is matched against a
    struct field when there is no exact match.  ASCII letters are upper
    cased; the only other runes that fold to ASCII are U+017F (long s) and
    U+212A (Kelvin sign). *)
Fixpoint foldName (s : string) : string :=
  match s with
  | String "197" (String "191" t) => String "S" (foldName t)
  | String "226" (String "132" (String "170" t)) => String "K" (foldName t)
  | String c t =>
    let b := byteZ c in
    String (if (97 <=? b) && (b <=? 122) then toByte (b - 32) else c)
           (foldName t)
  | EmptyString => EmptyString
  end.

Definition fieldMatches (field key : string) : bool :=
  String.eqb key field || String.eqb (foldName key) (foldName field).

End jsondec.

(** The untyped destination [var errobj any]. *)
Definition any : Type := json.Value.

#[global] Instance any_Unmarshaler : Unmarshaler any :=
  fun v => if jsondec.fitsAny v then Some v else None.

(* ===================================================================== *)
(** ** Errors *)

(** Modelled from the spec: the [Problem] struct is declared in a file of
    the package that is not part of this source.  The spec describes it as
    the parsed form of an RFC-7807-style error body with a numeric status
    and human title and detail fields; [call.go] assigns an [int] to its
    [Status] field. *)
Record Problem : Type := mkProblem {
  Status : Z;
  Title : string;
  Detail : string
}.

Definition zeroProblem : Problem := mkProblem 0 EmptyString EmptyString.

(** [HttpStatusError], with the three fields that [call.go] sets. *)
Record HttpStatusError : Type := mkHttpStatusError {
  Message : string;
  StatusCode : Z;
  WrappedErr : option Problem
}.

(** An error of a collaborator (login, transport, file system, standard
    library), opaque to this layer. *)
Definition ExtError : Type := string.

(** The error values that [call.go] builds, one constructor per site. *)
Inductive Error : Type :=
| ErrLogin (e : ExtError)
    (* the error of the initial login, returned as it is *)
| ErrMarshalBody (e : ExtError)
    (* "failed to marshal body data: %w" *)
| ErrBodyType (goType : string)
    (* "(bug) HTTP request body type must be []byte if Content-Type is
       provided, found %T instead" *)
| ErrCreateRequest (uri : string) (e : ExtError)
    (* "failed to create a request for %q: %w" *)
| ErrRequestFailed (method url : string) (e : ExtError)
    (* "%v request to %q failed: %w" *)
| ErrReadResponse (method url : string) (status : Z) (e : ExtError)
    (* "failed reading response to %v to %q (status %v): %w" *)
| ErrLoginFailed (e : ExtError)
    (* "failed to login: %w" *)
| ErrNoFileName (contentType : string)
    (* "(bug) filename not provided for response type %q" *)
| ErrSaveFile (fileName : string) (e : ExtError)
    (* "failed to save the solution archive file as %q: %w" *)
| ErrJSONParse (respBytes : string)
    (* "failed to JSON-parse the response: %w (%q)" *)
| ErrStatus (e : HttpStatusError).

Definition isStatusError (e : Error) : bool :=
  match e with ErrStatus _ => true | _ => false end.

(** Modelled from the spec: how [json.Unmarshal] fills a [Problem].  The
    spec says of the decoder of the missing type that "decoding is
    permissive -- unknown/missing fields do not fail it", and of a Problem
    that it is "absent when the body doesn't match that shape": every JSON
    object decodes, [null] leaves the destination as it is (as it does for
    every Go value), and a JSON value of another kind does not decode.  A
    member named after a field sets it when it holds a value of the field's
    type, a later member overwriting an earlier one; every other member
    leaves the Problem as it is. *)
Module problemdec.

Definition setField (p : Problem) (key : string) (v : json.Value)
  : Problem :=
  if jsondec.fieldMatches "status" key then
    match v with
    | json.Number lit =>
      match jsondec.parseInt64 lit with
      | Some n => mkProblem n (Title p) (Detail p)
      | None => p
      end
    | _ => p
    end
  else if jsondec.fieldMatches "title" key then
    match v with
    | json.Str s => mkProblem (Status p) s (Detail p)
    | _ => p
    end
  else if jsondec.fieldMatches "detail" key then
    match v with
    | json.Str s => mkProblem (Status p) (Title p) s
    | _ => p
    end
  else p.

Definition setFields (p : Problem) (ms : list (string * json.Value))
  : Problem :=
  fold_left (fun p kv => setField p (fst kv) (snd kv)) ms p.

Definition fromValue (v : json.Value) : option Problem :=
  match v with
  | json.Null => Some zeroProblem
  | json.Object ms => Some (setFields zeroProblem ms)
  | _ => None
  end.

End problemdec.

#[global] Instance Problem_Unmarshaler : Unmarshaler Problem :=
  problemdec.fromValue.

(** A JSON value that is an object or the literal [null]. *)
Definition objectOrNull (v : json.Value) : bool :=
  match v with
  | json.Null | json.Object _ => true
  | _ => false
  end.

(* ===================================================================== *)
(** ** net/http: status texts *)

(** [http.StatusText]: the empty string for a code it does not know. *)
Definition StatusText (code : Z) : string :=
  match code with
  | 100 => "Continue"
  | 101 => "Switching Protocols"
  | 102 => "Processing"
  | 103 => "Early Hints"
  | 200 => "OK"
  | 201 => "Created"
  | 202 => "Accepted"
  | 203 => "Non-Authoritative Information"
  | 204 => "No Content"
  | 205 => "Reset Content"
  | 206 => "Partial Content"
  | 207 => "Multi-Status"
  | 208 => "Already Reported"
  | 226 => "IM Used"
  | 300 => "Multiple Choices"
  | 301 => "Moved Permanently"
  | 302 => "Found"
  | 303 => "See Other"
  | 304 => "Not Modified"
  | 305 => "Use Proxy"
  | 307 => "Temporary Redirect"
  | 308 => "Permanent Redirect"
  | 400 => "Bad Request"
  | 401 => "Unauthorized"
  | 402 => "Payment Required"
  | 403 => "Forbidden"
  | 404 => "Not Found"
  | 405 => "Method Not Allowed"
  | 406 => "Not Acceptable"
  | 407 => "Proxy Authentication Required"
  | 408 => "Request Timeout"
  | 409 => "Conflict"
  | 410 => "Gone"
  | 411 => "Length Required"
  | 412 => "Precondition Failed"
  | 413 => "Request Entity Too Large"
  | 414 => "Request URI Too Long"
  | 415 => "Unsupported Media Type"
  | 416 => "Requested Range Not Satisfiable"
  | 417 => "Expectation Failed"
  | 418 => "I'm a teapot"
  | 421 => "Misdirected Request"
  | 422 => "Unprocessable Entity"
  | 423 => "Locked"
  | 424 => "Failed Dependency"
  | 425 => "Too Early"
  | 426 => "Upgrade Required"
  | 428 => "Precondition Required"
  | 429 => "Too Many Requests"
  | 431 => "Request Header Fields Too Large"
  | 451 => "Unavailable For Legal Reasons"
  | 500 => "Internal Server Error"
  | 501 => "Not Implemented"
  | 502 => "Bad Gateway"
  | 503 => "Service Unavailable"
  | 504 => "Gateway Timeout"
  | 505 => "HTTP Version Not Supported"
  | 506 => "Variant Also Negotiates"
  | 507 => "Insufficient Storage"
  | 508 => "Loop Detected"
  | 510 => "Not Extended"
  | 511 => "Network Authentication Required"
  | _ => EmptyString
  end.

(** The verb [%d] of [fmt] on an [int]. *)
Definition formatInt (n : Z) : string := NilZero.string_of_int (Z.to_int n).

(* ===================================================================== *)
(** ** net/http: headers *)

Abbreviation Header := (gmap string (list string)).

Module header.

(** [validHeaderFieldByte]: the token characters of RFC 7230. *)
Definition validHeaderFieldByte (c : ascii) : bool :=
  let b := byteZ c in
  ((48 <=? b) && (b <=? 57)) || ((65 <=? b) && (b <=? 90))
  || ((97 <=? b) && (b <=? 122))
  || existsb (Ascii.eqb c)
       ["!"; "#"; "$"; "%"; "&"; "'"; "*"; "+"; "-"; "."; "^"; "_"; "`";
        "|"; "~"]%char.

Fixpoint allValid (s : string) : bool :=
  match s with
  | String c t => validHeaderFieldByte c && allValid t
  | EmptyString => true
  end.

Fixpoint canonical (upper : bool) (s : string) : string :=
  match s with
  | String c t =>
    let b := byteZ c in
    let c' :=
      if upper && ((97 <=? b) && (b <=? 122)) then toByte (b - 32)
      else if negb upper && ((65 <=? b) && (b <=? 90)) then toByte (b + 32)
      else c in
    String c' (canonical (Ascii.eqb c' "-") t)
  | EmptyString => EmptyString
  end.

(** [textproto.CanonicalMIMEHeaderKey]: the first letter and every letter
    after a hyphen in upper case, the others in lower case; a key holding
    a byte that is not a token character is left as it is. *)
Definition CanonicalMIMEHeaderKey (s : string) : string :=
  if allValid s then canonical true s else s.

Definition values (h : Header) (key : string) : list string :=
  default [] (h !! key).

(** [h.Add(key, value)]: append to the values of the canonical key. *)
Definition Add (key value : string) (h : Header) : Header :=
  let k := CanonicalMIMEHeaderKey key in
  <[k := (values h k ++ [value])%list]> h.

(** [h.Set(key, value)]: replace the values of the canonical key. *)
Definition Set_ (key value : string) (h : Header) : Header :=
  <[CanonicalMIMEHeaderKey key := [value]]> h.

(** [h.Get(key)]: the first value of the canonical key, or the empty
    string. *)
Definition Get (h : Header) (key : string) : string :=
  match values h (CanonicalMIMEHeaderKey key) with
  | v :: _ => v
  | [] => EmptyString
  end.

End header.

(* ===================================================================== *)
(** ** The call's data *)

(** A Go [map[string]string]: [None] is the nil map; the list holds the
    entries in the order in which a [range] over the map visits them. *)
Definition StringMap : Type := option (list (string * string)).

Fixpoint assoc (l : list (string * string)) (key : string) : string :=
  match l with
  | (k, v) :: l' => if String.eqb k key then v else assoc l' key
  | [] => EmptyString
  end.

(** [m[key]]: the zero value when the key is absent or the map is nil. *)
Definition mapGet (m : StringMap) (key : string) : string :=
  match m with
  | Some l => assoc l key
  | None => EmptyString
  end.

Definition isNil {A} (m : option A) : bool :=
  match m with None => true | Some _ => false end.

Definition entries (m : StringMap) : list (string * string) :=
  default [] m.

Definition GoContext : Type := string.

(** [Options]: the optional parameters of a call.  [ExpectedErrors] is a
    slice; the nil slice is the empty list. *)
Record Options : Type := mkOptions {
  Headers : StringMap;
  ResponseHeaders : option Header;
  ExpectedErrors : list Z;
  Quiet : bool;
  Context : option GoContext
}.

(** [&Options{}] *)
Definition emptyOptions : Options := mkOptions None None [] false None.

(** The fields of the config context that the call reads. *)
Definition LocalAuthOptions : Type := string.

Record Config : Type := mkConfig {
  cfg_URL : string;
  cfg_Token : string;
  cfg_AuthMethod : string;
  cfg_LocalAuthOptions : LocalAuthOptions
}.

Definition AuthMethodLocal : string := "local".

(** The [body any] argument: nil, a [[]byte], or a value of another type
    (named as [%T] prints it). *)
Inductive Body : Type :=
| BodyNil
| BodyBytes (b : string)
| BodyOther (goType : string).

Record Request : Type := mkRequest {
  req_Method : string;
  req_URL : URL;
  req_Header : Header;
  req_Body : option string     (* the bytes the body reader yields *)
}.

Record Response : Type := mkResponse {
  resp_StatusCode : Z;
  resp_Header : option Header;           (* may be nil *)
  resp_Body : ExtError + string          (* what io.ReadAll returns *)
}.

Inductive LoginKind : Type := InitialLogin | RefreshLogin.

(** The collaborators of a call, as functions: the configuration context,
    the login procedure, the standard library's URL and JSON services, the
    HTTP transport and the file system. *)
Record World : Type := mkWorld {
  w_cfg : Config;                        (* the current config context *)
  w_curlify : bool;                      (* FlagCurlifyRequests *)
  w_login : LoginKind -> Config -> ExtError + Config;
  w_jsonMarshal : Body -> ExtError + string;
  w_urlParse : string -> ExtError + URL;
  w_joinPath : string -> string -> ExtError + string;
  w_newRequest : string -> string -> ExtError + URL;
      (* http.NewRequestWithContext: checks the method, parses the URL *)
  w_addLocalAuth : LocalAuthOptions -> Header -> Header;
      (* AddLocalAuthReqHeaders *)
  w_curlCommand : Request -> string;     (* http2curl.GetCurlCommand *)
  w_do : nat -> Request -> ExtError + Response;
      (* client.Do, by attempt number *)
  w_writeFile : string -> string -> option ExtError;
  w_sprintAny : any -> string            (* the verb %+v on a decoded value *)
}.

(* ===================================================================== *)
(** ** [parseIntoError] *)

Definition parseIntoError `{Unmarshaler Problem} (w : World)
    (resp : Response) (respBytes : string) : HttpStatusError :=
  match unmarshal (T := Problem) respBytes with
  | Some problem =>
    let problem :=
      if Status problem =? 0
      then mkProblem (resp_StatusCode resp) (Title problem) (Detail problem)
      else problem in
    mkHttpStatusError (StatusText (resp_StatusCode resp))
                      (resp_StatusCode resp) (Some problem)
  | None =>
    match unmarshal (T := any) respBytes with
    | Some errobj =>
      mkHttpStatusError
        ("status " +:+ formatInt (resp_StatusCode resp)
         +:+ ", error response: " +:+ w_sprintAny w errobj)
        (resp_StatusCode resp) None
    | None =>
      let text := respBytes in
      let text := if String.eqb text EmptyString then StatusText (resp_StatusCode resp)
                  else text in
      mkHttpStatusError
        ("status: " +:+ formatInt (resp_StatusCode resp) +:+ " " +:+ text)
        (resp_StatusCode resp) None
    end
  end.

(* ===================================================================== *)
(** ** [prepareHTTPRequest] *)

(** [strings.Cut(s, "?")] *)
Fixpoint cutQuery (s : string) : string * string :=
  match s with
  | String "?" t => (EmptyString, t)
  | String c t => let '(a, b) := cutQuery t in (String c a, b)
  | EmptyString => (EmptyString, EmptyString)
  end.

Definition goTypeOf (body : Body) : string :=
  match body with
  | BodyNil => "<nil>"
  | BodyBytes _ => "[]uint8"
  | BodyOther t => t
  end.

(** [getCurlCommandOfRequest]: the command is rendered from a clone whose
    credential and multipart body are redacted; the request itself keeps
    its body (re-wrapped over the same bytes). *)
Definition getCurlCommandOfRequest (w : World) (req : Request) : string :=
  let h := header.Set_ "Authorization" "Bearer REDACTED" (req_Header req) in
  let b :=
    if String.prefix "multipart/form-data" (header.Get h "Content-Type")
    then Some "@/file/path/REDACTED"
    else req_Body req in
  w_curlCommand w (mkRequest (req_Method req) (req_URL req) h b).

Inductive Prepared : Type :=
| PrepOk (req : Request) (curl : option string)
    (* the request, and the curl command logged when the flag is set *)
| PrepErr (e : Error)
| PrepFatal (msg : string).
    (* log.Fatalf: the process exits *)

Definition addHeaders (hs : list (string * string)) (h : Header) : Header :=
  fold_left (fun acc kv => header.Add (fst kv) (snd kv) acc) hs h.

(** "add headers that are not already provided": the headers that the
    builder synthesises, in the order it adds them. *)
Definition synthHeaders (cfg : Config) (method : string) (jsonify : bool)
    (headers : StringMap) : Header :=
  let h : Header := ∅ in
  let h :=
    if jsonify then
      let contentType :=
        if String.eqb method "PATCH" then "application/merge-patch+json"
        else "application/json" in
      header.Add "Content-Type" contentType h
    else h in
  let h :=
    if isNil headers || String.eqb (mapGet headers "Accept") EmptyString
    then header.Add "Accept" "application/json" h else h in
  if isNil headers || String.eqb (mapGet headers "Authorization") EmptyString
  then header.Add "Authorization" ("Bearer " +:+ cfg_Token cfg) h else h.

(** The local-auth augmentation, when the auth method is local. *)
Definition withLocalAuth (w : World) (cfg : Config) (h : Header) : Header :=
  if String.eqb (cfg_AuthMethod cfg) AuthMethodLocal
  then w_addLocalAuth w (cfg_LocalAuthOptions cfg) h else h.

(** The headers of the request: the synthesised ones, the local-auth ones,
    then the explicit ones of the caller. *)
Definition requestHeaders (w : World) (cfg : Config) (method : string)
    (jsonify : bool) (headers : StringMap) : Header :=
  addHeaders (entries headers)
    (withLocalAuth w cfg (synthHeaders cfg method jsonify headers)).

Definition prepareHTTPRequest (w : World) (cfg : Config)
    (method path : string) (body : Body) (headers : StringMap) : Prepared :=
  let jsonify :=
    negb (match body with BodyNil => true | _ => false end)
    && (isNil headers || String.eqb (mapGet headers "Content-Type") EmptyString) in
  let bodyReader : Error + option string :=
    if jsonify then
      match w_jsonMarshal w body with
      | inl e => inl (ErrMarshalBody e)
      | inr bodyBytes => inr (Some bodyBytes)
      end
    else
      match body with
      | BodyNil => inr None
      | BodyBytes bodyBytes => inr (Some bodyBytes)
      | BodyOther t => inl (ErrBodyType t)
      end in
  match bodyReader with
  | inl e => PrepErr e
  | inr bodyReader =>
    let '(path, query) := cutQuery path in
    match w_urlParse w (cfg_URL cfg) with
    | inl e => PrepFatal "Failed to parse the url provided in context"
    | inr uri =>
      match w_joinPath w (url_String uri) path with
      | inl e => PrepErr (ErrCreateRequest (url_String uri) e)
      | inr joinedPath =>
        let fullPath :=
          if String.eqb query EmptyString then joinedPath
          else joinedPath +:+ "?" +:+ query in
        match w_newRequest w method fullPath with
        | inl e => PrepErr (ErrCreateRequest (url_String uri) e)
        | inr u =>
          let req :=
            mkRequest (if String.eqb method EmptyString then "GET" else method) u
              (requestHeaders w cfg method jsonify headers) bodyReader in
          PrepOk req
            (if w_curlify w then Some (getCurlCommandOfRequest w req)
             else None)
        end
      end
    end
  end.

(* ===================================================================== *)
(** ** [httpRequest] *)

Inductive Level : Type := LInfo | LWarn | LError.

(** What a call does to the outside, in the order it does it. *)
Inductive Event : Type :=
| EvLog (level : Level) (msg : string)
| EvLogin (kind : LoginKind) (ok : bool)       (* login(callCtx) and its outcome *)
| EvPrepare (attempt : nat) (ok : bool)        (* prepareHTTPRequest returned *)
| EvStartSpinner (label : string)
| EvStopSpinner (success : bool)
| EvStopSpinnerHide
| EvSend (attempt : nat) (req : Request)       (* client.Do(req) *)
| EvResponse (attempt : nat) (status : Z)      (* client.Do returned a response *)
| EvReadBody (attempt : nat) (ok : bool)       (* io.ReadAll(resp.Body) *)
| EvParseIntoError (status : Z)                (* parseIntoError(resp, respBytes) *)
| EvUnmarshalOut (data : string)               (* json.Unmarshal(respBytes, out) *)
| EvWriteFile (name data : string).            (* os.WriteFile *)

(** The state that a call threads: the config context held by the call
    context (updated in place by login), the caller's output slot and
    options, the file written, and the events so far, newest first. *)
Record State (T : Type) : Type := mkState {
  st_cfg : Config;
  st_options : Options;
  st_out : option T;
  st_file : option (string * string);
  st_events : list Event
}.
Arguments mkState {T}.
Arguments st_cfg {T}.
Arguments st_options {T}.
Arguments st_out {T}.
Arguments st_file {T}.
Arguments st_events {T}.

(** How a call ends: it returns an error value (nil or not), or the process
    exits in [log.Fatalf]. *)
Inductive Completion : Type :=
| Returned (err : option Error)
| ProcessExit.

Inductive Step (T A : Type) : Type :=
| Next (a : A) (s : State T)
| Done (c : Completion) (s : State T).
Arguments Next {T A}.
Arguments Done {T A}.

(** Statements of the function body: a state transformer that either goes
    on with a value or leaves the function. *)
Definition M (T A : Type) : Type := State T -> Step T A.

Definition ret {T A} (a : A) : M T A := fun s => Next a s.

Definition bind {T A B} (m : M T A) (k : A -> M T B) : M T B :=
  fun s => match m s with
           | Next a s' => k a s'
           | Done c s' => Done c s'
           end.

Declare Scope call_scope.
Delimit Scope call_scope with call.
Notation "x <- m ;; k" := (bind m (fun x => k))
  (at level 100, m at next level, k at level 200, right associativity)
  : call_scope.
Notation "m ;; k" := (bind m (fun _ => k))
  (at level 100, k at level 200, right associativity) : call_scope.

Definition emit {T} (ev : Event) : M T unit :=
  fun s => Next tt (mkState (st_cfg s) (st_options s) (st_out s) (st_file s)
                            (ev :: st_events s)).

(** An event that happens only under a condition decided elsewhere. *)
Definition consOpt {A} (o : option A) (l : list A) : list A :=
  match o with
  | Some a => a :: l
  | None => l
  end.

Definition emitOpt {T} (ev : option Event) : M T unit :=
  fun s => Next tt (mkState (st_cfg s) (st_options s) (st_out s) (st_file s)
                            (consOpt ev (st_events s))).

Definition returnErr {T A} (e : Error) : M T A :=
  fun s => Done (Returned (Some e)) s.

Definition returnNil {T A} : M T A := fun s => Done (Returned None) s.

Definition fatal {T A} : M T A := fun s => Done ProcessExit s.

Definition getCfg {T} : M T Config := fun s => Next (st_cfg s) s.

Definition setCfg {T} (cfg : Config) : M T unit :=
  fun s => Next tt (mkState cfg (st_options s) (st_out s) (st_file s)
                            (st_events s)).

Definition setOut {T} (v : T) : M T unit :=
  fun s => Next tt (mkState (st_cfg s) (st_options s) (Some v) (st_file s)
                            (st_events s)).

Definition setFile {T} (name data : string) : M T unit :=
  fun s => Next tt (mkState (st_cfg s) (st_options s) (st_out s)
                            (Some (name, data)) (st_events s)).

Definition setResponseHeaders {T} (h : option Header) : M T unit :=
  fun s =>
    let o := st_options s in
    Next tt (mkState (st_cfg s)
               (mkOptions (Headers o) h (ExpectedErrors o) (Quiet o) (Context o))
               (st_out s) (st_file s) (st_events s)).

Definition when {T} (b : bool) (m : M T unit) : M T unit :=
  if b then m else ret tt.

Local Open Scope call_scope.

(** [login(callCtx)]: on success the config of the call context is
    replaced by the refreshed one. *)
Definition login {T} (w : World) (kind : LoginKind) : M T (option ExtError) :=
  cfg <- getCfg ;;
  match w_login w kind cfg with
  | inl e => emit (EvLogin kind false) ;; ret (Some e)
  | inr cfg' => emit (EvLogin kind true) ;; setCfg cfg' ;; ret None
  end.

(** The call to [prepareHTTPRequest] with the current config, and what
    [httpRequest] does with its result. *)
Definition prepare {T} (w : World) (attempt : nat) (method path : string)
    (body : Body) (headers : StringMap) : M T Request :=
  cfg <- getCfg ;;
  match prepareHTTPRequest w cfg method path body headers with
  | PrepFatal _ => fatal
  | PrepErr e => emit (EvPrepare attempt false) ;; returnErr e
  | PrepOk req curl =>
    emitOpt (option_map
               (fun cmd => EvLog LInfo ("curl command equivalent " +:+ cmd))
               curl) ;;
    emit (EvPrepare attempt true) ;;
    ret req
  end.

(** [client.Do(req)] followed by [io.ReadAll(resp.Body)]. *)
Definition doAndRead {T} (w : World) (attempt : nat) (method : string)
    (req : Request) : M T (Response * string) :=
  emit (EvSend attempt req) ;;
  match w_do w attempt req with
  | inl e =>
    returnErr (ErrRequestFailed method (url_String (req_URL req)) e)
  | inr resp =>
    emit (EvResponse attempt (resp_StatusCode resp)) ;;
    match resp_Body resp with
    | inl e =>
      emit (EvReadBody attempt false) ;;
      returnErr (ErrReadResponse method (url_String (req_URL req))
                                 (resp_StatusCode resp) e)
    | inr respBytes =>
      emit (EvReadBody attempt true) ;;
      ret (resp, respBytes)
    end
  end.

Definition StatusForbidden : Z := 403.

Definition responseHeaderGet (resp : Response) (key : string) : string :=
  match resp_Header resp with
  | Some h => header.Get h key
  | None => EmptyString
  end.

(** The body of [httpRequest] after the nil check on [options]. *)
Definition httpRequestBody {T} `{Unmarshaler Problem} `{Unmarshaler T}
    (w : World) (method path : string) (body : Body) (options : Options)
    : M T unit :=
  emit (EvLog LInfo "Calling the observability platform API") ;;
  (* force login if no token *)
  cfg <- getCfg ;;
  when (String.eqb (cfg_Token cfg) EmptyString)
    (emit (EvLog LInfo "No auth token available, trying to log in") ;;
     err <- login w InitialLogin ;;
     match err with
     | Some e => returnErr (ErrLogin e)
     | None => ret tt
     end) ;;
  (* build HTTP request *)
  req <- prepare w 1 method path body (Headers options) ;;
  (* execute request, speculatively, assuming the auth token is valid *)
  emit (EvStartSpinner ("Platform API call (" +:+ req_Method req +:+ " "
                        +:+ urlDisplayPath (req_URL req) +:+ ")")) ;;
  r <- doAndRead w 1 method req ;;
  (* handle special case when access token needs to be refreshed and
     request retried *)
  r <- (if resp_StatusCode (fst r) =? StatusForbidden then
          emit EvStopSpinnerHide ;;
          emit (EvLog LWarn "Current token is no longer valid; trying to refresh") ;;
          err <- login w RefreshLogin ;;
          match err with
          | Some e => returnErr (ErrLoginFailed e)
          | None => ret tt
          end ;;
          (* retry the request *)
          emit (EvLog LInfo "Retrying the request with the refreshed token") ;;
          req <- prepare w 2 method path body (Headers options) ;;
          emit (EvStartSpinner
                  ("Platform API call, retry after login (" +:+ req_Method req
                   +:+ " " +:+ urlDisplayPath (req_URL req) +:+ ")")) ;;
          doAndRead w 2 method req
        else ret r) ;;
  let '(resp, respBytes) := r in
  let status := resp_StatusCode resp in
  (* return if API call response indicates error;
     handle 303 in case of updating object that changes the ID *)
  when (negb (Z.quot status 100 =? 2) && negb (status =? 303))
    (emit (EvStopSpinner false) ;;
     (if existsb (Z.eqb status) (ExpectedErrors options)
      then emit (EvLog LInfo "Platform API call failed with expected error")
      else emit (EvLog LError "Platform API call failed")) ;;
     emit (EvParseIntoError status) ;;
     returnErr (ErrStatus (parseIntoError w resp respBytes))) ;;
  (* ensure spinner is stopped, API call has succeeded *)
  emit (EvStopSpinner true) ;;
  (* process body *)
  let contentType := responseHeaderGet resp "content-type" in
  when (negb (String.eqb method "DELETE"))
    (if String.eqb contentType "application/octet-stream"
        || String.eqb contentType "application/zip" then
       (* for downloaded files, save them *)
       let solutionFileName := mapGet (Headers options) "solutionFileName" in
       when (String.eqb solutionFileName EmptyString)
         (returnErr (ErrNoFileName contentType)) ;;
       emit (EvWriteFile solutionFileName respBytes) ;;
       match w_writeFile w solutionFileName respBytes with
       | Some e => returnErr (ErrSaveFile solutionFileName e)
       | None => setFile solutionFileName respBytes
       end
     else if negb (String.length respBytes =? 0)%nat && negb (status =? 303)
     then
       (* unmarshal response from JSON *)
       emit (EvUnmarshalOut respBytes) ;;
       match unmarshal (T := T) respBytes with
       | None => returnErr (ErrJSONParse respBytes)
       | Some v => setOut v
       end
     else ret tt) ;;
  (* return response headers *)
  setResponseHeaders (resp_Header resp) ;;
  returnNil.

(** What the caller observes after the call. *)
Record Result (T : Type) : Type := mkResult {
  r_completion : Completion;
  r_out : option T;                    (* the value decoded into [out] *)
  r_file : option (string * string);   (* the file written: name, content *)
  r_options : option Options;          (* the caller's [*Options] afterwards *)
  r_trace : list Event                 (* events, oldest first *)
}.
Arguments mkResult {T}.
Arguments r_completion {T}.
Arguments r_out {T}.
Arguments r_file {T}.
Arguments r_options {T}.
Arguments r_trace {T}.

(** The deferred [callCtx.stopSpinner(false)] runs when the function
    returns; it does not run when the process exits. *)
Definition deferred (c : Completion) (events : list Event) : list Event :=
  match c with
  | Returned _ => EvStopSpinner false :: events
  | ProcessExit => events
  end.

(** What the caller is left with when the body ends in state [s] with
    completion [c]: the caller's [*Options] is the one the body updated,
    unless the caller passed nil. *)
Definition resultOf {T} (options : option Options) (c : Completion)
    (s : State T) : Result T :=
  mkResult c (st_out s) (st_file s)
           (match options with
            | None => None
            | Some _ => Some (st_options s)
            end)
           (rev (deferred c (st_events s))).

(** [httpRequest]: a nil [options] is replaced by a fresh [&Options{}],
    which the caller cannot see. *)
Definition httpRequest {T} `{Unmarshaler Problem} `{Unmarshaler T}
    (w : World) (method path : string) (body : Body)
    (options : option Options) : Result T :=
  let opts := match options with
              | None => emptyOptions
              | Some o => o
              end in
  let s0 := mkState (w_cfg w) opts None None [] in
  match httpRequestBody w method path body opts s0 with
  | Next _ s => resultOf options (Returned None) s
  | Done c s => resultOf options c s
  end.

(** The public verbs. *)
Definition JSONGet {T} `{Unmarshaler Problem} `{Unmarshaler T}
    (w : World) (path : string) (options : option Options) : Result T :=
  httpRequest w "GET" path BodyNil options.

Definition JSONDelete {T} `{Unmarshaler Problem} `{Unmarshaler T}
    (w : World) (path : string) (options : option Options) : Result T :=
  httpRequest w "DELETE" path BodyNil options.

Definition JSONPost {T} `{Unmarshaler Problem} `{Unmarshaler T}
    (w : World) (path : string) (body : Body) (options : option Options)
    : Result T :=
  httpRequest w "POST" path body options.

Definition HTTPPost {T} `{Unmarshaler Problem} `{Unmarshaler T}
    (w : World) (path : string) (body : string) (options : option Options)
    : Result T :=
  httpRequest w "POST" path (BodyBytes body) options.

Definition HTTPGet {T} `{Unmarshaler Problem} `{Unmarshaler T}
    (w : World) (path : string) (options : option Options) : Result T :=
  httpRequest w "GET" path BodyNil options.

Definition JSONPut {T} `{Unmarshaler Problem} `{Unmarshaler T}
    (w : World) (path : string) (body : Body) (options : option Options)
    : Result T :=
  httpRequest w "PUT" path body options.

Definition JSONPatch {T} `{Unmarshaler Problem} `{Unmarshaler T}
    (w : World) (path : string) (body : Body) (options : option Options)
    : Result T :=
  httpRequest w "PATCH" path body options.

Definition JSONRequest {T} `{Unmarshaler Problem} `{Unmarshaler T}
    (w : World) (method path : string) (body : Body)
    (options : option Options) : Result T :=
  httpRequest w method path body options.

Local Close Scope call_scope.

(* ===================================================================== *)
(** ** Concrete worlds, for running the model *)

Module demo.

(** A JSON text written with single quotes in place of double quotes. *)
Fixpoint q (s : string) : string :=
  match s with
  | String c t =>
    String (if Ascii.eqb c "'" then "034"%char else c) (q t)
  | EmptyString => EmptyString
  end.

Definition cfg (token : string) : Config :=
  mkConfig "https://tenant.example.com" token "oauth" EmptyString.

(** A login that succeeds and installs a fresh token. *)
Definition loginOk (_ : LoginKind) (c : Config) : ExtError + Config :=
  inr (mkConfig (cfg_URL c) "fresh-token" (cfg_AuthMethod c)
                (cfg_LocalAuthOptions c)).

(** A login that fails. *)
Definition loginFails (_ : LoginKind) (_ : Config) : ExtError + Config :=
  inl "login: invalid credentials".

Definition response (status : Z) (contentType body : string)
  : ExtError + Response :=
  inr (mkResponse status (Some {[ "Content-Type" := [contentType] ]})
                  (inr body)).

(** A world with a cached token in which the server answers the first
    attempt with [first] and the second with [second]. *)
Definition world (login : LoginKind -> Config -> ExtError + Config)
    (first second : ExtError + Response) : World :=
  mkWorld (cfg "cached-token") false login
    (fun _ => inr "{}")
    (fun s => inr (mkURL s EmptyString EmptyString))
    (fun base p => inr (base +:+ "/" +:+ p))
    (fun _ u => inr (mkURL u "/objects" EmptyString))
    (fun _ h => h)
    (fun _ => "curl")
    (fun attempt _ => match attempt with 1%nat => first | _ => second end)
    (fun _ _ => None)
    (fun _ => "<value>").

Definition forbidden : ExtError + Response :=
  response 403 "application/json" EmptyString.

Definition notFound : Response :=
  mkResponse 404 None (inr EmptyString).

End demo.

(* ===================================================================== *)
(** ** Reading a request's headers and a call's trace *)

(** The values that the caller's headers contribute to the canonical header
    name [name], in the order of iteration. *)
Definition callerValues (hs : list (string * string)) (name : string)
  : list string :=
  map snd
    (List.filter (fun kv => String.eqb (header.CanonicalMIMEHeaderKey (fst kv)) name)
            hs).

(** Whether the builder serialises the body as JSON. *)
Definition jsonifies (body : Body) (headers : StringMap) : bool :=
  negb (match body with BodyNil => true | _ => false end)
  && String.eqb (mapGet headers "Content-Type") EmptyString.

(** The values that the builder itself synthesises for the header [name]:
    a Content-Type when it serialises the body, an Accept and an
    Authorization unless the caller gives a non-empty value under exactly
    that key. *)
Definition synthesized (cfg : Config) (method : string) (body : Body)
    (headers : StringMap) (name : string) : list string :=
  if String.eqb name "Content-Type" then
    if jsonifies body headers then
      [if String.eqb method "PATCH" then "application/merge-patch+json"
       else "application/json"]
    else []
  else if String.eqb name "Accept" then
    if String.eqb (mapGet headers "Accept") EmptyString then ["application/json"]
    else []
  else if String.eqb name "Authorization" then
    if String.eqb (mapGet headers "Authorization") EmptyString
    then ["Bearer " +:+ cfg_Token cfg] else []
  else [].

(** Observations on a trace. *)
Definition isRefreshLogin (ev : Event) : bool :=
  match ev with EvLogin RefreshLogin _ => true | _ => false end.

Definition isLogin (ev : Event) : bool :=
  match ev with EvLogin _ _ => true | _ => false end.

Definition isRefreshOk (ev : Event) : bool :=
  match ev with EvLogin RefreshLogin true => true | _ => false end.

Definition isRefreshFailed (ev : Event) : bool :=
  match ev with EvLogin RefreshLogin false => true | _ => false end.

Definition isPrepared (attempt : nat) (ev : Event) : bool :=
  match ev with
  | EvPrepare k true => Nat.eqb k attempt
  | _ => false
  end.

Definition isSend (ev : Event) : bool :=
  match ev with EvSend _ _ => true | _ => false end.

Definition isRetry (ev : Event) : bool :=
  match ev with EvSend 2 _ => true | _ => false end.

(** The attempt [attempt] received a response with status [status]. *)
Definition isResponse (attempt : nat) (status : Z) (ev : Event) : bool :=
  match ev with
  | EvResponse k s => Nat.eqb k attempt && Z.eqb s status
  | _ => false
  end.

(** Some attempt received a response with status [status]. *)
Definition isResponseAny (status : Z) (ev : Event) : bool :=
  match ev with
  | EvResponse _ s => Z.eqb s status
  | _ => false
  end.

(** The body of the response to attempt [attempt] was read in full. *)
Definition isBodyRead (attempt : nat) (ev : Event) : bool :=
  match ev with
  | EvReadBody k true => Nat.eqb k attempt
  | _ => false
  end.

Definition isUnmarshalOut (ev : Event) : bool :=
  match ev with EvUnmarshalOut _ => true | _ => false end.

Definition isWriteFile (ev : Event) : bool :=
  match ev with EvWriteFile _ _ => true | _ => false end.

(** A JSON decoding of the response body: into the caller's output, or by
    the error classifier. *)
Definition isDecode (ev : Event) : bool :=
  match ev with
  | EvUnmarshalOut _ | EvParseIntoError _ => true
  | _ => false
  end.

(** The spinner was stopped as a success: the call was classified as
    successful. *)
Definition isSuccessStop (ev : Event) : bool :=
  match ev with EvStopSpinner true => true | _ => false end.

Definition count (f : Event -> bool) (tr : list Event) : nat :=
  length (List.filter f tr).

Definition happened (f : Event -> bool) (tr : list Event) : bool :=
  existsb f tr.

Definition populated {A} (o : option A) : bool :=
  match o with Some _ => true | None => false end.

Definition returnedError {T} (r : Result T) : option Error :=
  match r_completion r with
  | Returned err => err
  | ProcessExit => None
  end.

Definition returnsStatusError {T} (r : Result T) : bool :=
  match r_completion r with
  | Returned (Some e) => isStatusError e
  | _ => false
  end.

(** [post m s Q R]: run from state [s], the statement [m] either goes on
    with a value and a state that satisfy [Q], or leaves the function with
    a completion and a state that satisfy [R]. *)
Definition post {T A} (m : M T A) (s : State T)
    (Q : A -> State T -> Prop) (R : Completion -> State T -> Prop) : Prop :=
  match m s with
  | Next a s' => Q a s'
  | Done c s' => R c s'
  end.

(* ===================================================================== *)
(** ** More observations on a call *)

Definition isInitialLogin (ev : Event) : bool :=
  match ev with EvLogin InitialLogin _ => true | _ => false end.

Definition isLog (ev : Event) : bool :=
  match ev with EvLog _ _ => true | _ => false end.

Definition isParseIntoError (ev : Event) : bool :=
  match ev with EvParseIntoError _ => true | _ => false end.

(** The requests handed to [client.Do] at the attempt [attempt]. *)
Definition sentAt (attempt : nat) (tr : list Event) : list Request :=
  List.flat_map
    (fun ev =>
       match ev with
       | EvSend k req => if Nat.eqb k attempt then [req] else []
       | _ => []
       end) tr.

(** The last request handed to [client.Do], and its attempt number. *)
Definition lastSend (tr : list Event) : option (nat * Request) :=
  fold_left
    (fun acc ev =>
       match ev with
       | EvSend k req => Some (k, req)
       | _ => acc
       end) tr None.

(** The response that the call goes by: the answer to the last request it
    sent. *)
Definition finalResponse (w : World) (tr : list Event) : option Response :=
  match lastSend tr with
  | Some (k, req) =>
    match w_do w k req with
    | inr resp => Some resp
    | inl _ => None
    end
  | None => None
  end.

(** The bytes of a response body that can be read in full. *)
Definition bodyOf (resp : Response) : option string :=
  match resp_Body resp with
  | inr respBytes => Some respBytes
  | inl _ => None
  end.

(** A status that the call treats as a success. *)
Definition isSuccessStatus (status : Z) : bool :=
  (Z.quot status 100 =? 2) || (status =? 303).

(** A content type that the call saves to a file. *)
Definition isDownload (contentType : string) : bool :=
  String.eqb contentType "application/octet-stream"
  || String.eqb contentType "application/zip".

(** The trace without its log lines. *)
Definition withoutLogs (tr : list Event) : list Event :=
  List.filter (fun ev => negb (isLog ev)) tr.

(** The same options with another list of expected errors. *)
Definition withExpectedErrors (o : Options) (codes : list Z) : Options :=
  mkOptions (Headers o) (ResponseHeaders o) codes (Quiet o) (Context o).

(** The same options with the response headers written back. *)
Definition withResponseHeaders (o : Options) (h : option Header) : Options :=
  mkOptions (Headers o) h (ExpectedErrors o) (Quiet o) (Context o).

(** Two states of a call that differ at most in the log lines emitted and
    in the expected errors of the options. *)
Definition sameButLogs {T} (s s' : State T) : Prop :=
  st_cfg s = st_cfg s' /\
  st_out s = st_out s' /\
  st_file s = st_file s' /\
  Headers (st_options s) = Headers (st_options s') /\
  ResponseHeaders (st_options s) = ResponseHeaders (st_options s') /\
  withoutLogs (st_events s) = withoutLogs (st_events s').

(** Two statements that, from such states, go on with the same value or
    leave with the same completion, in such states again. *)
Definition sim {T A} (m m' : M T A) : Prop :=
  forall s s', sameButLogs s s' ->
    match m s, m' s' with
    | Next a t, Next a' t' => a = a' /\ sameButLogs t t'
    | Done c t, Done c' t' => c = c' /\ sameButLogs t t'
    | _, _ => False
    end.

(** A request with other headers. *)
Definition withHeader (req : Request) (h : Header) : Request :=
  mkRequest (req_Method req) (req_URL req) h (req_Body req).

(** A request with another body. *)
Definition withBody (req : Request) (b : option string) : Request :=
  mkRequest (req_Method req) (req_URL req) (req_Header req) b.

(** A config context with another token. *)
Definition withToken (cfg : Config) (token : string) : Config :=
  mkConfig (cfg_URL cfg) token (cfg_AuthMethod cfg) (cfg_LocalAuthOptions cfg).

(** Two headers that hold the same values under every name other than
    [Authorization]. *)
Definition sameButAuthorization (h1 h2 : Header) : Prop :=
  forall name, name <> "Authorization" -> h1 !! name = h2 !! name.

(** The world in which [http.NewRequestWithContext] is given the URL with
    the query [query] attached. *)
Definition withQuery (w : World) (query : string) : World :=
  mkWorld (w_cfg w) (w_curlify w) (w_login w) (w_jsonMarshal w)
    (w_urlParse w) (w_joinPath w)
    (fun method u => w_newRequest w method (u +:+ "?" +:+ query))
    (w_addLocalAuth w) (w_curlCommand w) (w_do w) (w_writeFile w)
    (w_sprintAny w).

(** The options that a call works with: a nil [options] is replaced by
    [&Options{}]. *)
Definition optionsOf (options : option Options) : Options :=
  match options with
  | None => emptyOptions
  | Some o => o
  end.

(** The config context that the call holds when it builds the request of
    the first attempt: the one it starts with, or the one that the initial
    login left when there was no token. *)
Definition firstConfig (w : World) : option Config :=
  if String.eqb (cfg_Token (w_cfg w)) EmptyString
  then
    match w_login w InitialLogin (w_cfg w) with
    | inr cfg => Some cfg
    | inl _ => None
    end
  else Some (w_cfg w).

(** The config context that the call holds when it builds the request of
    the retry: the one that the refreshing login left. *)
Definition retryConfig (w : World) : option Config :=
  match firstConfig w with
  | Some cfg =>
    match w_login w RefreshLogin cfg with
    | inr cfg' => Some cfg'
    | inl _ => None
    end
  | None => None
  end.

(* ===================================================================== *)
(** ** More concrete worlds *)

Module sample.

(** A world like [demo.world], with the config context, the login, the
    server and the file system given. *)
Definition world (cfg : Config)
    (login : LoginKind -> Config -> ExtError + Config)
    (respond : nat -> Request -> ExtError + Response)
    (writeFile : string -> string -> option ExtError) : World :=
  mkWorld cfg false login
    (fun _ => inr "{}")
    (fun s => inr (mkURL s EmptyString EmptyString))
    (fun base p => inr (base +:+ "/" +:+ p))
    (fun _ u => inr (mkURL u "/objects" EmptyString))
    (fun _ h => h)
    (fun _ => "curl")
    respond writeFile
    (fun _ => "<value>").

(** A server that answers every attempt with the same response. *)
Definition always (r : ExtError + Response) (_ : nat) (_ : Request)
  : ExtError + Response := r.

(** A server that answers the first attempt with 403 and the next with
    the given response. *)
Definition afterRefresh (r : ExtError + Response) (attempt : nat)
    (_ : Request) : ExtError + Response :=
  match attempt with
  | 1%nat => demo.forbidden
  | _ => r
  end.

(** A server that answers with the Authorization header it was sent. *)
Definition echoAuthorization (_ : nat) (req : Request)
  : ExtError + Response :=
  demo.response 200 "text/plain" (header.Get (req_Header req) "Authorization").

Definition writes (_ _ : string) : option ExtError := None.

Definition diskFull (_ _ : string) : option ExtError :=
  Some "no space left on device".

End sample.

(* ===================================================================== *)
(** * The solution manifest ([package solution]) *)

(** ** strings: the functions of the package that the manifest uses *)

Module strings.

(** [s[:n]] for [n <= len(s)]. *)
Fixpoint sliceTo (n : nat) (s : string) : string :=
  match n, s with
  | S n', String c t => String c (sliceTo n' t)
  | _, _ => EmptyString
  end.

(** The index of the first occurrence of [substr] in [s], counted from
    [i] at the head of [s]; [-1] when there is none. *)
Fixpoint indexFrom (i : Z) (s substr : string) {struct s} : Z :=
  if String.prefix substr s then i
  else
    match s with
    | String _ t => indexFrom (i + 1) t substr
    | EmptyString => -1
    end.

(** The position of the first occurrence of [substr] in [s], when there
    is one: [indexFrom] without its offset. *)
Fixpoint find (s substr : string) {struct s} : option nat :=
  if String.prefix substr s then Some O
  else
    match s with
    | String _ t => option_map S (find t substr)
    | EmptyString => None
    end.

(** [strings.Index(s, substr)] *)
Definition Index (s substr : string) : Z := indexFrom 0 s substr.

(** [strings.Contains(s, substr)] *)
Definition Contains (s substr : string) : bool := 0 <=? Index s substr.

(** The loop of [genSplit] for a separator that is not empty: cut at each
    occurrence of [sep], left to right; what is left is the last
    element. *)
Fixpoint splitLoop (fuel : nat) (s sep : string) : list string :=
  match fuel with
  | O => [s]
  | S fuel' =>
    let m := Index s sep in
    if m <? 0 then [s]
    else
      sliceTo (Z.to_nat m) s
      :: splitLoop fuel' (sliceFrom (Z.to_nat m + String.length sep) s) sep
  end.

(** [strings.Split(s, sep)] for [sep] other than the empty string (the
    package splits at ["${"] and at [":"] only).  Every cut removes at
    least one byte, so the length of [s] is fuel enough. *)
Definition Split (s sep : string) : list string :=
  splitLoop (String.length s) s sep.

End strings.

(** ** The manifest *)

Module solution.

(** [type FileFormat int8] *)
Definition FileFormat : Type := Z.
Definition FileFormatJSON : FileFormat := 0.
Definition FileFormatYAML : FileFormat := 1.

(** [FileFormat.String]: indexing the two-element array panics for any
    other value ([None]). *)
Definition FileFormat_String (f : FileFormat) : option string :=
  if (0 <=? f) && (f <? 2) then nth_error ["json"; "yaml"] (Z.to_nat f)
  else None.

(** [type SolutionType string] *)
Definition SolutionType_ : Type := string.
Definition ComponentSolutionType : SolutionType_ := "component".
Definition ModuleSolutionType : SolutionType_ := "module".
Definition AppSolutionType : SolutionType_ := "app".

Record ComponentDef : Type := mkComponentDef {
  Type_ : string;
  ObjectsFile : string;
  ObjectsDir : string
}.

(** [var componentDef ComponentDef]: the zero value. *)
Definition zeroComponentDef : ComponentDef :=
  mkComponentDef EmptyString EmptyString EmptyString.

Record Manifest : Type := mkManifest {
  ManifestVersion : string;
  ManifestFormat : FileFormat;
  Name : string;
  SolutionVersion : string;
  SolutionType : string;
  Dependencies : list string;
  Description : string;
  Contact : string;
  HomePage : string;
  GitRepoUrl : string;
  Readme : string;
  Objects : list ComponentDef;
  Types : list string
}.

Definition HasPseudoIsolation (manifest : Manifest) : bool :=
  strings.Contains (Name manifest) "${".

Definition GetNamespaceName (manifest : Manifest) : string :=
  let namespaceName := Name manifest in
  if HasPseudoIsolation manifest then "${sys.solutionId}" else namespaceName.

(** [strings.Split(manifest.Name, "${")[0]]: the split of a string at a
    separator that is not empty has a first element. *)
Definition GetSolutionName (manifest : Manifest) : string :=
  let solutionName := Name manifest in
  if HasPseudoIsolation manifest then
    match strings.Split (Name manifest) "${" with
    | first :: _ => first
    | [] => solutionName
    end
  else solutionName.

(** The loop runs over all the dependencies and raises the flag at each
    one that is equal to [solutionName]. *)
Definition CheckDependencyExists (manifest : Manifest)
    (solutionName : string) : bool :=
  fold_left
    (fun hasDependency deps =>
       if String.eqb deps solutionName then true else hasDependency)
    (Dependencies manifest) false.

Definition setDependencies (manifest : Manifest) (deps : list string)
  : Manifest :=
  mkManifest (ManifestVersion manifest) (ManifestFormat manifest)
    (Name manifest) (SolutionVersion manifest) (SolutionType manifest)
    deps (Description manifest) (Contact manifest) (HomePage manifest)
    (GitRepoUrl manifest) (Readme manifest) (Objects manifest)
    (Types manifest).

(** [AppendDependency] updates the manifest in place: the result is the
    manifest afterwards. *)
Definition AppendDependency (manifest : Manifest) (solutionName : string)
  : Manifest :=
  let hasDependency := CheckDependencyExists manifest solutionName in
  if negb hasDependency
  then setDependencies manifest (Dependencies manifest ++ [solutionName])%list
  else manifest.

(** The loop keeps overwriting: the result is (a copy of) the last object
    of the type, or the zero value. *)
Definition GetComponentDef (manifest : Manifest) (typeName : string)
  : ComponentDef :=
  fold_left
    (fun componentDef compDefs =>
       if String.eqb (Type_ compDefs) typeName then compDefs
       else componentDef)
    (Objects manifest) zeroComponentDef.

(** The objects of type [typeName], appended one by one. *)
Definition collectDefs (typeName : string) (objects : list ComponentDef)
  : list ComponentDef :=
  fold_left
    (fun componentDefs compDefs =>
       if String.eqb (Type_ compDefs) typeName
       then (componentDefs ++ [compDefs])%list
       else componentDefs)
    objects [].

(** [GetComponentDefs]: [None] is the run-time panic of
    [typeConvention[1]] when the type name has no colon. *)
Definition GetComponentDefs (manifest : Manifest) (typeName : string)
  : option (list ComponentDef) :=
  let typeConvention := strings.Split typeName ":" in
  match typeConvention with
  | [] => None
  | domain :: rest =>
    let depIsolation := "${$dependency('" +:+ domain +:+ "')}" in
    let typeName :=
      if HasPseudoIsolation manifest
         && CheckDependencyExists manifest depIsolation
      then
        match rest with
        | kind :: _ => Some (depIsolation +:+ ":" +:+ kind)
        | [] => None
        end
      else Some typeName in
    match typeName with
    | None => None
    | Some typeName => Some (collectDefs typeName (Objects manifest))
    end
  end.

(** *** Reading the objects that a manifest refers to *)

(** How a function of the package can fail to return. *)
Inductive Stop : Type :=
| FatalExit        (* log.Fatalf *)
| IndexPanic       (* run-time panic: index out of range *)
| OpenFileStops.   (* openFile did not return *)

(** One call of the function given to [filepath.Walk]: a path, or a path
    with the error of reading it. *)
Inductive Visit : Type :=
| VisitPath (path : string)
| VisitError (path : string) (err : string).

(** The file system as the package meets it.  [openFile] is declared in
    another file of the package: what it does is a parameter, [fs_read]
    gives the bytes that [io.ReadAll] reads from the file it returns
    (the error of [io.ReadAll] is dropped by the callers) and [None] when
    it does not return.  [fs_walk] gives the calls that [filepath.Walk]
    makes, in order. *)
Record Files : Type := mkFiles {
  fs_read : string -> option string;
  fs_walk : string -> list Visit
}.

Section Objects.

(** The type of the objects ([FmmEntity], [FmmMetric], [FmmEvent],
    [DashuiTemplate]: declared in other files of the package) and how
    [encoding/json] decodes a JSON value into it. *)
Context {Object : Type} `{Unmarshaler Object}.

(** Decoding into a [*Object]: [null] leaves the pointer nil. *)
Definition decodePointer (v : json.Value) : option (option Object) :=
  match v with
  | json.Null => Some None
  | _ => option_map Some (fromJSON v)
  end.

(** Decoding into a [[]*Object]: an array, element by element; [null]
    gives the nil slice. *)
Definition decodeSlice (v : json.Value) : option (list (option Object)) :=
  match v with
  | json.Array elems => mapM decodePointer elems
  | json.Null => Some []
  | _ => None
  end.

(** [getFmmEntitiesFromFile] and its three siblings: the same code for
    each type of object. *)
Definition getObjectsFromFile (fs : Files) (filePath : string)
  : Stop + list (option Object) :=
  match fs_read fs filePath with
  | None => inl OpenFileStops
  | Some objDefBytes =>
    let objDefContent := objDefBytes in
    if strings.Index objDefContent "[" =? 0 then
      match json.parse objDefBytes with
      | Some v =>
        match decodeSlice v with
        | Some objectsArray => inr objectsArray
        | None => inl FatalExit
        end
      | None => inl FatalExit
      end
    else
      match json.parse objDefBytes with
      | Some v =>
        match decodePointer v with
        | Some object => inr [object]
        | None => inl FatalExit
        end
      | None => inl FatalExit
      end
  end.

(** The walk over [ObjectsDir]: every path that contains [".json"] is
    read; an error handed to the function ends the walk, and the
    process. *)
Fixpoint walkObjects (fs : Files) (visits : list Visit)
    (objects : list (option Object)) : Stop + list (option Object) :=
  match visits with
  | [] => inr objects
  | VisitError _ _ :: _ => inl FatalExit
  | VisitPath path :: visits' =>
    if strings.Contains path ".json" then
      match getObjectsFromFile fs path with
      | inl stop => inl stop
      | inr found => walkObjects fs visits' (objects ++ found)%list
      end
    else walkObjects fs visits' objects
  end.

(** The body of the loop over the component definitions. *)
Definition readComponent (fs : Files) (compDef : ComponentDef)
    (objects : list (option Object)) : Stop + list (option Object) :=
  match
    (if negb (String.eqb (ObjectsFile compDef) EmptyString) then
       match getObjectsFromFile fs (ObjectsFile compDef) with
       | inl stop => inl stop
       | inr found => inr (objects ++ found)%list
       end
     else inr objects)
  with
  | inl stop => inl stop
  | inr objects =>
    if negb (String.eqb (ObjectsDir compDef) EmptyString) then
      walkObjects fs (fs_walk fs (ObjectsDir compDef)) objects
    else inr objects
  end.

Fixpoint readComponents (fs : Files) (compDefs : list ComponentDef)
    (objects : list (option Object)) : Stop + list (option Object) :=
  match compDefs with
  | [] => inr objects
  | compDef :: compDefs' =>
    match readComponent fs compDef objects with
    | inl stop => inl stop
    | inr objects' => readComponents fs compDefs' objects'
    end
  end.

(** [GetFmmEntities] and its three siblings, for the type name of
    each. *)
Definition getObjects (fs : Files) (manifest : Manifest)
    (typeName : string) : Stop + list (option Object) :=
  match GetComponentDefs manifest typeName with
  | None => inl IndexPanic
  | Some componentDefs => readComponents fs componentDefs []
  end.

End Objects.

Section Fmm.

Context {FmmEntity FmmMetric FmmEvent DashuiTemplate : Type}.
Context `{Unmarshaler FmmEntity} `{Unmarshaler FmmMetric}.
Context `{Unmarshaler FmmEvent} `{Unmarshaler DashuiTemplate}.

Definition getDashuiTemplatesFromFile (fs : Files) (filePath : string)
  : Stop + list (option DashuiTemplate) :=
  getObjectsFromFile fs filePath.

Definition getFmmEntitiesFromFile (fs : Files) (filePath : string)
  : Stop + list (option FmmEntity) :=
  getObjectsFromFile fs filePath.

Definition getFmmMetricsFromFile (fs : Files) (filePath : string)
  : Stop + list (option FmmMetric) :=
  getObjectsFromFile fs filePath.

Definition getFmmEventsFromFile (fs : Files) (filePath : string)
  : Stop + list (option FmmEvent) :=
  getObjectsFromFile fs filePath.

Definition GetFmmEntities (fs : Files) (manifest : Manifest)
  : Stop + list (option FmmEntity) :=
  getObjects fs manifest "fmm:entity".

Definition GetFmmMetrics (fs : Files) (manifest : Manifest)
  : Stop + list (option FmmMetric) :=
  getObjects fs manifest "fmm:metric".

Definition GetFmmEvents (fs : Files) (manifest : Manifest)
  : Stop + list (option FmmEvent) :=
  getObjects fs manifest "fmm:event".

Definition GetDashuiTemplates (fs : Files) (manifest : Manifest)
  : Stop + list (option DashuiTemplate) :=
  getObjects fs manifest "dashui:template".

End Fmm.

(** The test of both loops over the objects: the object is of type
    [typeName]. *)
Definition hasType (typeName : string) (c : ComponentDef) : bool :=
  String.eqb (Type_ c) typeName.

(** The type name that [GetComponentDefs] ends up looking for: the one
    it is given, or the one of the isolated dependency; [None] when
    finding it panics. *)
Definition lookedUpType (manifest : Manifest) (typeName : string)
  : option string :=
  match strings.Split typeName ":" with
  | [] => None
  | domain :: rest =>
    let depIsolation := "${$dependency('" +:+ domain +:+ "')}" in
    if HasPseudoIsolation manifest
       && CheckDependencyExists manifest depIsolation
    then
      match rest with
      | kind :: _ => Some (depIsolation +:+ ":" +:+ kind)
      | [] => None
      end
    else Some typeName
  end.

(** The manifest with other objects. *)
Definition withObjects (manifest : Manifest) (objects : list ComponentDef)
  : Manifest :=
  mkManifest (ManifestVersion manifest) (ManifestFormat manifest)
    (Name manifest) (SolutionVersion manifest) (SolutionType manifest)
    (Dependencies manifest) (Description manifest) (Contact manifest)
    (HomePage manifest) (GitRepoUrl manifest) (Readme manifest) objects
    (Types manifest).

(** What the objects of a list of component definitions are, given those
    of a first part and those of the rest: the first stop, or all the
    objects in order. *)
Definition andThen {A} (first rest : Stop + list A) : Stop + list A :=
  match first with
  | inl stop => inl stop
  | inr objects =>
    match rest with
    | inl stop => inl stop
    | inr objects' => inr (objects ++ objects')%list
    end
  end.

(** An object type for running the functions: a struct with the one
    field [name], decoded by the standard rules (a JSON object, whose
    member [name], when present, is a string or [null]). *)
Record Named : Type := mkNamed { named_name : string }.

Fixpoint namedOf (members : list (string * json.Value)) (acc : Named)
  : option Named :=
  match members with
  | [] => Some acc
  | (k, v) :: members' =>
    if jsondec.fieldMatches "name" k then
      match v with
      | json.Str s => namedOf members' (mkNamed s)
      | json.Null => namedOf members' acc
      | _ => None
      end
    else namedOf members' acc
  end.

#[global] Instance Named_Unmarshaler : Unmarshaler Named :=
  fun v =>
    match v with
    | json.Object members => namedOf members (mkNamed EmptyString)
    | json.Null => Some (mkNamed EmptyString)
    | _ => None
    end.

(** The text of a JSON object and of a JSON array, for the examples. *)
Definition objectText : string :=
  String "{" (String "034" ("name" +:+ String "034" (":" +:+
    String "034" ("a" +:+ String "034" "}")))).

Definition arrayText : string :=
  "[" +:+ objectText +:+ ", null, {" +:+ String "034" ("NAME" +:+
    String "034" (": " +:+ String "034" ("b" +:+ String "034" "}]"))).

(** A file system with the given files and no directories. *)
Definition filesOf (files : list (string * string)) : Files :=
  mkFiles
    (fun path =>
       match List.find (fun f => String.eqb (fst f) path) files with
       | Some f => Some (snd f)
       | None => None
       end)
    (fun _ => []).

(** A manifest with the given name, dependencies and objects, and nothing
    else: for running the functions above. *)
Definition manifestOf (name : string) (deps : list string)
    (objects : list ComponentDef) : Manifest :=
  mkManifest "1.1.0" FileFormatJSON name "1.0.0" ModuleSolutionType deps
    EmptyString EmptyString EmptyString EmptyString EmptyString objects [].

End solution.

(* ===================================================================== *)
(** ** Bytes: arithmetic reading of the bit operations *)

Lemma byteZ_range (c : ascii) : 0 <= byteZ c < 256.
Proof.
  unfold byteZ. pose proof (N_ascii_bounded c). lia.
Qed.

Lemma land_255 (x : Z) : Z.land x 255 = x mod 256.
Proof. change 255 with (Z.ones 8). rewrite Z.land_ones by lia. reflexivity. Qed.

Lemma land_63 (x : Z) : Z.land x 63 = x mod 64.
Proof. change 63 with (Z.ones 6). rewrite Z.land_ones by lia. reflexivity. Qed.

Lemma land_31 (x : Z) : Z.land x 31 = x mod 32.
Proof. change 31 with (Z.ones 5). rewrite Z.land_ones by lia. reflexivity. Qed.

Lemma land_15 (x : Z) : Z.land x 15 = x mod 16.
Proof. change 15 with (Z.ones 4). rewrite Z.land_ones by lia. reflexivity. Qed.

Lemma land_7 (x : Z) : Z.land x 7 = x mod 8.
Proof. change 7 with (Z.ones 3). rewrite Z.land_ones by lia. reflexivity. Qed.

Lemma byteZ_toByte (x : Z) : byteZ (toByte x) = x mod 256.
Proof.
  unfold byteZ, toByte. rewrite land_255.
  pose proof (Z.mod_pos_bound x 256 ltac:(lia)) as Hb.
  rewrite N_ascii_embedding by lia. lia.
Qed.

Lemma toByte_byteZ (c : ascii) : toByte (byteZ c) = c.
Proof.
  unfold toByte. rewrite land_255.
  pose proof (byteZ_range c) as Hc. rewrite Z.mod_small by lia.
  unfold byteZ. rewrite N2Z.id. apply ascii_N_embedding.
Qed.

(** [hi | lo] is [hi + lo] when the low [k] bits of [hi] are clear and
    [lo] fits in them. *)
Lemma lor_add (k hi lo : Z) :
  0 <= k -> hi mod 2 ^ k = 0 -> 0 <= lo < 2 ^ k -> Z.lor hi lo = hi + lo.
Proof.
  intros Hk Hhi Hlo.
  assert (Hdisj : Z.land hi lo = 0).
  { apply Z.bits_inj'; intros n Hn. rewrite Z.land_spec, Z.bits_0.
    destruct (Z.lt_ge_cases n k) as [Hlt|Hge].
    - apply Z.mod_divide in Hhi; [|lia]. destruct Hhi as [q ->].
      rewrite Z.mul_pow2_bits_low by lia. reflexivity.
    - assert (Hpow : 2 ^ k <= 2 ^ n) by (apply Z.pow_le_mono_r; lia).
      assert (Hbit : Z.testbit lo n = false).
      { apply Z.testbit_false; [lia|]. rewrite Z.div_small by lia. reflexivity. }
      rewrite Hbit. apply andb_false_r. }
  rewrite <- Z.lxor_lor by exact Hdisj.
  symmetry. apply Z.add_nocarry_lxor. exact Hdisj.
Qed.

(* ===================================================================== *)
(** ** Decoding: the value and the width of each accepted form *)

Import utf8.

Ltac divmod_lia := Z.div_mod_to_equations; lia.

Lemma value2 (s0 s1 : Z) :
  Z.lor (Z.shiftl (Z.land s0 mask2) 6) (Z.land s1 maskx)
  = (s0 mod 32) * 64 + s1 mod 64.
Proof.
  unfold mask2, maskx. rewrite land_31, land_63, Z.shiftl_mul_pow2 by lia.
  change (2 ^ 6) with 64.
  apply (lor_add 6); [lia | | ]; change (2 ^ 6) with 64; divmod_lia.
Qed.

Lemma value3 (s0 s1 s2 : Z) :
  Z.lor (Z.lor (Z.shiftl (Z.land s0 mask3) 12) (Z.shiftl (Z.land s1 maskx) 6))
        (Z.land s2 maskx)
  = (s0 mod 16) * 4096 + (s1 mod 64) * 64 + s2 mod 64.
Proof.
  unfold mask3, maskx. rewrite land_15, !land_63, !Z.shiftl_mul_pow2 by lia.
  change (2 ^ 6) with 64. change (2 ^ 12) with 4096.
  rewrite (lor_add 12 (s0 mod 16 * 4096) (s1 mod 64 * 64));
    [ | lia | change (2 ^ 12) with 4096; divmod_lia ..].
  apply (lor_add 6); [lia | | ]; change (2 ^ 6) with 64; divmod_lia.
Qed.

Lemma value4 (s0 s1 s2 s3 : Z) :
  Z.lor (Z.lor (Z.lor (Z.shiftl (Z.land s0 mask4) 18)
                      (Z.shiftl (Z.land s1 maskx) 12))
               (Z.shiftl (Z.land s2 maskx) 6))
        (Z.land s3 maskx)
  = (s0 mod 8) * 262144 + (s1 mod 64) * 4096 + (s2 mod 64) * 64 + s3 mod 64.
Proof.
  unfold mask4, maskx. rewrite land_7, !land_63, !Z.shiftl_mul_pow2 by lia.
  change (2 ^ 6) with 64. change (2 ^ 12) with 4096.
  change (2 ^ 18) with 262144.
  rewrite (lor_add 18 (s0 mod 8 * 262144) (s1 mod 64 * 4096));
    [ | lia | change (2 ^ 18) with 262144; divmod_lia ..].
  rewrite (lor_add 12 (s0 mod 8 * 262144 + s1 mod 64 * 4096) (s2 mod 64 * 64));
    [ | lia | change (2 ^ 12) with 4096; divmod_lia ..].
  apply (lor_add 6); [lia | | ]; change (2 ^ 6) with 64; divmod_lia.
Qed.

Lemma first_spec (b : Z) : firstSpec b (first b).
Proof.
  unfold first.
  repeat match goal with
  | |- context [?x <? ?y] => destruct (Z.ltb_spec x y)
  | |- context [?x =? ?y] => destruct (Z.eqb_spec x y)
  end; constructor; lia.
Qed.

Lemma decode_nonempty_size (s : string) :
  s <> EmptyString -> (1 <= snd (DecodeRuneInString s) <= String.length s)%nat.
Proof.
  destruct s as [|c0 r0]; [congruence|]. intros _.
  unfold DecodeRuneInString.
  destruct (first (byteZ c0)) as [| |sz lo hi]; simpl; try lia.
  destruct r0 as [|c1 r1]; simpl; try lia.
  destruct (_ || _); simpl; try lia.
  destruct (sz <=? 2)%nat; simpl; try lia.
  destruct r1 as [|c2 r2]; simpl; try lia.
  destruct (_ || _); simpl; try lia.
  destruct (sz <=? 3)%nat; simpl; try lia.
  destruct r2 as [|c3 r3]; simpl; try lia.
  destruct (_ || _); simpl; lia.
Qed.

Lemma RuneError_valid : validRune RuneError.
Proof. unfold validRune, RuneError, surrogateMin, surrogateMax, MaxRune. lia. Qed.

(** Every rune that decoding yields is a Unicode scalar value. *)
Lemma decode_valid (s : string) : validRune (fst (DecodeRuneInString s)).
Proof.
  destruct s as [|c0 r0]; [apply RuneError_valid|].
  unfold DecodeRuneInString.
  pose proof (byteZ_range c0) as Hb0.
  destruct (first_spec (byteZ c0)) as [Hf|Hf|Hf|Hf|Hf Hf'|Hf|Hf|Hf|Hf];
    simpl; try apply RuneError_valid.
  { unfold validRune, surrogateMin. lia. }
  all: destruct r0 as [|c1 r1]; [apply RuneError_valid|].
  all: pose proof (byteZ_range c1) as Hb1.
  all: match goal with |- context [(?a <? ?b) || (?c <? ?d)] =>
         destruct (Z.ltb_spec a b); destruct (Z.ltb_spec c d); simpl;
         try apply RuneError_valid end.
  { rewrite value2. unfold validRune, surrogateMin. divmod_lia. }
  all: destruct r1 as [|c2 r2]; [apply RuneError_valid|].
  all: pose proof (byteZ_range c2) as Hb2.
  all: match goal with |- context [(?a <? ?b) || (?c <? ?d)] =>
         destruct (Z.ltb_spec a b); destruct (Z.ltb_spec c d); simpl;
         try apply RuneError_valid end.
  1-3: rewrite value3; unfold validRune, surrogateMin, surrogateMax, MaxRune;
       unfold locb, hicb in *; divmod_lia.
  all: destruct r2 as [|c3 r3]; [apply RuneError_valid|].
  all: pose proof (byteZ_range c3) as Hb3.
  all: match goal with |- context [(?a <? ?b) || (?c <? ?d)] =>
         destruct (Z.ltb_spec a b); destruct (Z.ltb_spec c d); simpl;
         try apply RuneError_valid end.
  all: rewrite value4; unfold validRune, surrogateMin, surrogateMax, MaxRune;
       unfold locb, hicb in *; divmod_lia.
Qed.

(* ===================================================================== *)
(** ** Encoding: the bytes that [encoderune] writes *)

Lemma enc_cont (x : Z) :
  byteZ (toByte (Z.lor tx (Z.land (Z.land x 255) maskx))) = 128 + x mod 64.
Proof.
  unfold tx, maskx. rewrite byteZ_toByte, land_63, land_255.
  rewrite (lor_add 6); [ | lia | reflexivity | change (2 ^ 6) with 64; divmod_lia].
  divmod_lia.
Qed.

Lemma enc_lead2 (r : Z) :
  0 <= r <= 2047 ->
  byteZ (toByte (Z.lor t2 (Z.land (Z.shiftr r 6) 255))) = 192 + r / 64.
Proof.
  intros Hr. unfold t2. rewrite byteZ_toByte, land_255, Z.shiftr_div_pow2 by lia.
  change (2 ^ 6) with 64.
  rewrite (lor_add 6); [ | lia | reflexivity | change (2 ^ 6) with 64; divmod_lia].
  divmod_lia.
Qed.

Lemma enc_lead3 (r : Z) :
  0 <= r <= 65535 ->
  byteZ (toByte (Z.lor t3 (Z.land (Z.shiftr r 12) 255))) = 224 + r / 4096.
Proof.
  intros Hr. unfold t3. rewrite byteZ_toByte, land_255, Z.shiftr_div_pow2 by lia.
  change (2 ^ 12) with 4096.
  rewrite (lor_add 5); [ | lia | reflexivity | change (2 ^ 5) with 32; divmod_lia].
  divmod_lia.
Qed.

Lemma enc_lead4 (r : Z) :
  0 <= r <= 1114111 ->
  byteZ (toByte (Z.lor t4 (Z.land (Z.shiftr r 18) 255))) = 240 + r / 262144.
Proof.
  intros Hr. unfold t4. rewrite byteZ_toByte, land_255, Z.shiftr_div_pow2 by lia.
  change (2 ^ 18) with 262144.
  rewrite (lor_add 4); [ | lia | reflexivity | change (2 ^ 4) with 16; divmod_lia].
  divmod_lia.
Qed.

Lemma encodeRune_length (r : Z) :
  (1 <= String.length (encodeRune r) <= 4)%nat.
Proof.
  unfold encodeRune, encode3.
  repeat match goal with |- context [if ?b then _ else _] => destruct b end;
    simpl; lia.
Qed.

Lemma append_cons (c : ascii) (s t : string) :
  String c s +:+ t = String c (s +:+ t).
Proof. reflexivity. Qed.

Lemma append_nil (t : string) : EmptyString +:+ t = t.
Proof. reflexivity. Qed.

Ltac norm_append := rewrite ?append_cons, ?append_nil; cbn [String.length].

Ltac split_range :=
  match goal with
  | |- context [(?a <? ?b) || (?c <? ?d)] =>
    destruct (Z.ltb_spec a b); [exfalso; divmod_lia|];
    destruct (Z.ltb_spec c d); [exfalso; divmod_lia|]; cbn [orb]
  end.

(** Decoding what [encoderune] wrote for a scalar value gives the value
    back, whatever follows it. *)
Lemma decode_encode (r : Z) (rest : string) :
  validRune r ->
  DecodeRuneInString (encodeRune r +:+ rest)
  = (r, String.length (encodeRune r)).
Proof.
  unfold validRune, surrogateMin, surrogateMax, MaxRune. intros Hr.
  unfold encodeRune, rune1Max, rune2Max, rune3Max, surrogateMin,
    surrogateMax, MaxRune.
  rewrite (Z.mod_small r) by lia.
  destruct (Z.leb_spec r 127) as [H1|H1].
  { norm_append. unfold DecodeRuneInString.
    rewrite byteZ_toByte, Z.mod_small by lia.
    destruct (first_spec r); try lia. reflexivity. }
  destruct (Z.leb_spec r 2047) as [H2|H2].
  { norm_append. unfold DecodeRuneInString.
    rewrite enc_lead2, enc_cont by lia.
    destruct (first_spec (192 + r / 64)); try (exfalso; divmod_lia).
    split_range. cbn [Nat.leb]. rewrite value2. f_equal. divmod_lia. }
  destruct (Z.ltb_spec 1114111 r) as [H3|H3]; [lia|].
  destruct (Z.leb_spec 55296 r) as [H4|H4];
    destruct (Z.leb_spec r 57343) as [H5|H5]; cbn [orb andb]; try lia.
  all: destruct (Z.leb_spec r 65535) as [H6|H6]; try lia.
  1,3: unfold encode3; norm_append;
       unfold DecodeRuneInString;
       rewrite enc_lead3 by lia;
       rewrite !enc_cont; rewrite !Z.shiftr_div_pow2 by lia;
       change (2 ^ 6) with 64;
       destruct (first_spec (224 + r / 4096)); try (exfalso; divmod_lia);
       split_range; cbn [Nat.leb];
       unfold locb, hicb; split_range;
       rewrite value3; f_equal; divmod_lia.
  norm_append. unfold DecodeRuneInString.
  rewrite enc_lead4 by lia.
  rewrite !enc_cont. rewrite !Z.shiftr_div_pow2 by lia.
  change (2 ^ 6) with 64. change (2 ^ 12) with 4096.
  destruct (first_spec (240 + r / 262144)); try (exfalso; divmod_lia).
  all: split_range; cbn [Nat.leb]; unfold locb, hicb; split_range; split_range.
  all: rewrite value4; f_equal; divmod_lia.
Qed.

(* ===================================================================== *)
(** ** Strings as rune sequences *)

Lemma sliceFrom_length (n : nat) (s : string) :
  String.length (sliceFrom n s) = (String.length s - n)%nat.
Proof.
  revert s. induction n as [|n IH]; intros [|c s]; simpl; auto with lia.
Qed.

Lemma sliceFrom_append (p rest : string) :
  sliceFrom (String.length p) (p +:+ rest) = rest.
Proof. induction p as [|c p IH]; simpl; auto. Qed.

Lemma decodeAll_fuel (f1 f2 : nat) (s : string) :
  (String.length s <= f1)%nat -> (String.length s <= f2)%nat ->
  decodeAll f1 s = decodeAll f2 s.
Proof.
  revert f2 s. induction f1 as [|f1 IH]; intros f2 s H1 H2.
  - destruct s; simpl in *; [|lia]. destruct f2; reflexivity.
  - destruct s as [|c s]; [destruct f2; reflexivity|].
    destruct f2 as [|f2]; [simpl in H2; lia|].
    cbn [decodeAll].
    pose proof (decode_nonempty_size (String c s) ltac:(discriminate)) as Hsz.
    destruct (DecodeRuneInString (String c s)) as [r size]. cbn [snd] in Hsz.
    f_equal. apply IH; rewrite sliceFrom_length; lia.
Qed.

Lemma runesOf_nonempty (s : string) :
  s <> EmptyString ->
  runesOf s = fst (DecodeRuneInString s)
              :: runesOf (sliceFrom (snd (DecodeRuneInString s)) s).
Proof.
  intros Hs. unfold runesOf. destruct s as [|c s]; [congruence|].
  cbn [String.length decodeAll].
  pose proof (decode_nonempty_size (String c s) Hs) as Hsz.
  destruct (DecodeRuneInString (String c s)) as [r size]. cbn [fst snd] in *.
  f_equal. apply decodeAll_fuel; rewrite ?sliceFrom_length; cbn [String.length] in *; lia.
Qed.

Lemma countFrom_decodeAll (f : nat) (s : string) :
  countFrom f s = Z.of_nat (length (decodeAll f s)).
Proof.
  revert s. induction f as [|f IH]; intros s; [reflexivity|].
  destruct s as [|c s]; [reflexivity|]. cbn [countFrom decodeAll].
  destruct (DecodeRuneInString (String c s)) as [r size]. cbn [snd length].
  rewrite IH. lia.
Qed.

(** [utf8.RuneCountInString(s)] is [len([]rune(s))]. *)
Lemma RuneCount_runesOf (s : string) :
  RuneCountInString s = Z.of_nat (length (runesOf s)).
Proof. apply countFrom_decodeAll. Qed.

Lemma decodeAll_valid (f : nat) (s : string) : Forall validRune (decodeAll f s).
Proof.
  revert s. induction f as [|f IH]; intros s; [constructor|].
  destruct s as [|c s]; [constructor|]. cbn [decodeAll].
  pose proof (decode_valid (String c s)) as Hv.
  destruct (DecodeRuneInString (String c s)) as [r size].
  constructor; [exact Hv | apply IH].
Qed.

Lemma runesOf_valid (s : string) : Forall validRune (runesOf s).
Proof. apply decodeAll_valid. Qed.

Lemma encodeRune_nonempty (r : Z) (rest : string) : encodeRune r +:+ rest <> EmptyString.
Proof.
  pose proof (encodeRune_length r) as Hl.
  destruct (encodeRune r); simpl in *; [lia|discriminate].
Qed.

(** [[]rune(string(rs))] is [rs] when [rs] holds scalar values only. *)
Lemma runesOf_stringOfRunes (rs : list Z) :
  Forall validRune rs -> runesOf (stringOfRunes rs) = rs.
Proof.
  induction 1 as [|r rs Hr Hrs IH]; [reflexivity|].
  cbn [stringOfRunes].
  rewrite runesOf_nonempty by apply encodeRune_nonempty.
  rewrite decode_encode by exact Hr. cbn [fst snd].
  rewrite sliceFrom_append, IH. reflexivity.
Qed.

Lemma take_S_insert {A} (l : list A) (k : nat) (x : A) :
  (k < length l)%nat -> take (S k) (<[k:=x]> l) = (take k l ++ [x])%list.
Proof.
  revert k. induction l as [|a l IH]; intros [|k] Hk; simpl in *; try lia.
  - reflexivity.
  - f_equal. apply IH. lia.
Qed.

Lemma ellipsis_valid : validRune ellipsis.
Proof. unfold validRune, ellipsis, surrogateMin. lia. Qed.

Lemma utf8_runesOf_cons_length (c : ascii) (s : string) :
  (1 <= length (runesOf (String c s)))%nat.
Proof.
  rewrite runesOf_nonempty by discriminate. simpl. lia.
Qed.

(* ===================================================================== *)
(** ** [abbreviateString] *)

Example ellipsis_literal : "…" = utf8.encodeRune ellipsis.
Proof. reflexivity. Qed.

Example abbreviate_accented : abbreviateString "héllo wörld" 5 = "héll…".
Proof. vm_compute. reflexivity. Qed.

Example abbreviate_invalid_utf8 :
  utf8.runesOf (abbreviateString (String "255" "abc") 3) = [65533; 97; 8230].
Proof. vm_compute. reflexivity. Qed.

Example runesOf_mixed_widths : utf8.runesOf "a€𝄞" = [97; 8364; 119070].
Proof. vm_compute. reflexivity. Qed.

(** In the branch that indexes and slices the rune slice, [n-1] is a valid
    index and [n] a valid slice bound: the function cannot panic. *)
Lemma abbreviateString_in_range (s : string) (n : N) :
  Z.of_N n < utf8.RuneCountInString s -> (2 <= n)%N ->
  (N.to_nat (n - 1) < length (utf8.runesOf s))%nat /\
  (N.to_nat n <= length (utf8.runesOf s))%nat.
Proof. rewrite RuneCount_runesOf. lia. Qed.

Lemma abbreviateString_long (s : string) (n : N) :
  Z.of_N n < utf8.RuneCountInString s -> (2 <= n)%N ->
  abbreviateString s n
  = utf8.stringOfRunes
      (take (N.to_nat (n - 1)) (utf8.runesOf s) ++ [ellipsis])%list.
Proof.
  intros Hlong Hn. unfold abbreviateString.
  destruct (Z.leb_spec (utf8.RuneCountInString s) (Z.of_N n)); [lia|].
  destruct (N.eqb_spec n 0); [lia|]. destruct (N.eqb_spec n 1); [lia|].
  destruct (abbreviateString_in_range s n Hlong Hn) as [Hidx _].
  replace (N.to_nat n) with (S (N.to_nat (n - 1))) by lia.
  rewrite take_S_insert by exact Hidx. reflexivity.
Qed.

(** C8.  [abbreviateString(s, n)] returns [s] unchanged when [s] has at most
    [n] runes.  Otherwise, when [s] has more than [n] runes: for [n >= 2] the
    result has exactly [n] runes, its last rune is the ellipsis and its first
    [n-1] runes are the first [n-1] runes of [s]; for [n = 1] it is the bare
    ellipsis; and for [n = 0] the result is the empty string (for every
    [s]). *)
Theorem abbreviateString_spec (s : string) (n : N) :
  (utf8.RuneCountInString s <= Z.of_N n -> abbreviateString s n = s) /\
  (n = 0%N -> abbreviateString s n = EmptyString) /\
  (Z.of_N n < utf8.RuneCountInString s ->
     (n = 1%N -> abbreviateString s n = "…") /\
     ((2 <= n)%N ->
        utf8.RuneCountInString (abbreviateString s n) = Z.of_N n /\
        last (utf8.runesOf (abbreviateString s n)) = Some ellipsis /\
        take (N.to_nat (n - 1)) (utf8.runesOf (abbreviateString s n))
          = take (N.to_nat (n - 1)) (utf8.runesOf s))).
Proof.
  split; [|split].
  - intros Hshort. unfold abbreviateString.
    destruct (Z.leb_spec (utf8.RuneCountInString s) (Z.of_N n)); [reflexivity|lia].
  - intros ->. unfold abbreviateString.
    destruct (Z.leb_spec (utf8.RuneCountInString s) (Z.of_N 0)) as [H0|H0];
      [|reflexivity].
    rewrite RuneCount_runesOf in H0.
    destruct s as [|c s]; [reflexivity|].
    pose proof (utf8_runesOf_cons_length c s). lia.
  - intros Hlong. split.
    + intros ->. unfold abbreviateString.
      destruct (Z.leb_spec (utf8.RuneCountInString s) (Z.of_N 1)); [lia|].
      reflexivity.
    + intros Hn.
      pose proof (abbreviateString_in_range s n Hlong Hn) as [Hidx Hlen].
      rewrite (abbreviateString_long s n Hlong Hn).
      assert (Hvalid : Forall utf8.validRune
                (take (N.to_nat (n - 1)) (utf8.runesOf s) ++ [ellipsis])%list).
      { apply Forall_app. split.
        - apply Forall_take, runesOf_valid.
        - constructor; [apply ellipsis_valid | constructor]. }
      rewrite RuneCount_runesOf, (runesOf_stringOfRunes _ Hvalid).
      assert (Hk : length (take (N.to_nat (n - 1)) (utf8.runesOf s))
                   = N.to_nat (n - 1)) by (rewrite length_take; lia).
      repeat split.
      * rewrite length_app, Hk. simpl. lia.
      * apply last_snoc.
      * rewrite take_app_length'; [reflexivity | symmetry; exact Hk].
Qed.

Lemma abbreviateString_spec_witness :
  abbreviateString "abc" 3 = "abc" /\
  abbreviateString "abc" 0 = EmptyString /\
  abbreviateString "abc" 1 = "…" /\
  utf8.RuneCountInString (abbreviateString "héllo wörld" 5) = 5.
Proof.
  split; [|split; [|split]].
  - apply (proj1 (abbreviateString_spec "abc" 3)). vm_compute. discriminate.
  - apply (proj1 (proj2 (abbreviateString_spec "abc" 0))). reflexivity.
  - apply (proj2 (proj2 (abbreviateString_spec "abc" 1)));
      [vm_compute; reflexivity | reflexivity].
  - apply (proj2 (proj2 (abbreviateString_spec "héllo wörld" 5)));
      [vm_compute; reflexivity | lia].
Defined.

(* ===================================================================== *)
(** ** [parseIntoError] *)

Lemma unmarshal_empty {T} `{Unmarshaler T} : unmarshal (T := T) EmptyString = None.
Proof. reflexivity. Qed.

Lemma unmarshal_Some_parse {T} `{Unmarshaler T} (data : string) (x : T) :
  unmarshal data = Some x ->
  exists v, json.parse data = Some v /\ fromJSON v = Some x.
Proof.
  unfold unmarshal. destruct (json.parse data) as [v|]; [|discriminate].
  intros Hx. exists v. split; [reflexivity | exact Hx].
Qed.

Example scenario_not_found :
  parseIntoError (demo.world demo.loginOk demo.forbidden demo.forbidden)
    demo.notFound (demo.q "{'status':404,'title':'not found'}")
  = mkHttpStatusError "Not Found" 404 (Some (mkProblem 404 "not found" EmptyString)).
Proof. vm_compute. reflexivity. Qed.

Example problem_without_status :
  parseIntoError (demo.world demo.loginOk demo.forbidden demo.forbidden)
    demo.notFound (demo.q "{'title':'gone','extra':[1,2]}")
  = mkHttpStatusError "Not Found" 404 (Some (mkProblem 404 "gone" EmptyString)).
Proof. vm_compute. reflexivity. Qed.

Example problem_with_other_status :
  parseIntoError (demo.world demo.loginOk demo.forbidden demo.forbidden)
    demo.notFound (demo.q "{'Status': 410, 'detail': null}")
  = mkHttpStatusError "Not Found" 404 (Some (mkProblem 410 EmptyString EmptyString)).
Proof. vm_compute. reflexivity. Qed.

Example plain_text_body :
  parseIntoError (demo.world demo.loginOk demo.forbidden demo.forbidden)
    demo.notFound "no such object"
  = mkHttpStatusError "status: 404 no such object" 404 None.
Proof. vm_compute. reflexivity. Qed.

(** C3.  [parseIntoError] is a total function into Status Errors: whatever
    the body and the status, and whatever the decoder of the Problem type
    is, it returns an [HttpStatusError] that carries the response's status
    code.  It tries the Problem decoding first (its success decides the
    result), then the untyped JSON decoding, then plain text; in the plain
    text fallback an empty body is replaced by [http.StatusText] of the
    status, and an empty body always ends in that fallback. *)
Theorem parseIntoError_cascade (UP : Unmarshaler Problem) (w : World)
    (resp : Response) (respBytes : string) :
  let code := resp_StatusCode resp in
  let e := parseIntoError w resp respBytes in
  StatusCode e = code /\
  (forall p, unmarshal (T := Problem) respBytes = Some p ->
     Message e = StatusText code /\ is_Some (WrappedErr e)) /\
  (unmarshal (T := Problem) respBytes = None ->
     forall v, unmarshal (T := any) respBytes = Some v ->
     e = mkHttpStatusError
           ("status " +:+ formatInt code +:+ ", error response: "
            +:+ w_sprintAny w v) code None) /\
  (unmarshal (T := Problem) respBytes = None ->
   unmarshal (T := any) respBytes = None ->
     e = mkHttpStatusError
           ("status: " +:+ formatInt code +:+ " "
            +:+ (if String.eqb respBytes EmptyString then StatusText code
                 else respBytes)) code None) /\
  (respBytes = EmptyString ->
     e = mkHttpStatusError
           ("status: " +:+ formatInt code +:+ " " +:+ StatusText code)
           code None).
Proof.
  cbv zeta. unfold parseIntoError.
  repeat split.
  - destruct (unmarshal (T := Problem) respBytes);
      [|destruct (unmarshal (T := any) respBytes)]; reflexivity.
  - rewrite H. reflexivity.
  - rewrite H. eauto.
  - intros HP v Hv. rewrite HP, Hv. reflexivity.
  - intros HP Hv. rewrite HP, Hv. reflexivity.
  - intros ->. rewrite !unmarshal_empty. reflexivity.
Qed.

Lemma parseIntoError_cascade_witness :
  Message (parseIntoError
             (demo.world demo.loginOk demo.forbidden demo.forbidden)
             demo.notFound EmptyString)
  = "status: 404 Not Found".
Proof.
  pose proof (parseIntoError_cascade Problem_Unmarshaler
                (demo.world demo.loginOk demo.forbidden demo.forbidden)
                demo.notFound EmptyString) as H.
  cbv zeta in H. destruct H as (_ & _ & _ & _ & H).
  rewrite (H eq_refl). reflexivity.
Defined.

(** C4.  When the body decodes as a Problem, the Status Error wraps that
    Problem and its message is [http.StatusText] of the response's status
    code.  A Problem decoded with a status [n <> 0] is wrapped as it is, so
    the wrapped status is [n]; a Problem decoded with status 0 (the field
    omitted, or zero) is wrapped with the response's status code in its
    place. *)
Theorem parseIntoError_problem_status (UP : Unmarshaler Problem) (w : World)
    (resp : Response) (respBytes : string) (p : Problem) :
  unmarshal (T := Problem) respBytes = Some p ->
  let code := resp_StatusCode resp in
  let e := parseIntoError w resp respBytes in
  Message e = StatusText code /\
  StatusCode e = code /\
  (Status p <> 0 -> WrappedErr e = Some p /\
                    (Status <$> WrappedErr e) = Some (Status p)) /\
  (Status p = 0 ->
     WrappedErr e = Some (mkProblem code (Title p) (Detail p)) /\
     (Status <$> WrappedErr e) = Some code).
Proof.
  intros Hp. cbv zeta. unfold parseIntoError. rewrite Hp.
  repeat split; cbn [WrappedErr];
    destruct (Z.eqb_spec (Status p) 0); try congruence; try reflexivity.
Qed.

Lemma parseIntoError_problem_status_witness :
  (Status <$> WrappedErr
     (parseIntoError (demo.world demo.loginOk demo.forbidden demo.forbidden)
        demo.notFound (demo.q "{'status':410,'title':'gone'}"))) = Some 410
  /\
  (Status <$> WrappedErr
     (parseIntoError (demo.world demo.loginOk demo.forbidden demo.forbidden)
        demo.notFound (demo.q "{'title':'gone'}"))) = Some 404.
Proof.
  split.
  - refine (proj2 (proj1 (proj2 (proj2
      (parseIntoError_problem_status Problem_Unmarshaler _ demo.notFound
         (demo.q "{'status':410,'title':'gone'}") (mkProblem 410 "gone" EmptyString) _)))
      _)).
    + vm_compute. reflexivity.
    + cbn. discriminate.
  - refine (proj2 (proj2 (proj2 (proj2
      (parseIntoError_problem_status Problem_Unmarshaler _ demo.notFound
         (demo.q "{'title':'gone'}") (mkProblem 0 "gone" EmptyString) _)))
      _)).
    + vm_compute. reflexivity.
    + reflexivity.
Defined.

(* --------------------------------------------------------------------- *)
(** *** Which bodies decode as a Problem *)

(** The Problem decoder accepts the objects and [null], and nothing
    else. *)
Lemma Problem_fromJSON_objectOrNull (v : json.Value) :
  is_Some (fromJSON (T := Problem) v) <-> objectOrNull v = true.
Proof.
  unfold fromJSON, Problem_Unmarshaler, problemdec.fromValue.
  destruct v; cbn [objectOrNull]; split; eauto;
    try discriminate; intros [? [=]].
Qed.

Lemma Problem_fromJSON_None (v : json.Value) :
  fromJSON (T := Problem) v = None <-> objectOrNull v = false.
Proof.
  pose proof (Problem_fromJSON_objectOrNull v) as H.
  destruct (fromJSON (T := Problem) v) as [p|]; destruct (objectOrNull v).
  - split; discriminate.
  - pose proof (proj1 H (ex_intro _ p eq_refl)). discriminate.
  - destruct (proj2 H eq_refl) as [? [=]].
  - split; reflexivity.
Qed.

Example empty_object_body :
  parseIntoError (demo.world demo.loginOk demo.forbidden demo.forbidden)
    demo.notFound "{}"
  = mkHttpStatusError "Not Found" 404 (Some (mkProblem 404 EmptyString EmptyString)).
Proof. vm_compute. reflexivity. Qed.

Example null_body :
  parseIntoError (demo.world demo.loginOk demo.forbidden demo.forbidden)
    demo.notFound "null"
  = mkHttpStatusError "Not Found" 404 (Some (mkProblem 404 EmptyString EmptyString)).
Proof. vm_compute. reflexivity. Qed.

Example array_body :
  parseIntoError (demo.world demo.loginOk demo.forbidden demo.forbidden)
    demo.notFound "[1,2]"
  = mkHttpStatusError "status 404, error response: <value>" 404 None.
Proof. vm_compute. reflexivity. Qed.

Example string_body :
  parseIntoError (demo.world demo.loginOk demo.forbidden demo.forbidden)
    demo.notFound (demo.q "'not found'")
  = mkHttpStatusError "status 404, error response: <value>" 404 None.
Proof. vm_compute. reflexivity. Qed.

Example number_body :
  parseIntoError (demo.world demo.loginOk demo.forbidden demo.forbidden)
    demo.notFound "404"
  = mkHttpStatusError "status 404, error response: <value>" 404 None.
Proof. vm_compute. reflexivity. Qed.

Example boolean_body :
  parseIntoError (demo.world demo.loginOk demo.forbidden demo.forbidden)
    demo.notFound "false"
  = mkHttpStatusError "status 404, error response: <value>" 404 None.
Proof. vm_compute. reflexivity. Qed.



(* ===================================================================== *)
(** ** [prepareHTTPRequest] *)

Lemma jsonify_jsonifies (body : Body) (headers : StringMap) :
  negb (match body with BodyNil => true | _ => false end)
  && (isNil headers || String.eqb (mapGet headers "Content-Type") EmptyString)
  = jsonifies body headers.
Proof.
  unfold jsonifies. destruct headers; reflexivity.
Qed.

(** What a successful build returns. *)
Lemma prepareHTTPRequest_ok (w : World) (cfg : Config) (method path : string)
    (body : Body) (headers : StringMap) (req : Request) (curl : option string) :
  prepareHTTPRequest w cfg method path body headers = PrepOk req curl ->
  req_Header req
    = requestHeaders w cfg method (jsonifies body headers) headers /\
  (jsonifies body headers = true ->
     w_jsonMarshal w body = inr (default EmptyString (req_Body req))
     /\ is_Some (req_Body req)) /\
  (jsonifies body headers = false ->
     match body with
     | BodyNil => req_Body req = None
     | BodyBytes b => req_Body req = Some b
     | BodyOther _ => False
     end).
Proof.
  unfold prepareHTTPRequest. rewrite !jsonify_jsonifies.
  destruct (jsonifies body headers) eqn:Hj.
  - destruct (w_jsonMarshal w body) as [e|bodyBytes]; [discriminate|].
    destruct (cutQuery path) as [p q].
    destruct (w_urlParse w (cfg_URL cfg)) as [e|uri]; [discriminate|].
    destruct (w_joinPath w (url_String uri) p) as [e|joined]; [discriminate|].
    destruct (w_newRequest w method _) as [e|u]; [discriminate|].
    intros [= <- _]. cbn. repeat split; eauto; discriminate.
  - destruct body as [|b|t]; [| |discriminate].
    all: destruct (cutQuery path) as [p q].
    all: destruct (w_urlParse w (cfg_URL cfg)) as [e|uri]; [discriminate|].
    all: destruct (w_joinPath w (url_String uri) p) as [e|joined];
      [discriminate|].
    all: destruct (w_newRequest w method _) as [e|u]; [discriminate|].
    all: intros [= <- _]; cbn; repeat split; eauto; discriminate.
Qed.



Example raw_body_is_sent_unmodified :
  exists req,
    prepareHTTPRequest (demo.world demo.loginOk demo.forbidden demo.forbidden)
      (demo.cfg "t") "POST" "objects?x=1" (BodyBytes "a,b")
      (Some [("Content-Type", "text/csv")]) = PrepOk req None
    /\ req_Body req = Some "a,b"
    /\ header.values (req_Header req) "Content-Type" = ["text/csv"]
    /\ url_String (req_URL req) = "https://tenant.example.com/objects?x=1".
Proof. eexists. split; [reflexivity|]. vm_compute. auto. Qed.

(* --------------------------------------------------------------------- *)
(** *** Header precedence *)

Lemma values_Add (k v : string) (h : Header) (name : string) :
  header.values (header.Add k v h) name
  = if String.eqb (header.CanonicalMIMEHeaderKey k) name
    then (header.values h name ++ [v])%list
    else header.values h name.
Proof.
  unfold header.Add, header.values at 1.
  destruct (String.eqb_spec (header.CanonicalMIMEHeaderKey k) name) as [->|Hne].
  - rewrite lookup_insert_eq. reflexivity.
  - rewrite lookup_insert_ne by exact Hne. reflexivity.
Qed.

(** The caller's headers are appended, in the order of iteration, after
    whatever the header already holds. *)
Lemma values_addHeaders (hs : list (string * string)) (h : Header)
    (name : string) :
  header.values (addHeaders hs h) name
  = (header.values h name ++ callerValues hs name)%list.
Proof.
  unfold addHeaders, callerValues. revert h.
  induction hs as [|[k v] hs IH]; intros h; cbn [fold_left].
  - rewrite app_nil_r. reflexivity.
  - rewrite IH, values_Add. cbn [List.filter fst snd].
    destruct (String.eqb (header.CanonicalMIMEHeaderKey k) name).
    + cbn [map snd]. rewrite <- app_assoc. reflexivity.
    + reflexivity.
Qed.

Lemma values_empty (name : string) : header.values (∅ : Header) name = [].
Proof. unfold header.values. rewrite lookup_empty. reflexivity. Qed.

Lemma mapGet_nil_or (headers : StringMap) (key : string) :
  isNil headers || String.eqb (mapGet headers key) EmptyString
  = String.eqb (mapGet headers key) EmptyString.
Proof. destruct headers; reflexivity. Qed.

(** The synthesised headers, name by name. *)
Lemma values_synthHeaders (cfg : Config) (method : string) (body : Body)
    (headers : StringMap) (name : string) :
  header.values (synthHeaders cfg method (jsonifies body headers) headers) name
  = synthesized cfg method body headers name.
Proof.
  unfold synthHeaders, synthesized. rewrite !mapGet_nil_or.
  destruct (jsonifies body headers);
    destruct (String.eqb (mapGet headers "Accept") EmptyString);
    destruct (String.eqb (mapGet headers "Authorization") EmptyString);
    rewrite ?values_Add, ?values_empty;
    change (header.CanonicalMIMEHeaderKey "Content-Type") with "Content-Type";
    change (header.CanonicalMIMEHeaderKey "Accept") with "Accept";
    change (header.CanonicalMIMEHeaderKey "Authorization") with "Authorization";
    rewrite ?(String.eqb_sym _ name);
    destruct (String.eqb_spec name "Content-Type") as [->|];
    try reflexivity;
    destruct (String.eqb_spec name "Accept") as [->|]; try reflexivity;
    destruct (String.eqb_spec name "Authorization") as [->|]; reflexivity.
Qed.

(** A caller who writes the header name in lower case does not replace the
    synthesised header: the request carries both values, the synthesised
    one first, and [Header.Get] returns the synthesised one. *)
Lemma caller_header_does_not_override :
  exists req,
    prepareHTTPRequest (demo.world demo.loginOk demo.forbidden demo.forbidden)
      (demo.cfg "t") "GET" "objects" BodyNil
      (Some [("accept", "text/plain")]) = PrepOk req None
    /\ header.values (req_Header req) "Accept"
       = ["application/json"; "text/plain"]
    /\ header.Get (req_Header req) "accept" = "application/json".
Proof. eexists. split; [reflexivity|]. vm_compute. auto. Qed.

(** C6 (amended).  In every request built by [prepareHTTPRequest] the
    values of a header name come in this order: the synthesised
    Content-Type ([application/json], or [application/merge-patch+json]
    for PATCH; only when the body is serialised as JSON), the synthesised
    [Accept: application/json] and [Authorization: Bearer <credential>]
    (each only when the caller gives no non-empty value under exactly that
    key), whatever the local-auth augmentation makes of those when the auth
    method is local, and last the caller's explicit headers, which are
    appended under their canonical names.  A caller's header stands alone,
    in place of the synthesised one, exactly when it is given under the
    key [Content-Type], [Accept] or [Authorization] as written here, with a
    non-empty value. *)
Theorem prepareHTTPRequest_header_order
    (w : World) (cfg : Config) (method path : string) (body : Body)
    (headers : StringMap) (req : Request) (curl : option string) :
  prepareHTTPRequest w cfg method path body headers = PrepOk req curl ->
  let synth := synthHeaders cfg method (jsonifies body headers) headers in
  (forall name,
     header.values synth name = synthesized cfg method body headers name) /\
  (forall name,
     header.values (req_Header req) name
     = (header.values (withLocalAuth w cfg synth) name
        ++ callerValues (entries headers) name)%list) /\
  (cfg_AuthMethod cfg <> AuthMethodLocal ->
   forall name,
     header.values (req_Header req) name
     = (synthesized cfg method body headers name
        ++ callerValues (entries headers) name)%list) /\
  (forall name,
     name = "Content-Type" \/ name = "Accept" \/ name = "Authorization" ->
     mapGet headers name <> EmptyString ->
     synthesized cfg method body headers name = []).
Proof.
  intros Hok. cbv zeta.
  destruct (prepareHTTPRequest_ok _ _ _ _ _ _ _ _ Hok) as (Hh & _ & _).
  split; [|split; [|split]].
  - intros name. apply values_synthHeaders.
  - intros name. rewrite Hh. unfold requestHeaders.
    apply values_addHeaders.
  - intros Hauth name. rewrite Hh. unfold requestHeaders.
    rewrite values_addHeaders. unfold withLocalAuth.
    destruct (String.eqb_spec (cfg_AuthMethod cfg) AuthMethodLocal);
      [contradiction|].
    rewrite values_synthHeaders. reflexivity.
  - intros name Hname Hgiven. unfold synthesized, jsonifies.
    destruct Hname as [-> | [-> | ->]]; cbn [String.eqb Ascii.eqb Bool.eqb];
      match goal with
      | Hg : mapGet headers ?k <> EmptyString |- _ =>
        destruct (String.eqb_spec (mapGet headers k) EmptyString); [contradiction|]
      end;
      rewrite ?andb_false_r; reflexivity.
Qed.

Lemma prepareHTTPRequest_header_order_witness :
  exists req,
    prepareHTTPRequest (demo.world demo.loginOk demo.forbidden demo.forbidden)
      (demo.cfg "t") "PATCH" "objects" (BodyOther "map[string]int")
      (Some [("Accept", "text/plain"); ("x-trace", "1")]) = PrepOk req None
    /\ header.values (req_Header req) "Accept" = ["text/plain"]
    /\ header.values (req_Header req) "Content-Type"
       = ["application/merge-patch+json"].
Proof.
  eexists. split; [reflexivity|].
  pose proof (prepareHTTPRequest_header_order
                (demo.world demo.loginOk demo.forbidden demo.forbidden)
                (demo.cfg "t") "PATCH" "objects" (BodyOther "map[string]int")
                (Some [("Accept", "text/plain"); ("x-trace", "1")])
                _ None eq_refl) as Hh.
  cbv zeta in Hh. destruct Hh as (_ & _ & Hh & _).
  split; rewrite Hh by (cbn; discriminate); reflexivity.
Defined.

(* ===================================================================== *)
(** ** [httpRequest]: running the body statement by statement *)

Lemma count_rev (f : Event -> bool) (tr : list Event) :
  count f (rev tr) = count f tr.
Proof.
  unfold count. induction tr as [|ev tr IH]; [reflexivity|].
  cbn [rev List.filter]. rewrite List.filter_app, length_app, IH.
  cbn [List.filter]. destruct (f ev); cbn [length]; lia.
Qed.

Lemma happened_rev (f : Event -> bool) (tr : list Event) :
  happened f (rev tr) = happened f tr.
Proof.
  unfold happened. induction tr as [|ev tr IH]; [reflexivity|].
  cbn [rev existsb]. rewrite existsb_app, IH. cbn [existsb].
  rewrite orb_false_r. apply orb_comm.
Qed.

Section Post.
Context {T A : Type}.
Variables (s : State T) (Q : A -> State T -> Prop)
          (R : Completion -> State T -> Prop).

Lemma post_bind {B} (m : M T B) (k : B -> M T A) :
  post m s (fun b s' => post (k b) s' Q R) R -> post (bind m k) s Q R.
Proof. unfold post, bind. destruct (m s); auto. Qed.

Lemma post_ret (a : A) : Q a s -> post (ret a) s Q R.
Proof. auto. Qed.

Lemma post_returnErr (e : Error) :
  R (Returned (Some e)) s -> post (returnErr e) s Q R.
Proof. auto. Qed.

Lemma post_returnNil : R (Returned None) s -> post returnNil s Q R.
Proof. auto. Qed.

Lemma post_fatal : R ProcessExit s -> post fatal s Q R.
Proof. auto. Qed.
End Post.

Section PostUnit.
Context {T : Type}.
Variables (s : State T) (Q : unit -> State T -> Prop)
          (R : Completion -> State T -> Prop).

Lemma post_emit (ev : Event) :
  Q tt (mkState (st_cfg s) (st_options s) (st_out s) (st_file s)
                (ev :: st_events s)) ->
  post (emit ev) s Q R.
Proof. auto. Qed.

Lemma post_emitOpt (ev : option Event) :
  Q tt (mkState (st_cfg s) (st_options s) (st_out s) (st_file s)
                (consOpt ev (st_events s))) ->
  post (emitOpt ev) s Q R.
Proof. auto. Qed.

Lemma post_setCfg (cfg : Config) :
  Q tt (mkState cfg (st_options s) (st_out s) (st_file s) (st_events s)) ->
  post (setCfg cfg) s Q R.
Proof. auto. Qed.

Lemma post_setOut (v : T) :
  Q tt (mkState (st_cfg s) (st_options s) (Some v) (st_file s)
                (st_events s)) ->
  post (setOut v) s Q R.
Proof. auto. Qed.

Lemma post_setFile (name data : string) :
  Q tt (mkState (st_cfg s) (st_options s) (st_out s) (Some (name, data))
                (st_events s)) ->
  post (setFile name data) s Q R.
Proof. auto. Qed.

Lemma post_setResponseHeaders (h : option Header) :
  Q tt (mkState (st_cfg s)
          (mkOptions (Headers (st_options s)) h
                     (ExpectedErrors (st_options s)) (Quiet (st_options s))
                     (Context (st_options s)))
          (st_out s) (st_file s) (st_events s)) ->
  post (setResponseHeaders h) s Q R.
Proof. auto. Qed.

Lemma post_when (b : bool) (m : M T unit) :
  (b = true -> post m s Q R) -> (b = false -> Q tt s) ->
  post (when b m) s Q R.
Proof. destruct b; cbn; auto. Qed.
End PostUnit.

Lemma post_getCfg {T} (s : State T) (Q : Config -> State T -> Prop)
    (R : Completion -> State T -> Prop) :
  Q (st_cfg s) s -> post getCfg s Q R.
Proof. auto. Qed.

(** A property of the result of a call follows from the same property at
    every way of leaving the body. *)
Lemma httpRequest_post {T} `{Unmarshaler Problem} `{Unmarshaler T}
    (w : World) (method path : string) (body : Body)
    (options : option Options) (P : Result T -> Prop) :
  post (httpRequestBody w method path body
          (match options with None => emptyOptions | Some o => o end))
       (mkState (w_cfg w)
          (match options with None => emptyOptions | Some o => o end)
          None None [])
       (fun _ s => P (resultOf options (Returned None) s))
       (fun c s => P (resultOf options c s)) ->
  P (httpRequest w method path body options).
Proof.
  unfold post, httpRequest. cbv zeta.
  destruct (httpRequestBody _ _ _ _ _ _); auto.
Qed.

(** One statement of the body. *)
Ltac step :=
  cbv beta;
  cbn [st_cfg st_options st_out st_file st_events fst snd];
  lazymatch goal with
  | |- post (bind _ _) _ _ _ => apply post_bind
  | |- post (ret _) _ _ _ => apply post_ret
  | |- post (emit _) _ _ _ => apply post_emit
  | |- post (emitOpt _) _ _ _ => apply post_emitOpt
  | |- post getCfg _ _ _ => apply post_getCfg
  | |- post (setCfg _) _ _ _ => apply post_setCfg
  | |- post (setOut _) _ _ _ => apply post_setOut
  | |- post (setFile _ _) _ _ _ => apply post_setFile
  | |- post (setResponseHeaders _) _ _ _ => apply post_setResponseHeaders
  | |- post (returnErr _) _ _ _ => apply post_returnErr
  | |- post returnNil _ _ _ => apply post_returnNil
  | |- post fatal _ _ _ => apply post_fatal
  | |- post (when _ _) _ _ _ => apply post_when; intros ?
  | |- post (login _ _) _ _ _ => unfold login
  | |- post (prepare _ _ _ _ _ _) _ _ _ => unfold prepare
  | |- post (doAndRead _ _ _ _) _ _ _ => unfold doAndRead
  | |- post (httpRequestBody _ _ _ _ _) _ _ _ => unfold httpRequestBody
  | |- post (match ?x with _ => _ end) _ _ _ => destruct x eqn:?
  end.

Ltac run_call :=
  cbv zeta;
  lazymatch goal with
  | |- context [@httpRequest ?T ?UP ?UT ?w ?m ?p ?b ?o] =>
    pattern (@httpRequest T UP UT w m p b o)
  end;
  apply httpRequest_post; repeat step.

(** At the end of a path: evaluate the observations on the trace. *)
Ltac observe :=
  repeat match goal with
  | |- context [option_map _ ?c] => is_var c; destruct c
  end;
  cbv beta iota delta
      [option_map consOpt resultOf deferred
       st_cfg st_options st_out st_file st_events
       r_completion r_out r_file r_options r_trace
       returnedError returnsStatusError isStatusError
       rev app count happened existsb List.filter length populated
       isRefreshLogin isRefreshOk isRefreshFailed isPrepared isSend isRetry
       isResponse isResponseAny isBodyRead isUnmarshalOut isWriteFile
       isDecode isSuccessStop Nat.eqb andb orb].

(** Facts gathered along a path, in a form that can be used: boolean
    tests as equations between their operands. *)
Ltac bool_facts :=
  unfold StatusForbidden in *;
  repeat match goal with
  | H : true = true |- _ => clear H
  | H : false = false |- _ => clear H
  | H : negb _ = true |- _ => apply negb_true_iff in H
  | H : negb _ = false |- _ => apply negb_false_iff in H
  | H : _ && _ = true |- _ =>
    let H' := fresh in apply andb_true_iff in H; destruct H as [H H']
  | H : _ && _ = false |- _ => apply andb_false_iff in H; destruct H as [H|H]
  | H : (_ =? _)%string = true |- _ => apply String.eqb_eq in H
  | H : (_ =? _)%string = false |- _ => apply String.eqb_neq in H
  | H : context [if ?b then _ else _] |- _ => destruct b eqn:?
  end.

Ltac eval_consts :=
  repeat match goal with
  | |- context [Z.eqb (Zpos ?a) (Zpos ?b)] =>
    let v := eval vm_compute in (Z.eqb (Zpos a) (Zpos b)) in
    change (Z.eqb (Zpos a) (Zpos b)) with v
  | |- context [Z.quot (Zpos ?a) (Zpos ?b)] =>
    let v := eval vm_compute in (Z.quot (Zpos a) (Zpos b)) in
    change (Z.quot (Zpos a) (Zpos b)) with v
  | H : context [Z.eqb (Zpos ?a) (Zpos ?b)] |- _ =>
    let v := eval vm_compute in (Z.eqb (Zpos a) (Zpos b)) in
    change (Z.eqb (Zpos a) (Zpos b)) with v in H
  | H : context [Z.quot (Zpos ?a) (Zpos ?b)] |- _ =>
    let v := eval vm_compute in (Z.quot (Zpos a) (Zpos b)) in
    change (Z.quot (Zpos a) (Zpos b)) with v in H
  end.

(** Use what is known of the status codes: a status known to equal a
    constant is replaced by it, the other tests are rewritten with their
    outcome. *)
Ltac status_facts :=
  repeat match goal with
  | H : (resp_StatusCode ?r =? ?c) = true |- _ =>
    apply Z.eqb_eq in H; rewrite ?H in *
  end;
  eval_consts;
  repeat match goal with
  | H : (?a =? ?b) = false |- context [?a =? ?b] => rewrite H
  end;
  cbv beta iota.

Ltac finish :=
  intros; bool_facts; status_facts;
  try discriminate; try contradiction; try congruence; try reflexivity.

Lemma parseIntoError_StatusCode `{Unmarshaler Problem} (w : World)
    (resp : Response) (respBytes : string) :
  StatusCode (parseIntoError w resp respBytes) = resp_StatusCode resp.
Proof.
  unfold parseIntoError.
  destruct (unmarshal (T := Problem) respBytes);
    [|destruct (unmarshal (T := any) respBytes)]; reflexivity.
Qed.

(* ===================================================================== *)
(** ** The refresh-and-retry cycle *)

(** The first attempt is answered with 403 and the login that should
    refresh the credential fails: one refresh is attempted, no retry is
    sent, and the call returns the wrapped login error. *)
Lemma refresh_failure_sends_no_retry :
  let r := httpRequest (T := any)
             (demo.world demo.loginFails demo.forbidden demo.forbidden)
             "GET" "objects" BodyNil None in
  happened (isResponse 1 403) (r_trace r) = true /\
  count isRefreshLogin (r_trace r) = 1%nat /\
  count isRetry (r_trace r) = 0%nat /\
  r_completion r
  = Returned (Some (ErrLoginFailed "login: invalid credentials")).
Proof. vm_compute. auto. Qed.

(** C1 (amended).  When the first attempt's response has status 403 and its
    body has been read, [httpRequest] attempts exactly one credential
    refresh.  If that login succeeds and the request is rebuilt, exactly
    one retry is sent (two requests in all); if the login fails, no retry
    is sent and the wrapped login error is returned; in no case is there
    more than one refresh or more than one retry.  If the retried attempt's
    response, once read, has status 403 too, that second 403 is returned as
    a Status Error, with still one refresh and two requests. *)
Theorem httpRequest_refresh_once {T} `{Unmarshaler Problem} `{Unmarshaler T}
    (w : World) (method path : string) (body : Body)
    (options : option Options) :
  let r := httpRequest (T := T) w method path body options in
  happened (isResponse 1 403) (r_trace r) = true ->
  happened (isBodyRead 1) (r_trace r) = true ->
  count isRefreshLogin (r_trace r) = 1%nat /\
  (count isRetry (r_trace r) <= 1)%nat /\
  (count isSend (r_trace r) <= 2)%nat /\
  (happened isRefreshOk (r_trace r) = true ->
   happened (isPrepared 2) (r_trace r) = true ->
     count isRetry (r_trace r) = 1%nat /\
     count isSend (r_trace r) = 2%nat) /\
  (happened isRefreshFailed (r_trace r) = true ->
     count isRetry (r_trace r) = 0%nat /\
     exists e, r_completion r = Returned (Some (ErrLoginFailed e))) /\
  (happened (isResponse 2 403) (r_trace r) = true ->
   happened (isBodyRead 2) (r_trace r) = true ->
     exists se,
       r_completion r = Returned (Some (ErrStatus se)) /\
       StatusCode se = 403 /\
       count isRefreshLogin (r_trace r) = 1%nat /\
       count isSend (r_trace r) = 2%nat).
Proof.
  run_call.
  all: observe.
  all: finish.
  all: repeat split; finish; try lia.
  all: try (eexists; reflexivity).
  all: try (eexists; split; [reflexivity|]; split; [|split; reflexivity];
            rewrite parseIntoError_StatusCode; assumption).
Qed.

Lemma httpRequest_refresh_once_witness :
  let r := httpRequest (T := any)
             (demo.world demo.loginOk demo.forbidden
                (demo.response 200 "application/json" (demo.q "{'ok':true}")))
             "GET" "objects" BodyNil None in
  count isRefreshLogin (r_trace r) = 1%nat /\
  count isRetry (r_trace r) = 1%nat /\
  count isSend (r_trace r) = 2%nat.
Proof.
  pose proof (httpRequest_refresh_once (T := any)
                (demo.world demo.loginOk demo.forbidden
                   (demo.response 200 "application/json" (demo.q "{'ok':true}")))
                "GET" "objects" BodyNil None) as Hc.
  cbv zeta in Hc.
  destruct (Hc ltac:(vm_compute; reflexivity) ltac:(vm_compute; reflexivity))
    as (Hone & _ & _ & Hretry & _).
  destruct (Hretry ltac:(vm_compute; reflexivity)
                   ltac:(vm_compute; reflexivity)) as (Hr1 & Hr2).
  cbv zeta. auto.
Defined.

Example second_forbidden_is_returned :
  let r := httpRequest (T := any)
             (demo.world demo.loginOk demo.forbidden
                (demo.response 403 "application/json" (demo.q "{'title':'denied'}")))
             "GET" "objects" BodyNil None in
  r_completion r
  = Returned (Some (ErrStatus
      (mkHttpStatusError "Forbidden" 403 (Some (mkProblem 403 "denied" EmptyString)))))
  /\ count isLogin (r_trace r) = 1%nat
  /\ count isSend (r_trace r) = 2%nat.
Proof. vm_compute. auto. Qed.

(* ===================================================================== *)
(** ** Outcome of a call *)




(* ===================================================================== *)
(** ** Status 303 *)

(** C7.  When a response of the call has status exactly 303, the call does
    not produce a Status Error and the response body is never JSON-decoded,
    neither into the caller's output (which stays untouched) nor by the
    error classifier, whatever the body holds.  Once the body of that
    response has been read, the call is classified as a success: the
    spinner is stopped in its success state. *)
Theorem httpRequest_see_other {T} `{Unmarshaler Problem} `{Unmarshaler T}
    (w : World) (method path : string) (body : Body)
    (options : option Options) :
  let r := httpRequest (T := T) w method path body options in
  happened (isResponseAny 303) (r_trace r) = true ->
  returnsStatusError r = false /\
  count isDecode (r_trace r) = 0%nat /\
  r_out r = None /\
  (happened (isResponse 1 303) (r_trace r) = true ->
   happened (isBodyRead 1) (r_trace r) = true ->
     happened isSuccessStop (r_trace r) = true) /\
  (happened (isResponse 2 303) (r_trace r) = true ->
   happened (isBodyRead 2) (r_trace r) = true ->
     happened isSuccessStop (r_trace r) = true).
Proof.
  run_call.
  all: observe.
  all: finish.
  all: repeat split; finish.
Qed.

Lemma httpRequest_see_other_witness :
  let r := httpRequest (T := any)
             (demo.world demo.loginOk
                (demo.response 303 "text/html" "<html>moved</html>")
                demo.forbidden)
             "PUT" "objects/a" (BodyOther "map[string]string") None in
  returnsStatusError r = false /\ count isDecode (r_trace r) = 0%nat.
Proof.
  pose proof (httpRequest_see_other (T := any)
                (demo.world demo.loginOk
                   (demo.response 303 "text/html" "<html>moved</html>")
                   demo.forbidden)
                "PUT" "objects/a" (BodyOther "map[string]string") None) as Hc.
  cbv zeta in Hc.
  destruct (Hc ltac:(vm_compute; reflexivity)) as (Hs & Hd & _).
  cbv zeta. auto.
Defined.

Example see_other_returns_nil :
  let r := httpRequest (T := any)
             (demo.world demo.loginOk
                (demo.response 303 "text/html" "<html>moved</html>")
                demo.forbidden)
             "PUT" "objects/a" (BodyOther "map[string]string") None in
  r_completion r = Returned None /\ r_out r = None.
Proof. vm_compute. auto. Qed.

(* ===================================================================== *)
(** ** Nil options *)

(** C10.  Every public verb accepts a nil [options]: [httpRequest] replaces
    it by a fresh empty [Options], so that the call completes, decodes,
    writes and behaves (same events in the same order) exactly as the call
    made with [&Options{}]; and the caller, who holds no [Options], sees
    none of the response headers written back. *)
Theorem nil_options_as_empty {T} `{Unmarshaler Problem} `{Unmarshaler T}
    (w : World) (method path : string) (body : Body) (bytes : string) :
  let same (r0 r1 : Result T) :=
    r_completion r0 = r_completion r1 /\ r_out r0 = r_out r1 /\
    r_file r0 = r_file r1 /\ r_trace r0 = r_trace r1 /\
    r_options r0 = None in
  same (httpRequest w method path body None)
       (httpRequest w method path body (Some emptyOptions)) /\
  same (JSONGet w path None) (JSONGet w path (Some emptyOptions)) /\
  same (JSONDelete w path None) (JSONDelete w path (Some emptyOptions)) /\
  same (JSONPost w path body None) (JSONPost w path body (Some emptyOptions)) /\
  same (HTTPPost w path bytes None) (HTTPPost w path bytes (Some emptyOptions)) /\
  same (HTTPGet w path None) (HTTPGet w path (Some emptyOptions)) /\
  same (JSONPut w path body None) (JSONPut w path body (Some emptyOptions)) /\
  same (JSONPatch w path body None)
       (JSONPatch w path body (Some emptyOptions)) /\
  same (JSONRequest w method path body None)
       (JSONRequest w method path body (Some emptyOptions)).
Proof.
  assert (Hsame : forall m b,
            r_completion (httpRequest (T := T) w m path b None)
            = r_completion (httpRequest (T := T) w m path b (Some emptyOptions)) /\
            r_out (httpRequest (T := T) w m path b None)
            = r_out (httpRequest (T := T) w m path b (Some emptyOptions)) /\
            r_file (httpRequest (T := T) w m path b None)
            = r_file (httpRequest (T := T) w m path b (Some emptyOptions)) /\
            r_trace (httpRequest (T := T) w m path b None)
            = r_trace (httpRequest (T := T) w m path b (Some emptyOptions)) /\
            r_options (httpRequest (T := T) w m path b None) = None).
  { intros m b. unfold httpRequest. cbv zeta.
    destruct (httpRequestBody w m path b emptyOptions _); cbn; auto. }
  cbv zeta.
  unfold JSONGet, JSONDelete, JSONPost, HTTPPost, HTTPGet, JSONPut, JSONPatch,
    JSONRequest.
  repeat split; apply Hsame.
Qed.

Example nil_options_hide_response_headers :
  let w := demo.world demo.loginOk
             (demo.response 200 "application/json" "{}") demo.forbidden in
  r_options (JSONGet (T := any) w "objects" None) = None /\
  (ResponseHeaders <$> r_options (JSONGet (T := any) w "objects"
                                     (Some emptyOptions)))
  = Some (Some {[ "Content-Type" := ["application/json"] ]}).
Proof. vm_compute. auto. Qed.

(* ===================================================================== *)
(** * The solution manifest *)

(** ** Searching and splitting strings *)

Lemma indexFrom_find (s substr : string) (i : Z) :
  strings.indexFrom i s substr
  = match strings.find s substr with
    | Some k => i + Z.of_nat k
    | None => -1
    end.
Proof.
  revert i. induction s as [|c t IH]; intros i; cbn [strings.indexFrom strings.find].
  - destruct (String.prefix substr EmptyString); [lia | reflexivity].
  - destruct (String.prefix substr (String c t)); [lia|].
    rewrite IH. destruct (strings.find t substr); cbn [option_map]; lia.
Qed.

Lemma Index_find (s substr : string) :
  strings.Index s substr
  = match strings.find s substr with
    | Some k => Z.of_nat k
    | None => -1
    end.
Proof. unfold strings.Index. rewrite indexFrom_find. destruct (strings.find _ _); lia. Qed.

Lemma Contains_find (s substr : string) :
  strings.Contains s substr = bool_decide (is_Some (strings.find s substr)).
Proof.
  unfold strings.Contains. rewrite Index_find.
  destruct (strings.find s substr) as [k|].
  - rewrite bool_decide_eq_true_2 by eauto. apply Z.leb_le. lia.
  - rewrite bool_decide_eq_false_2 by (intros [? [=]]). reflexivity.
Qed.

Lemma str_length_append (a b : string) :
  String.length (a +:+ b) = (String.length a + String.length b)%nat.
Proof.
  induction a as [|c a IH]; rewrite ?append_cons, ?append_nil;
    cbn [String.length Nat.add]; [reflexivity | f_equal; exact IH].
Qed.

Lemma str_append_assoc (a b c : string) : (a +:+ b) +:+ c = a +:+ (b +:+ c).
Proof.
  induction a as [|d a IH]; rewrite ?append_cons, ?append_nil;
    [reflexivity | f_equal; exact IH].
Qed.

Lemma prefix_append (a b : string) : String.prefix a (a +:+ b) = true.
Proof.
  induction a as [|c a IH]; rewrite ?append_cons, ?append_nil.
  - destruct b; reflexivity.
  - cbn [String.prefix]. destruct (ascii_dec c c); [exact IH | contradiction].
Qed.

Lemma prefix_split (a s : string) :
  String.prefix a s = true ->
  s = a +:+ sliceFrom (String.length a) s.
Proof.
  revert s. induction a as [|c a IH]; intros s H.
  - reflexivity.
  - destruct s as [|d s]; cbn in H; [discriminate|].
    destruct (ascii_dec c d) as [->|]; [|discriminate].
    rewrite append_cons. cbn [String.length sliceFrom]. f_equal. apply IH, H.
Qed.

Lemma prefix_sliceTo (a s : string) (n : nat) :
  String.prefix a (strings.sliceTo n s) = true -> String.prefix a s = true.
Proof.
  revert s n. induction a as [|c a IH]; intros s n H.
  - destruct s; reflexivity.
  - destruct n as [|n], s as [|d s]; cbn in H; try discriminate.
    cbn. destruct (ascii_dec c d); [|discriminate]. eapply IH, H.
Qed.

Lemma prefix_empty (a : string) :
  a <> EmptyString -> String.prefix a EmptyString = false.
Proof. destruct a; [contradiction | reflexivity]. Qed.

(** The first occurrence: where it is, what is around it, and that there is
    none before it. *)
Lemma find_Some (s substr : string) (k : nat) :
  substr <> EmptyString ->
  strings.find s substr = Some k ->
  s = strings.sliceTo k s +:+ substr
      +:+ sliceFrom (k + String.length substr) s
  /\ strings.find (strings.sliceTo k s) substr = None
  /\ (k + String.length substr <= String.length s)%nat.
Proof.
  intros Hne. revert k. induction s as [|c t IH]; intros k; cbn [strings.find].
  - rewrite prefix_empty by assumption. discriminate.
  - destruct (String.prefix substr (String c t)) eqn:Hp.
    + intros [= <-]. cbn [strings.sliceTo Nat.add]. rewrite append_nil.
      split; [apply prefix_split, Hp|]. split.
      * cbn [strings.find]. rewrite prefix_empty by assumption. reflexivity.
      * pose proof (f_equal String.length (prefix_split _ _ Hp)) as Hl.
        rewrite str_length_append in Hl. lia.
    + destruct (strings.find t substr) as [k'|] eqn:Hf; [|discriminate].
      intros [= <-]. destruct (IH k' eq_refl) as (Heq & Hnone & Hlen).
      cbn [strings.sliceTo Nat.add sliceFrom String.length].
      rewrite append_cons.
      split; [f_equal; exact Heq|]. split; [|lia].
      cbn [strings.find].
      destruct (String.prefix substr (String c (strings.sliceTo k' t))) eqn:Hp'.
      * apply (prefix_sliceTo substr (String c t) (S k')) in Hp'. congruence.
      * rewrite Hnone. reflexivity.
Qed.

Lemma sliceTo_append (a b : string) :
  strings.sliceTo (String.length a) (a +:+ b) = a.
Proof.
  induction a as [|c a IH]; rewrite ?append_cons, ?append_nil;
    cbn [String.length strings.sliceTo];
    [destruct b; reflexivity | f_equal; exact IH].
Qed.

Lemma sliceFrom_length_le (n : nat) (s : string) :
  (String.length (sliceFrom n s) <= String.length s - n)%nat.
Proof.
  revert s. induction n as [|n IH]; intros s; cbn.
  - lia.
  - destruct s as [|c s]; cbn; [lia | apply IH].
Qed.

(** The fuel of the splitting loop does not matter once it covers the
    length of the string. *)
Lemma splitLoop_fuel (sep : string) (n : nat) :
  sep <> EmptyString ->
  forall (fuel1 fuel2 : nat) (s : string),
    (String.length s <= n)%nat -> (n <= fuel1)%nat -> (n <= fuel2)%nat ->
    strings.splitLoop fuel1 s sep = strings.splitLoop fuel2 s sep.
Proof.
  intros Hne. induction n as [|n IH]; intros fuel1 fuel2 s Hs H1 H2.
  - destruct s; [|cbn in Hs; lia].
    assert (Hidx : strings.Index EmptyString sep = -1).
    { rewrite Index_find. cbn [strings.find].
      rewrite prefix_empty by assumption. reflexivity. }
    destruct fuel1, fuel2; cbn [strings.splitLoop]; rewrite ?Hidx; reflexivity.
  - destruct fuel1 as [|f1]; [lia|]. destruct fuel2 as [|f2]; [lia|].
    cbn [strings.splitLoop]. rewrite Index_find.
    destruct (strings.find s sep) as [k|] eqn:Hf; [|reflexivity].
    destruct (Z.ltb_spec (Z.of_nat k) 0); [lia|].
    f_equal. rewrite Nat2Z.id. apply IH; try lia.
    pose proof (sliceFrom_length_le (k + String.length sep) s).
    destruct sep; [contradiction|]. cbn [String.length] in *. lia.
Qed.

(** One step of [Split]. *)
Lemma Split_step (s sep : string) :
  sep <> EmptyString ->
  strings.Split s sep
  = match strings.find s sep with
    | Some k =>
      strings.sliceTo k s
      :: strings.Split (sliceFrom (k + String.length sep) s) sep
    | None => [s]
    end.
Proof.
  intros Hne. unfold strings.Split.
  destruct (strings.find s sep) as [k|] eqn:Hf.
  - destruct (find_Some s sep k Hne Hf) as (_ & _ & Hlen).
    destruct (String.length s) as [|n] eqn:Hn.
    { destruct sep; [contradiction|]. cbn [String.length] in Hlen. lia. }
    cbn [strings.splitLoop]. rewrite Index_find, Hf.
    destruct (Z.ltb_spec (Z.of_nat k) 0); [lia|]. rewrite Nat2Z.id. f_equal.
    apply (splitLoop_fuel sep
             (String.length (sliceFrom (k + String.length sep) s)) Hne);
      try lia.
    pose proof (sliceFrom_length_le (k + String.length sep) s).
    destruct sep; [contradiction|]. cbn [String.length] in *. lia.
  - destruct (String.length s); cbn [strings.splitLoop]; [reflexivity|].
    rewrite Index_find, Hf. reflexivity.
Qed.

(** In front of a one-byte separator that it does not hold, a string is
    the first element of the split. *)
Lemma find_char_append (a b : string) (c : ascii) :
  strings.find a (String c EmptyString) = None ->
  strings.find (a +:+ String c b) (String c EmptyString)
  = Some (String.length a).
Proof.
  induction a as [|d a IH]; rewrite ?append_cons, ?append_nil;
    cbn [strings.find String.length].
  - intros _. cbn [String.prefix]. destruct (ascii_dec c c); [|contradiction].
    destruct b; reflexivity.
  - cbn [String.prefix]. destruct (ascii_dec c d) as [->|Hcd].
    + destruct a; discriminate.
    + destruct (strings.find a (String c EmptyString)) eqn:Hf; [discriminate|].
      intros _. rewrite IH by reflexivity. reflexivity.
Qed.

Lemma Split_char_append (a b : string) (c : ascii) :
  strings.Contains a (String c EmptyString) = false ->
  strings.Split (a +:+ String c b) (String c EmptyString)
  = a :: strings.Split b (String c EmptyString).
Proof.
  intros Hno. rewrite Contains_find in Hno.
  apply bool_decide_eq_false_1 in Hno.
  assert (Hf : strings.find a (String c EmptyString) = None).
  { destruct (strings.find a _); [exfalso; eauto | reflexivity]. }
  rewrite Split_step by discriminate.
  rewrite (find_char_append a b c Hf).
  rewrite sliceTo_append.
  change (String c b) with (String c EmptyString +:+ b).
  replace (String.length a + String.length (String c EmptyString))%nat
    with (String.length (a +:+ String c EmptyString)).
  2:{ rewrite str_length_append. reflexivity. }
  rewrite <- str_append_assoc, sliceFrom_append. reflexivity.
Qed.

Lemma Split_none (s sep : string) :
  sep <> EmptyString ->
  strings.Contains s sep = false -> strings.Split s sep = [s].
Proof.
  intros Hne Hno. rewrite Contains_find in Hno.
  apply bool_decide_eq_false_1 in Hno.
  rewrite Split_step by assumption.
  destruct (strings.find s sep); [exfalso; eauto | reflexivity].
Qed.

Example Split_type_name :
  strings.Split "fmm:entity" ":" = ["fmm"; "entity"]
  /\ strings.Split "a:b:c" ":" = ["a"; "b"; "c"]
  /\ strings.Split EmptyString ":" = [EmptyString]
  /\ strings.Split "acme${$toSuffix(env.name)}" "${"
     = ["acme"; "$toSuffix(env.name)}"].
Proof. vm_compute. auto. Qed.

Lemma Split_nonempty (s sep : string) :
  sep <> EmptyString -> strings.Split s sep <> [].
Proof.
  intros Hne. rewrite Split_step by assumption.
  destruct (strings.find s sep); discriminate.
Qed.

(* --------------------------------------------------------------------- *)
(** ** Names *)

Example names_of_isolated_manifest :
  let m := solution.manifestOf "acme${$toSuffix(env.name)}" [] [] in
  solution.HasPseudoIsolation m = true
  /\ solution.GetSolutionName m = "acme"
  /\ solution.GetNamespaceName m = "${sys.solutionId}".
Proof. vm_compute. auto. Qed.

(** X1.  [GetSolutionName] returns the part of the manifest's name that
    precedes its first ["${"]: the result never contains ["${"]; without
    pseudo-isolation the solution name and the namespace name are the name
    itself; with it, the name is the solution name followed by ["${"] and
    the rest, and the namespace name is the placeholder
    ["${sys.solutionId}"]. *)
Theorem GetSolutionName_before_isolation (m : solution.Manifest) :
  strings.Contains (solution.GetSolutionName m) "${" = false /\
  (solution.HasPseudoIsolation m = false ->
     solution.GetSolutionName m = solution.Name m /\
     solution.GetNamespaceName m = solution.Name m) /\
  (solution.HasPseudoIsolation m = true ->
     solution.GetNamespaceName m = "${sys.solutionId}" /\
     exists rest,
       solution.Name m = solution.GetSolutionName m +:+ "${" +:+ rest).
Proof.
  unfold solution.GetSolutionName, solution.GetNamespaceName,
    solution.HasPseudoIsolation.
  destruct (strings.Contains (solution.Name m) "${") eqn:Hc.
  - rewrite Split_step by discriminate.
    rewrite Contains_find in Hc. apply bool_decide_eq_true_1 in Hc.
    destruct Hc as [k Hf]. rewrite Hf.
    destruct (find_Some (solution.Name m) "${" k ltac:(discriminate) Hf)
      as (Heq & Hnone & _).
    split; [|split; [intros [=]|]].
    + rewrite Contains_find, Hnone.
      apply bool_decide_eq_false_2. intros [? [=]].
    + intros _. split; [reflexivity|]. eexists. exact Heq.
  - split; [exact Hc|]. split; [auto | intros [=]].
Qed.

Lemma GetSolutionName_before_isolation_witness :
  solution.GetSolutionName (solution.manifestOf "acme" [] []) = "acme"
  /\ exists rest,
       "spacefleet${$toSuffix(env.name)}"
       = solution.GetSolutionName
           (solution.manifestOf "spacefleet${$toSuffix(env.name)}" [] [])
         +:+ "${" +:+ rest.
Proof.
  split.
  - apply (proj1 (proj2 (GetSolutionName_before_isolation
                           (solution.manifestOf "acme" [] [])))).
    reflexivity.
  - apply (proj2 (proj2 (GetSolutionName_before_isolation
             (solution.manifestOf "spacefleet${$toSuffix(env.name)}" [] [])))).
    reflexivity.
Defined.

(* --------------------------------------------------------------------- *)
(** ** Dependencies *)

Lemma check_fold (n : string) (deps : list string) (acc : bool) :
  fold_left (fun hasDependency d =>
               if String.eqb d n then true else hasDependency) deps acc
  = acc || existsb (fun d => String.eqb d n) deps.
Proof.
  revert acc. induction deps as [|d deps IH]; intros acc; cbn [fold_left existsb].
  - rewrite orb_false_r. reflexivity.
  - rewrite IH. destruct (String.eqb d n), acc; reflexivity.
Qed.

Lemma CheckDependencyExists_existsb (m : solution.Manifest) (n : string) :
  solution.CheckDependencyExists m n
  = existsb (fun d => String.eqb d n) (solution.Dependencies m).
Proof. unfold solution.CheckDependencyExists. apply check_fold. Qed.

(** X2.  [CheckDependencyExists] decides membership in the list of
    dependencies: it answers true exactly when the name is one of them. *)
Theorem CheckDependencyExists_In (m : solution.Manifest) (n : string) :
  solution.CheckDependencyExists m n = true <-> In n (solution.Dependencies m).
Proof.
  rewrite CheckDependencyExists_existsb, existsb_exists. split.
  - intros (d & Hin & Heq). apply String.eqb_eq in Heq. congruence.
  - intros Hin. exists n. split; [exact Hin | apply String.eqb_refl].
Qed.

Lemma CheckDependencyExists_In_witness :
  solution.CheckDependencyExists
    (solution.manifestOf "acme" ["spacefleet"; "k8s"] []) "k8s" = true.
Proof.
  apply (proj2 (CheckDependencyExists_In
                  (solution.manifestOf "acme" ["spacefleet"; "k8s"] []) "k8s")).
  cbn. auto.
Defined.

Lemma Dependencies_AppendDependency (m : solution.Manifest) (n : string) :
  solution.Dependencies (solution.AppendDependency m n)
  = if solution.CheckDependencyExists m n then solution.Dependencies m
    else (solution.Dependencies m ++ [n])%list.
Proof.
  unfold solution.AppendDependency.
  destruct (solution.CheckDependencyExists m n); reflexivity.
Qed.

Lemma CheckDependencyExists_AppendDependency (m : solution.Manifest)
    (n : string) :
  solution.CheckDependencyExists (solution.AppendDependency m n) n = true.
Proof.
  rewrite CheckDependencyExists_existsb, Dependencies_AppendDependency.
  rewrite CheckDependencyExists_existsb.
  destruct (existsb _ (solution.Dependencies m)) eqn:He; [exact He|].
  rewrite existsb_app. cbn. rewrite String.eqb_refl. apply orb_true_r.
Qed.

(** X3.  After [AppendDependency(n)] the manifest depends on [n], the
    answer of [CheckDependencyExists] for every other name is what it was,
    and the dependencies that were there stay in front, in their order: the
    list is either unchanged or has [n] appended. *)
Theorem AppendDependency_adds (m : solution.Manifest) (n : string) :
  let m' := solution.AppendDependency m n in
  solution.CheckDependencyExists m' n = true /\
  (forall other, other <> n ->
     solution.CheckDependencyExists m' other
     = solution.CheckDependencyExists m other) /\
  (solution.Dependencies m' = solution.Dependencies m \/
   solution.Dependencies m' = (solution.Dependencies m ++ [n])%list) /\
  solution.Name m' = solution.Name m /\
  solution.Objects m' = solution.Objects m.
Proof.
  cbv zeta.
  split; [|split; [|split; [|split]]].
  - apply CheckDependencyExists_AppendDependency.
  - intros other Hne.
    rewrite !CheckDependencyExists_existsb, Dependencies_AppendDependency.
    destruct (solution.CheckDependencyExists m n); [reflexivity|].
    rewrite existsb_app. cbn.
    destruct (String.eqb_spec n other); [congruence|].
    rewrite !orb_false_r. reflexivity.
  - rewrite Dependencies_AppendDependency.
    destruct (solution.CheckDependencyExists m n); auto.
  - unfold solution.AppendDependency. destruct (negb _); reflexivity.
  - unfold solution.AppendDependency. destruct (negb _); reflexivity.
Qed.

Lemma AppendDependency_adds_witness :
  solution.CheckDependencyExists
    (solution.AppendDependency (solution.manifestOf "acme" ["k8s"] []) "k8s")
    "spacefleet"
  = solution.CheckDependencyExists
      (solution.manifestOf "acme" ["k8s"] []) "spacefleet".
Proof.
  apply (proj1 (proj2 (AppendDependency_adds
                         (solution.manifestOf "acme" ["k8s"] []) "k8s"))).
  discriminate.
Defined.

(** X4.  [AppendDependency] never duplicates: appending a name that is
    already a dependency leaves the manifest as it is, so appending twice
    is appending once; and a list of dependencies without repetitions stays
    without repetitions. *)
Theorem AppendDependency_idempotent (m : solution.Manifest) (n : string) :
  (solution.CheckDependencyExists m n = true ->
     solution.AppendDependency m n = m) /\
  solution.AppendDependency (solution.AppendDependency m n) n
  = solution.AppendDependency m n /\
  (NoDup (solution.Dependencies m) ->
     NoDup (solution.Dependencies (solution.AppendDependency m n))).
Proof.
  split; [|split].
  - intros H. unfold solution.AppendDependency. rewrite H. reflexivity.
  - unfold solution.AppendDependency at 1.
    rewrite CheckDependencyExists_AppendDependency. reflexivity.
  - intros Hnd. rewrite Dependencies_AppendDependency.
    destruct (solution.CheckDependencyExists m n) eqn:Hc; [exact Hnd|].
    apply NoDup_app. split; [exact Hnd|]. split.
    + intros x Hx Hin. apply list_elem_of_singleton in Hin. subst x.
      rewrite CheckDependencyExists_existsb in Hc.
      apply list_elem_of_In in Hx.
      assert (Ht : existsb (fun d => String.eqb d n) (solution.Dependencies m)
                   = true).
      { apply existsb_exists. exists n. split; [exact Hx|].
        apply String.eqb_refl. }
      congruence.
    + apply NoDup_singleton.
Qed.

Lemma AppendDependency_idempotent_witness :
  solution.AppendDependency (solution.manifestOf "acme" ["k8s"] []) "k8s"
  = solution.manifestOf "acme" ["k8s"] []
  /\ NoDup (solution.Dependencies
              (solution.AppendDependency
                 (solution.manifestOf "acme" ["k8s"] []) "spacefleet")).
Proof.
  split.
  - apply (proj1 (AppendDependency_idempotent
                    (solution.manifestOf "acme" ["k8s"] []) "k8s")).
    reflexivity.
  - apply (proj2 (proj2 (AppendDependency_idempotent
                    (solution.manifestOf "acme" ["k8s"] []) "spacefleet"))).
    cbn. apply NoDup_singleton.
Defined.

(* --------------------------------------------------------------------- *)
(** ** Component definitions *)

Lemma last_cons_default {A} (a : A) (l : list A) (d1 d2 : A) :
  List.last (a :: l) d1 = List.last (a :: l) d2.
Proof.
  revert a. induction l as [|b l IH]; intros a; [reflexivity|].
  change (List.last (a :: b :: l) d1) with (List.last (b :: l) d1).
  change (List.last (a :: b :: l) d2) with (List.last (b :: l) d2).
  apply IH.
Qed.

Lemma GetComponentDef_fold (t : string) (l : list solution.ComponentDef)
    (acc : solution.ComponentDef) :
  fold_left (fun componentDef compDefs =>
               if String.eqb (solution.Type_ compDefs) t then compDefs
               else componentDef) l acc
  = List.last (List.filter (solution.hasType t) l) acc.
Proof.
  revert acc. induction l as [|c l IH]; intros acc; [reflexivity|].
  cbn [fold_left List.filter]. rewrite IH. unfold solution.hasType at 2.
  destruct (String.eqb (solution.Type_ c) t); [|reflexivity].
  destruct (List.filter (solution.hasType t) l) eqn:Hf; [reflexivity|].
  change (List.last (c :: c0 :: l0) acc) with (List.last (c0 :: l0) acc).
  apply last_cons_default.
Qed.

Lemma last_In {A} (l : list A) (d : A) : l <> [] -> In (List.last l d) l.
Proof.
  induction l as [|a l IH]; [congruence|]. intros _.
  destruct l as [|b l]; [left; reflexivity|].
  right. apply IH. discriminate.
Qed.

Example GetComponentDef_takes_the_last :
  let objects :=
    [solution.mkComponentDef "fmm:entity" "entities.json" EmptyString;
     solution.mkComponentDef "fmm:metric" "metrics.json" EmptyString;
     solution.mkComponentDef "fmm:entity" EmptyString "entities"] in
  solution.GetComponentDef (solution.manifestOf "acme" [] objects) "fmm:entity"
  = solution.mkComponentDef "fmm:entity" EmptyString "entities"
  /\ solution.GetComponentDef (solution.manifestOf "acme" [] objects) "fmm:event"
     = solution.zeroComponentDef.
Proof. vm_compute. auto. Qed.

(** X5.  [GetComponentDef] returns the last object of the manifest whose
    type is [typeName] (not the first), and the zero [ComponentDef] when
    there is none.  When the manifest has such an object, the result is one
    of the manifest's objects and its type is [typeName]. *)
Theorem GetComponentDef_last (m : solution.Manifest) (typeName : string) :
  let matching := List.filter (solution.hasType typeName) (solution.Objects m) in
  solution.GetComponentDef m typeName
  = List.last matching solution.zeroComponentDef /\
  (matching = [] ->
     solution.GetComponentDef m typeName = solution.zeroComponentDef) /\
  (forall c, In c (solution.Objects m) -> solution.Type_ c = typeName ->
     In (solution.GetComponentDef m typeName) (solution.Objects m) /\
     solution.Type_ (solution.GetComponentDef m typeName) = typeName) /\
  (forall front c back,
     solution.Objects m = (front ++ c :: back)%list ->
     solution.Type_ c = typeName ->
     List.filter (solution.hasType typeName) back = [] ->
     solution.GetComponentDef m typeName = c).
Proof.
  cbv zeta. unfold solution.GetComponentDef. rewrite GetComponentDef_fold.
  split; [reflexivity|]. split; [|split].
  - intros ->. reflexivity.
  - intros c Hin Ht.
    assert (Hne : List.filter (solution.hasType typeName) (solution.Objects m) <> []).
    { intros Hnil.
      assert (Hc : In c (List.filter (solution.hasType typeName) (solution.Objects m))).
      { apply filter_In. split; [exact Hin|]. apply String.eqb_eq, Ht. }
      rewrite Hnil in Hc. destruct Hc. }
    pose proof (last_In _ solution.zeroComponentDef Hne) as Hl.
    apply filter_In in Hl. destruct Hl as [Hl1 Hl2].
    split; [exact Hl1 | apply String.eqb_eq, Hl2].
  - intros front c back -> Ht Hback.
    rewrite List.filter_app. cbn [List.filter]. rewrite Hback.
    unfold solution.hasType at 2. rewrite (proj2 (String.eqb_eq _ _) Ht).
    rewrite last_last. reflexivity.
Qed.

Lemma GetComponentDef_last_witness :
  solution.Type_
    (solution.GetComponentDef
       (solution.manifestOf "acme" []
          [solution.mkComponentDef "fmm:entity" "a.json" EmptyString;
           solution.mkComponentDef "fmm:entity" "b.json" EmptyString])
       "fmm:entity")
  = "fmm:entity".
Proof.
  apply (proj1 (proj2 (proj2 (GetComponentDef_last
           (solution.manifestOf "acme" []
              [solution.mkComponentDef "fmm:entity" "a.json" EmptyString;
               solution.mkComponentDef "fmm:entity" "b.json" EmptyString])
           "fmm:entity")))
         (solution.mkComponentDef "fmm:entity" "a.json" EmptyString)).
  - cbn. auto.
  - reflexivity.
Defined.

Lemma collectDefs_fold (t : string) (l acc : list solution.ComponentDef) :
  fold_left (fun componentDefs compDefs =>
               if String.eqb (solution.Type_ compDefs) t
               then (componentDefs ++ [compDefs])%list
               else componentDefs) l acc
  = (acc ++ List.filter (solution.hasType t) l)%list.
Proof.
  revert acc. induction l as [|c l IH]; intros acc; cbn [fold_left List.filter].
  - rewrite app_nil_r. reflexivity.
  - rewrite IH. unfold solution.hasType at 2.
    destruct (String.eqb (solution.Type_ c) t); [|reflexivity].
    rewrite <- app_assoc. reflexivity.
Qed.

Lemma collectDefs_filter (t : string) (l : list solution.ComponentDef) :
  solution.collectDefs t l = List.filter (solution.hasType t) l.
Proof. unfold solution.collectDefs. apply collectDefs_fold. Qed.

Example GetComponentDefs_examples :
  let plain := solution.mkComponentDef "fmm:entity" "entities.json" EmptyString in
  let redirected :=
    solution.mkComponentDef "${$dependency('fmm')}:entity" "e.json" EmptyString in
  let objects := [plain; redirected] in
  solution.GetComponentDefs (solution.manifestOf "acme" [] objects) "fmm:entity"
  = Some [plain]
  /\ solution.GetComponentDefs
       (solution.manifestOf "acme${$toSuffix(env.name)}"
          ["${$dependency('fmm')}"] objects) "fmm:entity"
     = Some [redirected]
  /\ solution.GetComponentDefs
       (solution.manifestOf "acme${$toSuffix(env.name)}"
          ["${$dependency('fmm')}"] objects) "fmm"
     = None
  /\ solution.GetComponentDefs
       (solution.manifestOf "acme${$toSuffix(env.name)}" [] objects) "fmm"
     = Some [].
Proof. vm_compute. auto. Qed.

(** X6.  For a manifest without pseudo-isolation, [GetComponentDefs]
    returns (it does not panic) exactly the objects of the manifest whose
    type is [typeName], in the manifest's order. *)
Theorem GetComponentDefs_plain (m : solution.Manifest) (typeName : string) :
  solution.HasPseudoIsolation m = false ->
  solution.GetComponentDefs m typeName
  = Some (List.filter (solution.hasType typeName) (solution.Objects m)).
Proof.
  intros Hiso. unfold solution.GetComponentDefs.
  pose proof (Split_nonempty typeName ":" ltac:(discriminate)) as Hne.
  destruct (strings.Split typeName ":") as [|domain rest]; [congruence|].
  rewrite Hiso. cbn [andb]. rewrite collectDefs_filter. reflexivity.
Qed.

Lemma GetComponentDefs_plain_witness :
  solution.GetComponentDefs
    (solution.manifestOf "acme" []
       [solution.mkComponentDef "fmm:entity" "a.json" EmptyString;
        solution.mkComponentDef "fmm:metric" "m.json" EmptyString;
        solution.mkComponentDef "fmm:entity" EmptyString "entities"])
    "fmm:entity"
  = Some [solution.mkComponentDef "fmm:entity" "a.json" EmptyString;
          solution.mkComponentDef "fmm:entity" EmptyString "entities"].
Proof.
  rewrite (GetComponentDefs_plain
             (solution.manifestOf "acme" []
                [solution.mkComponentDef "fmm:entity" "a.json" EmptyString;
                 solution.mkComponentDef "fmm:metric" "m.json" EmptyString;
                 solution.mkComponentDef "fmm:entity" EmptyString "entities"])
             "fmm:entity" ltac:(reflexivity)).
  reflexivity.
Defined.

(** The name under which an isolated manifest refers to the dependency
    [domain]. *)
Lemma Split_domain_kind (domain kind tail : string) :
  strings.Contains domain ":" = false ->
  strings.Contains kind ":" = false ->
  tail = EmptyString \/ (exists more, tail = ":" +:+ more) ->
  exists rest,
    strings.Split (domain +:+ ":" +:+ kind +:+ tail) ":"
    = domain :: kind :: rest.
Proof.
  intros Hd Hk Htail.
  change (":" +:+ kind +:+ tail) with (String ":" (kind +:+ tail)).
  rewrite (Split_char_append domain (kind +:+ tail) ":" Hd).
  destruct Htail as [-> | [more ->]].
  - exists []. f_equal.
    replace (kind +:+ EmptyString) with kind.
    2:{ clear. induction kind as [|c k IH]; rewrite ?append_cons, ?append_nil;
          [reflexivity | f_equal; exact IH]. }
    apply Split_none; [discriminate | exact Hk].
  - change (":" +:+ more) with (String ":" more).
    rewrite (Split_char_append kind more ":" Hk). eauto.
Qed.

(** X7.  In a manifest with pseudo-isolation that declares the dependency
    [${$dependency('domain')}], a lookup of the type [domain:kind] is
    redirected: [GetComponentDefs] returns the objects whose type is
    [${$dependency('domain')}:kind], in the manifest's order, and not those
    of type [domain:kind]; whatever follows a second colon in the type name
    is dropped. *)
Theorem GetComponentDefs_isolated (m : solution.Manifest)
    (domain kind tail : string) :
  let dep := "${$dependency('" +:+ domain +:+ "')}" in
  strings.Contains domain ":" = false ->
  strings.Contains kind ":" = false ->
  tail = EmptyString \/ (exists more, tail = ":" +:+ more) ->
  solution.HasPseudoIsolation m = true ->
  solution.CheckDependencyExists m dep = true ->
  solution.GetComponentDefs m (domain +:+ ":" +:+ kind +:+ tail)
  = Some (List.filter (solution.hasType (dep +:+ ":" +:+ kind))
                      (solution.Objects m)).
Proof.
  cbv zeta. intros Hd Hk Htail Hiso Hdep.
  unfold solution.GetComponentDefs.
  destruct (Split_domain_kind domain kind tail Hd Hk Htail) as [rest ->].
  rewrite Hiso, Hdep. cbn [andb]. rewrite collectDefs_filter. reflexivity.
Qed.

Lemma GetComponentDefs_isolated_witness :
  solution.GetComponentDefs
    (solution.manifestOf "acme${$toSuffix(env.name)}" ["${$dependency('fmm')}"]
       [solution.mkComponentDef "fmm:entity" "a.json" EmptyString;
        solution.mkComponentDef "${$dependency('fmm')}:entity" "b.json" EmptyString])
    "fmm:entity:v2"
  = Some [solution.mkComponentDef "${$dependency('fmm')}:entity" "b.json" EmptyString].
Proof.
  exact (GetComponentDefs_isolated
             (solution.manifestOf "acme${$toSuffix(env.name)}"
                ["${$dependency('fmm')}"]
                [solution.mkComponentDef "fmm:entity" "a.json" EmptyString;
                 solution.mkComponentDef "${$dependency('fmm')}:entity" "b.json"
                    EmptyString])
             "fmm" "entity" ":v2"
             ltac:(reflexivity) ltac:(reflexivity)
             ltac:(right; exists "v2"; reflexivity)
             ltac:(reflexivity) ltac:(reflexivity)).
Defined.

(** X8.  [GetComponentDefs] panics (index out of range) exactly when the
    manifest has pseudo-isolation, the type name has no colon, and the
    manifest declares the dependency [${$dependency('typeName')}]; in every
    other case it returns a list. *)
Theorem GetComponentDefs_panics (m : solution.Manifest) (typeName : string) :
  solution.GetComponentDefs m typeName = None
  <->
  solution.HasPseudoIsolation m = true /\
  strings.Contains typeName ":" = false /\
  solution.CheckDependencyExists m ("${$dependency('" +:+ typeName +:+ "')}")
  = true.
Proof.
  unfold solution.GetComponentDefs.
  destruct (strings.Contains typeName ":") eqn:Hc.
  - rewrite Split_step by discriminate.
    rewrite Contains_find in Hc. apply bool_decide_eq_true_1 in Hc.
    destruct Hc as [k Hf]. rewrite Hf.
    pose proof (Split_nonempty
                  (sliceFrom (k + String.length ":") typeName) ":"
                  ltac:(discriminate)) as Hne.
    destruct (strings.Split _ ":") as [|kind rest]; [congruence|].
    split; [|intros (_ & [=] & _)].
    destruct (_ && _); discriminate.
  - rewrite (Split_none typeName ":" ltac:(discriminate) Hc).
    destruct (solution.HasPseudoIsolation m); cbn [andb].
    + destruct (solution.CheckDependencyExists m _).
      * split; auto.
      * split; [discriminate | intros (_ & _ & [=])].
    + split; [discriminate | intros ([=] & _)].
Qed.

Lemma GetComponentDefs_panics_witness :
  solution.GetComponentDefs
    (solution.manifestOf "acme${$toSuffix(env.name)}"
       ["${$dependency('fmm')}"] []) "fmm"
  = None.
Proof.
  apply (proj2 (GetComponentDefs_panics
                  (solution.manifestOf "acme${$toSuffix(env.name)}"
                     ["${$dependency('fmm')}"] []) "fmm")).
  repeat split; reflexivity.
Defined.

(* ===================================================================== *)
(** * Reading the objects of a manifest *)

Lemma Index_zero_prefix (s substr : string) :
  (strings.Index s substr =? 0) = String.prefix substr s.
Proof.
  rewrite Index_find. destruct s as [|c t]; cbn [strings.find].
  - destruct (String.prefix substr EmptyString); reflexivity.
  - destruct (String.prefix substr (String c t)); [reflexivity|].
    destruct (strings.find t substr); cbn [option_map]; [|reflexivity].
    apply Z.eqb_neq. lia.
Qed.

(** A JSON text that begins with a bracket is an array, if it is
    anything. *)
Lemma parse_bracket (content : string) (v : json.Value) :
  String.prefix "[" content = true ->
  json.parse content = Some v ->
  exists elems, v = json.Array elems.
Proof.
  intros Hp. destruct content as [|c t]; [discriminate|].
  cbn [String.prefix] in Hp.
  destruct (ascii_dec "[" c) as [<-|]; [|discriminate].
  unfold json.parse. rewrite Nat.add_comm.
  cbn [json.skipSpace json.isSpace Nat.add json.scanValue].
  destruct (json.maxNestingDepth <? 0 + 1); [discriminate|].
  destruct (json.skipSpace t) as [|d t'] eqn:Ht.
  - destruct (json.scanElements _ _ _) as [[vs r]|]; [|discriminate].
    destruct (json.skipSpace r); [|discriminate]. intros [= <-]. eauto.
  - destruct d as [[] [] [] [] [] [] [] []].
    all: try (destruct (json.skipSpace t'); [|discriminate];
              intros [= <-]; eauto; fail).
    all: destruct (json.scanElements _ _ _) as [[vs r]|]; [|discriminate].
    all: destruct (json.skipSpace r); [|discriminate].
    all: intros [= <-]; eauto.
Qed.

Lemma parse_Null_text : json.parse "null" = Some json.Null.
Proof. reflexivity. Qed.

Example files_of_entities :
  let fs := solution.filesOf
              [("one.json", solution.objectText);
               ("many.json", solution.arrayText);
               ("spaced.json", " " +:+ solution.arrayText);
               ("null.json", "null");
               ("empty.json", EmptyString)] in
  solution.getObjectsFromFile (Object := solution.Named) fs "one.json"
  = inr [Some (solution.mkNamed "a")]
  /\ solution.getObjectsFromFile (Object := solution.Named) fs "many.json"
     = inr [Some (solution.mkNamed "a"); None; Some (solution.mkNamed "b")]
  /\ solution.getObjectsFromFile (Object := solution.Named) fs "spaced.json"
     = inl solution.FatalExit
  /\ solution.getObjectsFromFile (Object := solution.Named) fs "null.json"
     = inr [None]
  /\ solution.getObjectsFromFile (Object := solution.Named) fs "empty.json"
     = inl solution.FatalExit
  /\ solution.getObjectsFromFile (Object := solution.Named) fs "missing.json"
     = inl solution.OpenFileStops.
Proof. vm_compute. repeat split. Qed.

Lemma parse_empty_text : json.parse EmptyString = None.
Proof. reflexivity. Qed.

(** X9.  A definitions file is read as an array only when its very first
    byte is ["["]: then the JSON text must be an array, and every element
    gives one object (a [null] element gives a nil pointer).  Any other
    file is read as a single object and gives exactly one: a file that
    holds [null] gives one nil pointer, and a JSON array after leading
    white space is handed to the decoder of a single object, so the
    process exits when that decoder rejects arrays.  An empty file, and
    any file that does not decode, makes the process exit ([log.Fatalf]). *)
Theorem getObjectsFromFile_shape {Object : Type} `{Unmarshaler Object}
    (fs : solution.Files) (filePath content : string) :
  solution.fs_read fs filePath = Some content ->
  (content = EmptyString ->
     solution.getObjectsFromFile (Object := Object) fs filePath
     = inl solution.FatalExit) /\
  (String.prefix "[" content = true ->
     match solution.getObjectsFromFile (Object := Object) fs filePath with
     | inr objects =>
       exists elems,
         json.parse content = Some (json.Array elems) /\
         mapM solution.decodePointer elems = Some objects /\
         length objects = length elems
     | inl stop => stop = solution.FatalExit
     end) /\
  (String.prefix "[" content = false ->
     match solution.getObjectsFromFile (Object := Object) fs filePath with
     | inr objects => exists object, objects = [object]
     | inl stop => stop = solution.FatalExit
     end /\
     (json.parse content = Some json.Null ->
        solution.getObjectsFromFile (Object := Object) fs filePath
        = inr [None]) /\
     (forall elems,
        json.parse content = Some (json.Array elems) ->
        fromJSON (T := Object) (json.Array elems) = None ->
        solution.getObjectsFromFile (Object := Object) fs filePath
        = inl solution.FatalExit)).
Proof.
  intros Hread. unfold solution.getObjectsFromFile. rewrite Hread.
  rewrite Index_zero_prefix.
  split; [|split].
  - intros ->. reflexivity.
  - intros Hp. rewrite Hp.
    destruct (json.parse content) as [v|] eqn:Hv; [|reflexivity].
    destruct (parse_bracket content v Hp Hv) as [elems ->].
    cbn [solution.decodeSlice].
    destruct (mapM solution.decodePointer elems) as [objects|] eqn:Hm;
      [|reflexivity].
    exists elems. split; [reflexivity|]. split; [exact Hm|].
    symmetry. eapply length_mapM, Hm.
  - intros Hp. rewrite Hp. split; [|split].
    + destruct (json.parse content) as [v|]; [|reflexivity].
      destruct (solution.decodePointer v); [eauto | reflexivity].
    + intros ->. reflexivity.
    + intros elems -> Hrej. cbn [solution.decodePointer].
      rewrite Hrej. reflexivity.
Qed.

Lemma getObjectsFromFile_shape_witness :
  solution.getObjectsFromFile (Object := solution.Named)
    (solution.filesOf [("spaced.json", " " +:+ solution.arrayText)])
    "spaced.json"
  = inl solution.FatalExit.
Proof.
  eapply (proj2 (proj2 (proj2 (proj2 (getObjectsFromFile_shape
            (Object := solution.Named)
            (solution.filesOf [("spaced.json", " " +:+ solution.arrayText)])
            "spaced.json" (" " +:+ solution.arrayText) ltac:(reflexivity)))
          ltac:(reflexivity)))).
  - vm_compute. reflexivity.
  - reflexivity.
Defined.

(* --------------------------------------------------------------------- *)
(** ** All the objects of a type *)

Lemma walkObjects_acc {Object : Type} `{Unmarshaler Object}
    (fs : solution.Files) (visits : list solution.Visit)
    (objects : list (option Object)) :
  solution.walkObjects fs visits objects
  = solution.andThen (inr objects) (solution.walkObjects fs visits []).
Proof.
  revert objects. induction visits as [|[path|path err] visits IH];
    intros objects; cbn [solution.walkObjects solution.andThen].
  - rewrite app_nil_r. reflexivity.
  - destruct (strings.Contains path ".json"); [|apply IH].
    destruct (solution.getObjectsFromFile fs path) as [stop|found];
      [reflexivity|].
    rewrite IH. rewrite (IH ([] ++ found)%list). cbn [app solution.andThen].
    destruct (solution.walkObjects fs visits []); [reflexivity|].
    rewrite app_assoc. reflexivity.
  - reflexivity.
Qed.

Lemma readComponent_acc {Object : Type} `{Unmarshaler Object}
    (fs : solution.Files) (compDef : solution.ComponentDef)
    (objects : list (option Object)) :
  solution.readComponent fs compDef objects
  = solution.andThen (inr objects) (solution.readComponent fs compDef []).
Proof.
  unfold solution.readComponent.
  destruct (negb (String.eqb (solution.ObjectsFile compDef) EmptyString)).
  - destruct (solution.getObjectsFromFile fs _) as [stop|found];
      [reflexivity|].
    destruct (negb (String.eqb (solution.ObjectsDir compDef) EmptyString)).
    + rewrite walkObjects_acc.
      rewrite (walkObjects_acc fs _ ([] ++ found)%list).
      cbn [app solution.andThen].
      destruct (solution.walkObjects fs _ []); [reflexivity|].
      rewrite app_assoc. reflexivity.
    + reflexivity.
  - destruct (negb (String.eqb (solution.ObjectsDir compDef) EmptyString)).
    + apply walkObjects_acc.
    + cbn [solution.andThen]. rewrite app_nil_r. reflexivity.
Qed.

Lemma readComponents_acc {Object : Type} `{Unmarshaler Object}
    (fs : solution.Files) (compDefs : list solution.ComponentDef)
    (objects : list (option Object)) :
  solution.readComponents fs compDefs objects
  = solution.andThen (inr objects) (solution.readComponents fs compDefs []).
Proof.
  revert objects. induction compDefs as [|d ds IH]; intros objects;
    cbn [solution.readComponents solution.andThen].
  - rewrite app_nil_r. reflexivity.
  - rewrite readComponent_acc.
    destruct (solution.readComponent fs d []) as [stop|found];
      cbn [solution.andThen]; [reflexivity|].
    rewrite IH, (IH found). cbn [solution.andThen].
    destruct (solution.readComponents fs ds []); [reflexivity|].
    rewrite app_assoc. reflexivity.
Qed.

Lemma readComponents_app {Object : Type} `{Unmarshaler Object}
    (fs : solution.Files) (ds1 ds2 : list solution.ComponentDef) :
  solution.readComponents (Object := Object) fs (ds1 ++ ds2) []
  = solution.andThen (solution.readComponents fs ds1 [])
                     (solution.readComponents fs ds2 []).
Proof.
  generalize (@nil (option Object)) at 1 2 as objects.
  induction ds1 as [|d ds1 IH]; intros objects; cbn [app solution.readComponents].
  - apply readComponents_acc.
  - destruct (solution.readComponent fs d objects) as [stop|found];
      [reflexivity|].
    apply IH.
Qed.

Lemma GetComponentDefs_lookedUpType (m : solution.Manifest)
    (typeName : string) :
  solution.GetComponentDefs m typeName
  = option_map
      (fun tn => List.filter (solution.hasType tn) (solution.Objects m))
      (solution.lookedUpType m typeName).
Proof.
  unfold solution.GetComponentDefs, solution.lookedUpType.
  destruct (strings.Split typeName ":") as [|domain rest]; [reflexivity|].
  destruct (_ && _).
  - destruct rest as [|kind rest]; [reflexivity|]. cbn [option_map].
    rewrite collectDefs_filter. reflexivity.
  - cbn [option_map]. rewrite collectDefs_filter. reflexivity.
Qed.

Lemma lookedUpType_plain (m : solution.Manifest) (typeName : string) :
  solution.HasPseudoIsolation m = false ->
  solution.lookedUpType m typeName = Some typeName.
Proof.
  intros Hiso. unfold solution.lookedUpType.
  pose proof (Split_nonempty typeName ":" ltac:(discriminate)) as Hne.
  destruct (strings.Split typeName ":") as [|domain rest]; [congruence|].
  rewrite Hiso. reflexivity.
Qed.

Example objects_in_manifest_order :
  let fs := solution.filesOf
              [("one.json", solution.objectText);
               ("many.json", solution.arrayText)] in
  let m := solution.manifestOf "acme" []
             [solution.mkComponentDef "fmm:entity" "many.json" EmptyString;
              solution.mkComponentDef "fmm:metric" "missing.json" EmptyString;
              solution.mkComponentDef "fmm:entity" "one.json" EmptyString] in
  solution.GetFmmEntities (FmmEntity := solution.Named) fs m
  = inr [Some (solution.mkNamed "a"); None; Some (solution.mkNamed "b");
         Some (solution.mkNamed "a")]
  /\ solution.GetFmmMetrics (FmmMetric := solution.Named) fs m
     = inl solution.OpenFileStops
  /\ solution.GetFmmEvents (FmmEvent := solution.Named) fs m = inr [].
Proof. vm_compute. repeat split. Qed.

(** X10.  The objects that [GetFmmEntities], [GetFmmMetrics],
    [GetFmmEvents] and [GetDashuiTemplates] return come in the order of the
    manifest: the objects for the component definitions [front ++ back] are
    those for [front] followed by those for [back], and when reading stops
    (a file does not open or does not decode, the walk meets an error, the
    type lookup panics) the first stop in that order is the outcome.  A
    manifest without component definitions gives no objects, and, without
    pseudo-isolation, a component definition of another type is skipped
    without reading its file or directory. *)
Theorem getObjects_in_order {Object : Type} `{Unmarshaler Object}
    (fs : solution.Files) (m : solution.Manifest)
    (front back : list solution.ComponentDef) (typeName : string) :
  solution.getObjects (Object := Object) fs
    (solution.withObjects m (front ++ back)) typeName
  = solution.andThen
      (solution.getObjects fs (solution.withObjects m front) typeName)
      (solution.getObjects fs (solution.withObjects m back) typeName) /\
  (solution.HasPseudoIsolation m = false ->
     solution.getObjects (Object := Object) fs (solution.withObjects m [])
       typeName = inr [] /\
     forall other,
       solution.Type_ other <> typeName ->
       solution.getObjects (Object := Object) fs
         (solution.withObjects m (other :: back)) typeName
       = solution.getObjects fs (solution.withObjects m back) typeName).
Proof.
  split.
  - unfold solution.getObjects. rewrite !GetComponentDefs_lookedUpType.
    change (solution.lookedUpType (solution.withObjects m (front ++ back))
              typeName) with (solution.lookedUpType m typeName).
    change (solution.lookedUpType (solution.withObjects m front) typeName)
      with (solution.lookedUpType m typeName).
    change (solution.lookedUpType (solution.withObjects m back) typeName)
      with (solution.lookedUpType m typeName).
    destruct (solution.lookedUpType m typeName) as [tn|]; [|reflexivity].
    cbn [option_map solution.withObjects solution.Objects].
    rewrite List.filter_app. apply readComponents_app.
  - intros Hiso. unfold solution.getObjects. split.
    + rewrite GetComponentDefs_lookedUpType.
      change (solution.lookedUpType (solution.withObjects m []) typeName)
        with (solution.lookedUpType m typeName).
      rewrite (lookedUpType_plain m typeName Hiso). reflexivity.
    + intros other Hother. rewrite !GetComponentDefs_lookedUpType.
      change (solution.lookedUpType (solution.withObjects m (other :: back))
                typeName) with (solution.lookedUpType m typeName).
      change (solution.lookedUpType (solution.withObjects m back) typeName)
        with (solution.lookedUpType m typeName).
      rewrite (lookedUpType_plain m typeName Hiso).
      cbn [option_map solution.withObjects solution.Objects List.filter].
      unfold solution.hasType at 1.
      destruct (String.eqb_spec (solution.Type_ other) typeName);
        [contradiction | reflexivity].
Qed.

Lemma getObjects_in_order_witness :
  solution.getObjects (Object := solution.Named)
    (solution.filesOf [("one.json", solution.objectText)])
    (solution.withObjects (solution.manifestOf "acme" [] [])
       [solution.mkComponentDef "fmm:metric" "missing.json" EmptyString;
        solution.mkComponentDef "fmm:entity" "one.json" EmptyString])
    "fmm:entity"
  = solution.getObjects
      (solution.filesOf [("one.json", solution.objectText)])
      (solution.withObjects (solution.manifestOf "acme" [] [])
         [solution.mkComponentDef "fmm:entity" "one.json" EmptyString])
      "fmm:entity".
Proof.
  apply (proj2 (proj2 (getObjects_in_order (Object := solution.Named)
           (solution.filesOf [("one.json", solution.objectText)])
           (solution.manifestOf "acme" [] []) []
           [solution.mkComponentDef "fmm:entity" "one.json" EmptyString]
           "fmm:entity") ltac:(reflexivity))).
  cbn. discriminate.
Defined.

Import utf8.

(* ===================================================================== *)
(** * The display form of a URL *)

Lemma abbreviateString_runes (s : string) (n : N) :
  Z.of_N n < RuneCountInString s -> (2 <= n)%N ->
  runesOf (abbreviateString s n)
  = (take (N.to_nat (n - 1)) (runesOf s) ++ [ellipsis])%list.
Proof.
  intros Hlong Hn. rewrite (abbreviateString_long s n Hlong Hn).
  apply runesOf_stringOfRunes. apply Forall_app. split.
  - apply Forall_take, runesOf_valid.
  - constructor; [apply ellipsis_valid | constructor].
Qed.

Lemma abbreviateString_count (s : string) (n : N) :
  RuneCountInString (abbreviateString s n) <= Z.of_N n.
Proof.
  destruct (Z.leb_spec (RuneCountInString s) (Z.of_N n)) as [Hs|Hl].
  - unfold abbreviateString.
    destruct (Z.leb_spec (RuneCountInString s) (Z.of_N n)); [exact Hs | lia].
  - destruct (N.eq_dec n 0%N) as [->|H0];
      [|destruct (N.eq_dec n 1%N) as [->|H1]].
    + unfold abbreviateString.
      destruct (Z.leb_spec (RuneCountInString s) (Z.of_N 0)); [lia|].
      vm_compute. discriminate.
    + unfold abbreviateString.
      destruct (Z.leb_spec (RuneCountInString s) (Z.of_N 1)); [lia|].
      vm_compute. discriminate.
    + pose proof (abbreviateString_in_range s n Hl ltac:(lia)) as [Hidx _].
      rewrite RuneCount_runesOf, abbreviateString_runes by lia.
      rewrite length_app, length_take. cbn [length]. lia.
Qed.

(** X11.  [abbreviateString(s, n)] never has more than [n] runes, whatever
    [s] and [n] are, and abbreviating to the same length again changes
    nothing. *)
Theorem abbreviateString_never_longer (s : string) (n : N) :
  RuneCountInString (abbreviateString s n) <= Z.of_N n /\
  abbreviateString (abbreviateString s n) n = abbreviateString s n.
Proof.
  split; [apply abbreviateString_count|].
  pose proof (abbreviateString_count s n) as Hc.
  unfold abbreviateString at 1.
  destruct (Z.leb_spec (RuneCountInString (abbreviateString s n)) (Z.of_N n));
    [reflexivity | lia].
Qed.

(* --------------------------------------------------------------------- *)
(** ** Decoding in front of an ASCII byte *)

Lemma sliceFrom_append_le (n : nat) (a b : string) :
  (n <= String.length a)%nat ->
  sliceFrom n (a +:+ b) = sliceFrom n a +:+ b.
Proof.
  revert a. induction n as [|n IH]; intros a Hn; [reflexivity|].
  destruct a as [|c a]; cbn [String.length] in Hn; [lia|].
  rewrite append_cons. cbn [sliceFrom]. apply IH. lia.
Qed.

Lemma first_lead_lo (b : Z) (sz : nat) (lo hi : Z) :
  first b = Lead sz lo hi -> 128 <= lo.
Proof.
  intros H. pose proof (first_spec b) as Hs. rewrite H in Hs.
  inversion Hs; lia.
Qed.

(** The first rune of a string does not depend on what follows the string
    when that begins with an ASCII byte. *)
Lemma decode_append_ascii (a b : string) (c : ascii) :
  a <> EmptyString -> byteZ c < 128 ->
  DecodeRuneInString (a +:+ String c b) = DecodeRuneInString a.
Proof.
  intros Ha Hc. destruct a as [|c0 r0]; [congruence|].
  rewrite append_cons. unfold DecodeRuneInString.
  destruct (first (byteZ c0)) as [| |sz lo hi] eqn:Hf; try reflexivity.
  pose proof (first_lead_lo _ _ _ _ Hf) as Hlo.
  destruct r0 as [|c1 r1]; rewrite ?append_cons, ?append_nil.
  { cbv zeta. destruct (Z.ltb_spec (byteZ c) lo); [reflexivity | lia]. }
  cbv zeta. destruct ((byteZ c1 <? lo) || (hi <? byteZ c1)); [reflexivity|].
  destruct (sz <=? 2)%nat; [reflexivity|].
  destruct r1 as [|c2 r2]; rewrite ?append_cons, ?append_nil.
  { unfold locb. destruct (Z.ltb_spec (byteZ c) 128); [reflexivity | lia]. }
  destruct ((byteZ c2 <? locb) || (hicb <? byteZ c2)); [reflexivity|].
  destruct (sz <=? 3)%nat; [reflexivity|].
  destruct r2 as [|c3 r3]; rewrite ?append_cons, ?append_nil.
  { unfold locb. destruct (Z.ltb_spec (byteZ c) 128); [reflexivity | lia]. }
  reflexivity.
Qed.

Lemma runesOf_ascii_cons (c : ascii) (b : string) :
  byteZ c < 128 -> runesOf (String c b) = byteZ c :: runesOf b.
Proof.
  intros Hc. rewrite runesOf_nonempty by discriminate.
  unfold DecodeRuneInString, first.
  destruct (Z.ltb_spec (byteZ c) 128); [reflexivity | lia].
Qed.

Lemma runesOf_append_ascii (a b : string) (c : ascii) :
  byteZ c < 128 ->
  runesOf (a +:+ String c b) = (runesOf a ++ byteZ c :: runesOf b)%list.
Proof.
  intros Hc.
  remember (String.length a) as n eqn:Hn.
  revert a Hn. induction n as [n IH] using lt_wf_ind. intros a Hn.
  destruct a as [|c0 r0].
  - rewrite append_nil. apply runesOf_ascii_cons, Hc.
  - assert (Hne : String c0 r0 <> EmptyString) by discriminate.
    rewrite (runesOf_nonempty (String c0 r0 +:+ String c b)).
    2:{ rewrite append_cons. discriminate. }
    rewrite (runesOf_nonempty (String c0 r0)) by exact Hne.
    rewrite (decode_append_ascii _ b c Hne Hc).
    pose proof (decode_nonempty_size _ Hne) as Hsz.
    destruct (DecodeRuneInString (String c0 r0)) as [r size].
    cbn [fst snd] in *.
    rewrite sliceFrom_append_le by lia.
    cbn [app]. f_equal.
    apply (IH (String.length (sliceFrom size (String c0 r0)))); [|reflexivity].
    rewrite sliceFrom_length. lia.
Qed.

Lemma RuneCount_append_ascii (a b : string) (c : ascii) :
  byteZ c < 128 ->
  RuneCountInString (a +:+ String c b)
  = RuneCountInString a + 1 + RuneCountInString b.
Proof.
  intros Hc. rewrite !RuneCount_runesOf, runesOf_append_ascii by exact Hc.
  rewrite length_app. cbn [length]. lia.
Qed.

Example urlDisplayPath_examples :
  urlDisplayPath (mkURL EmptyString "/knowledge-store/v1/objects/extensibility:solution"
                        "filter=abc")
  = "/knowledge-store/v1/objects/extensibility:solution?filte…"
  /\ urlDisplayPath (mkURL EmptyString "/objects" EmptyString) = "/objects"
  /\ urlDisplayPath (mkURL EmptyString "/objects" "max=5") = "/objects?max=5".
Proof. vm_compute. auto. Qed.

(** X12.  The display form of a URL has at most 57 runes: at most 50 of
    the path, a question mark and at most 6 of the query; without a query,
    at most 50.  A path of at most 50 runes and a query of at most 6 are
    shown in full. *)
Theorem urlDisplayPath_bound (uri : URL) :
  RuneCountInString (urlDisplayPath uri) <= 57 /\
  (url_RawQuery uri = EmptyString ->
     RuneCountInString (urlDisplayPath uri) <= 50) /\
  (RuneCountInString (url_Path uri) <= 50 ->
   RuneCountInString (url_RawQuery uri) <= 6 ->
     urlDisplayPath uri
     = if String.eqb (url_RawQuery uri) EmptyString then url_Path uri
       else url_Path uri +:+ "?" +:+ url_RawQuery uri).
Proof.
  pose proof (abbreviateString_count (url_Path uri) 50) as Hp.
  pose proof (abbreviateString_count (url_RawQuery uri) 6) as Hq.
  unfold urlDisplayPath. cbv zeta.
  split; [|split].
  - destruct (String.eqb (url_RawQuery uri) EmptyString); [lia|].
    change ("?" +:+ abbreviateString (url_RawQuery uri) 6)
      with (String "?" (abbreviateString (url_RawQuery uri) 6)).
    rewrite RuneCount_append_ascii by (vm_compute; reflexivity). lia.
  - intros ->. rewrite String.eqb_refl. lia.
  - intros Hsp Hsq.
    assert (Ha : abbreviateString (url_Path uri) 50 = url_Path uri).
    { unfold abbreviateString.
      destruct (Z.leb_spec (RuneCountInString (url_Path uri)) (Z.of_N 50));
        [reflexivity | lia]. }
    assert (Hb : abbreviateString (url_RawQuery uri) 6 = url_RawQuery uri).
    { unfold abbreviateString.
      destruct (Z.leb_spec (RuneCountInString (url_RawQuery uri)) (Z.of_N 6));
        [reflexivity | lia]. }
    rewrite Ha, Hb. reflexivity.
Qed.

Lemma urlDisplayPath_bound_witness :
  urlDisplayPath (mkURL "https://t.example.com/objects?max=5" "/objects" "max=5")
  = "/objects?max=5".
Proof.
  apply (proj2 (proj2 (urlDisplayPath_bound
           (mkURL "https://t.example.com/objects?max=5" "/objects" "max=5")))).
  - vm_compute. discriminate.
  - vm_compute. discriminate.
Defined.

(* ===================================================================== *)
(** * Building the request: what the curl command shows *)

Lemma canonical_Authorization :
  header.CanonicalMIMEHeaderKey "Authorization" = "Authorization".
Proof. reflexivity. Qed.

Lemma canonical_Content_Type :
  header.CanonicalMIMEHeaderKey "Content-Type" = "Content-Type".
Proof. reflexivity. Qed.

Lemma Set_sameButAuthorization (v : string) (h1 h2 : Header) :
  sameButAuthorization h1 h2 ->
  header.Set_ "Authorization" v h1 = header.Set_ "Authorization" v h2.
Proof.
  intros Hsame. unfold header.Set_. rewrite canonical_Authorization.
  apply map_eq. intros name. rewrite !lookup_insert.
  destruct (decide ("Authorization" = name)); [reflexivity|].
  apply Hsame. congruence.
Qed.

(** The command is the same for two requests that differ only in their
    Authorization header. *)
Lemma getCurlCommandOfRequest_same (w : World) (req : Request)
    (h1 h2 : Header) :
  sameButAuthorization h1 h2 ->
  getCurlCommandOfRequest w (withHeader req h1)
  = getCurlCommandOfRequest w (withHeader req h2).
Proof.
  intros Hsame. unfold getCurlCommandOfRequest, withHeader.
  cbn [req_Header req_Method req_URL req_Body].
  rewrite (Set_sameButAuthorization _ h1 h2 Hsame). reflexivity.
Qed.

Lemma Get_Set_other (key v : string) (h : Header) :
  header.CanonicalMIMEHeaderKey key <> "Authorization" ->
  header.Get (header.Set_ "Authorization" v h) key = header.Get h key.
Proof.
  intros Hne. unfold header.Get, header.Set_, header.values.
  rewrite canonical_Authorization, lookup_insert_ne by congruence.
  reflexivity.
Qed.

Example curl_command_of_a_request :
  let w := mkWorld (demo.cfg "secret") true demo.loginOk (fun _ => inr "{}")
             (fun s => inr (mkURL s EmptyString EmptyString))
             (fun base p => inr (base +:+ "/" +:+ p))
             (fun _ u => inr (mkURL u "/objects" EmptyString))
             (fun _ h => h)
             (fun req => header.Get (req_Header req) "authorization")
             (fun _ _ => inl "down") (fun _ _ => None) (fun _ => EmptyString) in
  prepareHTTPRequest w (demo.cfg "secret") "GET" "objects" BodyNil None
  = PrepOk (mkRequest "GET"
              (mkURL "https://tenant.example.com/objects" "/objects" EmptyString)
              {[ "Accept" := ["application/json"];
                 "Authorization" := ["Bearer secret"] ]} None)
           (Some "Bearer REDACTED").
Proof. vm_compute. reflexivity. Qed.

(** X13.  The curl command never shows the credential or a multipart body.
    Whatever a request holds under [Authorization], its command is the one
    rendered (by http2curl) from a clone that has the same method, URL and
    other headers and exactly [Bearer REDACTED] as its Authorization;
    so two requests that differ only in their Authorization header give the
    same command.  When the Content-Type of the request begins with
    [multipart/form-data], the command does not depend on the body. *)
Theorem getCurlCommandOfRequest_redacts (w : World) (req : Request) :
  (exists clone,
     getCurlCommandOfRequest w req = w_curlCommand w clone /\
     header.values (req_Header clone) "Authorization" = ["Bearer REDACTED"] /\
     sameButAuthorization (req_Header clone) (req_Header req) /\
     req_Method clone = req_Method req /\ req_URL clone = req_URL req) /\
  (forall values,
     getCurlCommandOfRequest w
       (withHeader req (<["Authorization" := values]> (req_Header req)))
     = getCurlCommandOfRequest w req) /\
  (String.prefix "multipart/form-data"
     (header.Get (req_Header req) "Content-Type") = true ->
   forall b,
     getCurlCommandOfRequest w (withBody req b)
     = getCurlCommandOfRequest w req).
Proof.
  split; [|split].
  - eexists. split; [reflexivity|]. cbn [req_Header req_Method req_URL].
    split; [|split; [|split; reflexivity]].
    + unfold header.values, header.Set_.
      rewrite canonical_Authorization, lookup_insert_eq. reflexivity.
    + intros name Hne. unfold header.Set_.
      rewrite canonical_Authorization, lookup_insert_ne by congruence.
      reflexivity.
  - intros values.
    transitivity (getCurlCommandOfRequest w (withHeader req (req_Header req)));
      [|destruct req; reflexivity].
    apply getCurlCommandOfRequest_same.
    intros name Hne. rewrite lookup_insert_ne by congruence. reflexivity.
  - intros Hmp b. unfold getCurlCommandOfRequest, withBody.
    cbn [req_Header req_Method req_URL req_Body].
    rewrite Get_Set_other by (rewrite canonical_Content_Type; discriminate).
    rewrite Hmp. reflexivity.
Qed.

Lemma getCurlCommandOfRequest_redacts_witness :
  let req := mkRequest "POST"
               (mkURL "https://t.example.com/files" "/files" EmptyString)
               {[ "Content-Type" := ["multipart/form-data; boundary=x"] ]}
               (Some "file bytes") in
  getCurlCommandOfRequest
    (demo.world demo.loginOk demo.forbidden demo.forbidden)
    (withBody req (Some "other bytes"))
  = getCurlCommandOfRequest
      (demo.world demo.loginOk demo.forbidden demo.forbidden) req.
Proof.
  cbv zeta.
  apply (proj2 (proj2 (getCurlCommandOfRequest_redacts
           (demo.world demo.loginOk demo.forbidden demo.forbidden)
           (mkRequest "POST"
              (mkURL "https://t.example.com/files" "/files" EmptyString)
              {[ "Content-Type" := ["multipart/form-data; boundary=x"] ]}
              (Some "file bytes"))))).
  vm_compute. reflexivity.
Defined.

(* --------------------------------------------------------------------- *)
(** ** The logged command and the token *)

Lemma Add_sameButAuthorization (k v : string) (h1 h2 : Header) :
  sameButAuthorization h1 h2 ->
  sameButAuthorization (header.Add k v h1) (header.Add k v h2).
Proof.
  intros Hsame name Hne. unfold header.Add, header.values.
  rewrite !lookup_insert.
  destruct (decide (header.CanonicalMIMEHeaderKey k = name)) as [->|];
    [|apply Hsame, Hne].
  rewrite (Hsame name Hne). reflexivity.
Qed.

Lemma addHeaders_sameButAuthorization (hs : list (string * string))
    (h1 h2 : Header) :
  sameButAuthorization h1 h2 ->
  sameButAuthorization (addHeaders hs h1) (addHeaders hs h2).
Proof.
  unfold addHeaders. revert h1 h2.
  induction hs as [|[k v] hs IH]; intros h1 h2 Hsame; cbn [fold_left];
    [exact Hsame|].
  apply IH, Add_sameButAuthorization, Hsame.
Qed.

Lemma Add_Authorization_other (v : string) (h : Header) (name : string) :
  name <> "Authorization" ->
  header.Add "Authorization" v h !! name = h !! name.
Proof.
  intros Hne. unfold header.Add.
  rewrite canonical_Authorization, lookup_insert_ne by congruence.
  reflexivity.
Qed.

Lemma synthHeaders_sameButAuthorization (cfg : Config) (token : string)
    (method : string) (jsonify : bool) (headers : StringMap) :
  sameButAuthorization (synthHeaders cfg method jsonify headers)
    (synthHeaders (withToken cfg token) method jsonify headers).
Proof.
  unfold synthHeaders.
  destruct (isNil headers || String.eqb (mapGet headers "Authorization") EmptyString);
    [|intros ? ?; reflexivity].
  intros name Hne. rewrite !Add_Authorization_other by exact Hne.
  reflexivity.
Qed.

(** X14.  With the [--curl] flag and an auth method other than local, the
    curl command that [prepareHTTPRequest] logs does not depend on the
    token of the config context: building the request with another token
    succeeds or fails alike and logs the same command. *)
Theorem prepareHTTPRequest_curl_hides_token (w : World) (cfg : Config)
    (token : string) (method path : string) (body : Body)
    (headers : StringMap) :
  cfg_AuthMethod cfg <> AuthMethodLocal ->
  match prepareHTTPRequest w cfg method path body headers,
        prepareHTTPRequest w (withToken cfg token) method path body headers with
  | PrepOk req curl, PrepOk req' curl' =>
    curl = curl' /\ (w_curlify w = true -> is_Some curl) /\
    req_Method req = req_Method req' /\ req_URL req = req_URL req' /\
    req_Body req = req_Body req'
  | PrepErr e, PrepErr e' => e = e'
  | PrepFatal msg, PrepFatal msg' => msg = msg'
  | _, _ => False
  end.
Proof.
  intros Hauth. unfold prepareHTTPRequest. cbv zeta.
  cbn [withToken cfg_URL].
  set (jsonify := negb _ && _).
  destruct (if jsonify then _ else _) as [e|bodyReader]; [reflexivity|].
  destruct (cutQuery path) as [p q].
  destruct (w_urlParse w (cfg_URL cfg)) as [e|uri]; [reflexivity|].
  destruct (w_joinPath w (url_String uri) p) as [e|joined]; [reflexivity|].
  destruct (w_newRequest w method _) as [e|u]; [reflexivity|].
  cbn [req_Method req_URL req_Body].
  split; [|split; [|auto]].
  - destruct (w_curlify w); [|reflexivity]. f_equal.
    apply (getCurlCommandOfRequest_same w
             (mkRequest (if String.eqb method EmptyString then "GET" else method)
                        u ∅ bodyReader)).
    unfold requestHeaders, withLocalAuth. cbn [withToken cfg_AuthMethod].
    destruct (String.eqb_spec (cfg_AuthMethod cfg) AuthMethodLocal);
      [contradiction|].
    apply addHeaders_sameButAuthorization, synthHeaders_sameButAuthorization.
  - intros ->. eauto.
Qed.

Lemma prepareHTTPRequest_curl_hides_token_witness :
  let w := mkWorld (demo.cfg "secret") true demo.loginOk (fun _ => inr "{}")
             (fun s => inr (mkURL s EmptyString EmptyString))
             (fun base p => inr (base +:+ "/" +:+ p))
             (fun _ u => inr (mkURL u "/objects" EmptyString))
             (fun _ h => h)
             (fun req => header.Get (req_Header req) "authorization")
             (fun _ _ => inl "down") (fun _ _ => None) (fun _ => EmptyString) in
  match prepareHTTPRequest w (demo.cfg "secret") "GET" "objects" BodyNil None,
        prepareHTTPRequest w (demo.cfg "other") "GET" "objects" BodyNil None with
  | PrepOk _ curl, PrepOk _ curl' => curl = curl'
  | _, _ => False
  end.
Proof.
  cbv zeta.
  pose proof (prepareHTTPRequest_curl_hides_token
    (mkWorld (demo.cfg "secret") true demo.loginOk (fun _ => inr "{}")
             (fun s => inr (mkURL s EmptyString EmptyString))
             (fun base p => inr (base +:+ "/" +:+ p))
             (fun _ u => inr (mkURL u "/objects" EmptyString))
             (fun _ h => h)
             (fun req => header.Get (req_Header req) "authorization")
             (fun _ _ => inl "down") (fun _ _ => None) (fun _ => EmptyString))
    (demo.cfg "secret") "other" "GET" "objects" BodyNil None
    ltac:(vm_compute; discriminate)) as Hc.
  vm_compute in Hc |- *. tauto.
Defined.

(* --------------------------------------------------------------------- *)
(** ** The body of the request *)

Example bytes_without_content_type_are_marshalled :
  exists req,
    prepareHTTPRequest (demo.world demo.loginOk demo.forbidden demo.forbidden)
      (demo.cfg "t") "POST" "objects" (BodyBytes "a,b") None = PrepOk req None
    /\ req_Body req = Some "{}"
    /\ header.Get (req_Header req) "Content-Type" = "application/json".
Proof. eexists. split; [reflexivity|]. vm_compute. auto. Qed.

(** X15.  The body that [prepareHTTPRequest] sends.  With a nil body the
    request has no body, no Content-Type is synthesised and nothing is
    marshalled.  With a body and no (or an empty) [Content-Type] among the
    caller's headers, the body is [json.Marshal(body)], also when it is a
    [[]byte]: a marshalling error is returned as "failed to marshal body
    data" and no request is built; otherwise the request carries the
    marshalled bytes and, unless local auth changes it, the Content-Type
    [application/json], or [application/merge-patch+json] for PATCH,
    in front of whatever the caller gave under that name in another
    spelling. *)
Theorem prepareHTTPRequest_body (w : World) (cfg : Config)
    (method path : string) (body : Body) (headers : StringMap) :
  (body = BodyNil ->
   forall req curl,
     prepareHTTPRequest w cfg method path body headers = PrepOk req curl ->
     req_Body req = None /\
     synthesized cfg method body headers "Content-Type" = []) /\
  (body <> BodyNil -> mapGet headers "Content-Type" = EmptyString ->
   (forall e, w_jsonMarshal w body = inl e ->
      prepareHTTPRequest w cfg method path body headers
      = PrepErr (ErrMarshalBody e)) /\
   (forall req curl,
      prepareHTTPRequest w cfg method path body headers = PrepOk req curl ->
      w_jsonMarshal w body = inr (default EmptyString (req_Body req)) /\
      is_Some (req_Body req) /\
      (cfg_AuthMethod cfg <> AuthMethodLocal ->
       header.values (req_Header req) "Content-Type"
       = (if String.eqb method "PATCH" then "application/merge-patch+json"
          else "application/json")
         :: callerValues (entries headers) "Content-Type"))).
Proof.
  split.
  - intros -> req curl Hok.
    destruct (prepareHTTPRequest_ok _ _ _ _ _ _ _ _ Hok) as (_ & _ & Hb).
    split; [exact (Hb eq_refl) | reflexivity].
  - intros Hbody Hct.
    assert (Hj : jsonifies body headers = true).
    { unfold jsonifies. rewrite Hct. destruct body; [contradiction| |]; reflexivity. }
    split.
    + intros e He. unfold prepareHTTPRequest.
      rewrite jsonify_jsonifies, Hj, He. reflexivity.
    + intros req curl Hok.
      destruct (prepareHTTPRequest_ok _ _ _ _ _ _ _ _ Hok) as (Hh & Hm & _).
      destruct (Hm Hj) as [Hm1 Hm2]. split; [exact Hm1|]. split; [exact Hm2|].
      intros Hauth. rewrite Hh. unfold requestHeaders.
      rewrite values_addHeaders. unfold withLocalAuth.
      destruct (String.eqb_spec (cfg_AuthMethod cfg) AuthMethodLocal);
        [contradiction|].
      rewrite values_synthHeaders. unfold synthesized.
      cbn [String.eqb Ascii.eqb Bool.eqb]. rewrite Hj. reflexivity.
Qed.

Lemma prepareHTTPRequest_body_witness :
  prepareHTTPRequest
    (mkWorld (demo.cfg "t") false demo.loginOk
       (fun _ => inl "json: unsupported type: chan int")
       (fun s => inr (mkURL s EmptyString EmptyString))
       (fun base p => inr (base +:+ "/" +:+ p))
       (fun _ u => inr (mkURL u "/objects" EmptyString))
       (fun _ h => h) (fun _ => "curl")
       (fun _ _ => inl "down") (fun _ _ => None) (fun _ => EmptyString))
    (demo.cfg "t") "POST" "objects" (BodyOther "chan int") None
  = PrepErr (ErrMarshalBody "json: unsupported type: chan int").
Proof.
  apply (proj1 (proj2 (prepareHTTPRequest_body
           (mkWorld (demo.cfg "t") false demo.loginOk
              (fun _ => inl "json: unsupported type: chan int")
              (fun s => inr (mkURL s EmptyString EmptyString))
              (fun base p => inr (base +:+ "/" +:+ p))
              (fun _ u => inr (mkURL u "/objects" EmptyString))
              (fun _ h => h) (fun _ => "curl")
              (fun _ _ => inl "down") (fun _ _ => None) (fun _ => EmptyString))
           (demo.cfg "t") "POST" "objects" (BodyOther "chan int") None)
         ltac:(discriminate) ltac:(reflexivity))).
  reflexivity.
Defined.

(* --------------------------------------------------------------------- *)
(** ** The query of the path *)

Lemma cutQuery_cons (c : ascii) (t : string) :
  cutQuery (String c t)
  = if Ascii.eqb c "?" then (EmptyString, t)
    else let '(a, b) := cutQuery t in (String c a, b).
Proof.
  destruct c as [[] [] [] [] [] [] [] []]; reflexivity.
Qed.

Lemma Contains_char_cons (c d : ascii) (t : string) :
  strings.Contains (String c t) (String d EmptyString)
  = Ascii.eqb d c || strings.Contains t (String d EmptyString).
Proof.
  rewrite !Contains_find. cbn [strings.find String.prefix].
  destruct (ascii_dec d c) as [->|Hne].
  - rewrite Ascii.eqb_refl.
    destruct t; cbn [orb]; apply bool_decide_eq_true_2; eauto.
  - rewrite (proj2 (Ascii.eqb_neq d c) Hne). cbn [orb].
    destruct (strings.find t (String d EmptyString)); cbn [option_map].
    + rewrite !bool_decide_eq_true_2 by eauto. reflexivity.
    + rewrite !bool_decide_eq_false_2 by (intros [? [=]]). reflexivity.
Qed.

Lemma cutQuery_none (p : string) :
  strings.Contains p "?" = false -> cutQuery p = (p, EmptyString).
Proof.
  induction p as [|c p IH]; [reflexivity|].
  rewrite Contains_char_cons, cutQuery_cons. intros H.
  apply orb_false_iff in H. destruct H as [Hc Hp].
  rewrite Ascii.eqb_sym, Hc, (IH Hp). reflexivity.
Qed.

Lemma cutQuery_first (p q : string) :
  strings.Contains p "?" = false -> cutQuery (p +:+ String "?" q) = (p, q).
Proof.
  induction p as [|c p IH].
  - intros _. rewrite append_nil. reflexivity.
  - rewrite append_cons, Contains_char_cons, cutQuery_cons. intros H.
    apply orb_false_iff in H. destruct H as [Hc Hp].
    rewrite Ascii.eqb_sym, Hc, (IH Hp). reflexivity.
Qed.

Example query_is_attached_after_joining :
  exists req,
    prepareHTTPRequest (demo.world demo.loginOk demo.forbidden demo.forbidden)
      (demo.cfg "t") "GET" "objects?filter=a?b" BodyNil None = PrepOk req None
    /\ url_String (req_URL req)
       = "https://tenant.example.com/objects?filter=a?b".
Proof. eexists. split; reflexivity. Qed.

(** X16.  The path given to a call is cut at its first question mark: what
    precedes it goes through [url.JoinPath], what follows it is attached to
    the joined URL after a ["?"] as it is.  So a call with the path
    [p?q] builds its request as a call with the path [p] does when
    [http.NewRequestWithContext] is given the URL followed by [?q]; and a
    question mark with nothing after it is dropped: the path [p?] gives the
    request of the path [p]. *)
Theorem prepareHTTPRequest_query (w : World) (cfg : Config)
    (method p q : string) (body : Body) (headers : StringMap) :
  strings.Contains p "?" = false ->
  prepareHTTPRequest w cfg method (p +:+ "?") body headers
  = prepareHTTPRequest w cfg method p body headers /\
  (q <> EmptyString ->
   prepareHTTPRequest w cfg method (p +:+ "?" +:+ q) body headers
   = prepareHTTPRequest (withQuery w q) cfg method p body headers).
Proof.
  intros Hp.
  pose proof (cutQuery_first p q Hp) as Hpq.
  pose proof (cutQuery_first p EmptyString Hp) as Hp0.
  change (p +:+ "?" +:+ q) with (p +:+ String "?" q).
  unfold prepareHTTPRequest. cbv zeta.
  rewrite Hpq, Hp0, (cutQuery_none p Hp).
  split; [reflexivity|]. intros Hq.
  destruct (String.eqb_spec q EmptyString); [contradiction|].
  cbn [String.eqb withQuery w_jsonMarshal w_urlParse w_joinPath w_newRequest
       w_curlify].
  reflexivity.
Qed.

Lemma prepareHTTPRequest_query_witness :
  prepareHTTPRequest (demo.world demo.loginOk demo.forbidden demo.forbidden)
    (demo.cfg "t") "GET" "objects?" BodyNil None
  = prepareHTTPRequest (demo.world demo.loginOk demo.forbidden demo.forbidden)
      (demo.cfg "t") "GET" "objects" BodyNil None.
Proof.
  exact (proj1 (prepareHTTPRequest_query
           (demo.world demo.loginOk demo.forbidden demo.forbidden)
           (demo.cfg "t") "GET" "objects" "x" BodyNil None
           ltac:(reflexivity))).
Defined.

(* ===================================================================== *)
(** * The call, path by path *)

(** At the end of a path: evaluate the observations on the trace, and
    replace the collaborators' answers by what they were on this path. *)
Ltac observe_all :=
  repeat match goal with
  | |- context [option_map _ ?c] => is_var c; destruct c
  end;
  cbv beta iota delta
      [option_map consOpt resultOf deferred optionsOf
       st_cfg st_options st_out st_file st_events
       r_completion r_out r_file r_options r_trace
       returnedError returnsStatusError isStatusError
       rev app count happened existsb List.filter length populated
       isRefreshLogin isRefreshOk isRefreshFailed isPrepared isSend isRetry
       isResponse isResponseAny isBodyRead isUnmarshalOut isWriteFile
       isDecode isSuccessStop isInitialLogin isLogin isLog isParseIntoError
       sentAt List.flat_map lastSend finalResponse fold_left
       withResponseHeaders
       Nat.eqb andb orb negb];
  repeat match goal with
  | H : w_do _ _ _ = _ |- context [w_do _ _ _] => rewrite H
  | H : resp_Body _ = _ |- context [resp_Body _] => rewrite H
  end;
  cbv beta iota.

(** Two answers of the same collaborator to the same question are one. *)
Ltac same_answers :=
  repeat match goal with
  | H1 : ?a = _, H2 : ?a = _ |- _ => rewrite H1 in H2
  end.

Ltac token_facts :=
  repeat match goal with
  | H : (cfg_Token _ =? _)%string = true |- _ => apply String.eqb_eq in H
  | H : (cfg_Token _ =? _)%string = false |- _ => apply String.eqb_neq in H
  end.

Lemma isSuccessStatus_test (status : Z) :
  negb (Z.quot status 100 =? 2) && negb (status =? 303)
  = negb (isSuccessStatus status).
Proof. unfold isSuccessStatus. rewrite negb_orb. reflexivity. Qed.

(** What is known of the statuses on a path, as equations and
    inequations. *)
Ltac status_known :=
  unfold StatusForbidden, bodyOf in *;
  rewrite ?isSuccessStatus_test in *;
  repeat match goal with
  | H : resp_Body ?r = _, H' : context [match resp_Body ?r with _ => _ end]
    |- _ => rewrite H in H'
  | H : resp_Body ?r = _ |- context [match resp_Body ?r with _ => _ end] =>
    rewrite H
  end;
  repeat match goal with
  | H : negb _ = true |- _ => apply negb_true_iff in H
  | H : negb _ = false |- _ => apply negb_false_iff in H
  | H : (_ =? _) = true |- _ => apply Z.eqb_eq in H
  | H : (_ =? _) = false |- _ => apply Z.eqb_neq in H
  | H : _ \/ _ |- _ => destruct H
  end.

(* --------------------------------------------------------------------- *)
(** ** Logging in before the first request *)

(** X17.  A call logs in before its first request exactly when the config
    context has no token.  If that login fails, its error is returned as it
    is and no request is built or sent; if it succeeds, the first request
    is built from the config context that the login left. *)
Theorem httpRequest_initial_login {T} `{Unmarshaler Problem} `{Unmarshaler T}
    (w : World) (method path : string) (body : Body)
    (options : option Options) :
  let r := httpRequest (T := T) w method path body options in
  (cfg_Token (w_cfg w) <> EmptyString ->
     count isInitialLogin (r_trace r) = 0%nat /\
     forall req, sentAt 1 (r_trace r) = [req] ->
       exists curl,
         prepareHTTPRequest w (w_cfg w) method path body
           (Headers (optionsOf options)) = PrepOk req curl) /\
  (cfg_Token (w_cfg w) = EmptyString ->
     count isInitialLogin (r_trace r) = 1%nat /\
     (forall e, w_login w InitialLogin (w_cfg w) = inl e ->
        r_completion r = Returned (Some (ErrLogin e)) /\
        count isSend (r_trace r) = 0%nat /\
        happened (isPrepared 1) (r_trace r) = false) /\
     (forall cfg req, w_login w InitialLogin (w_cfg w) = inr cfg ->
        sentAt 1 (r_trace r) = [req] ->
        exists curl,
          prepareHTTPRequest w cfg method path body
            (Headers (optionsOf options)) = PrepOk req curl)).
Proof.
  run_call.
  all: observe_all.
  all: token_facts.
  all: split; intros Htok; [try congruence | try congruence].
  all: repeat split; intros; same_answers; simplify_eq; try congruence; eauto.
Qed.

Lemma httpRequest_initial_login_witness :
  let r := httpRequest (T := any)
             (sample.world (demo.cfg EmptyString) demo.loginFails
                (sample.always demo.forbidden) sample.writes)
             "GET" "objects" BodyNil None in
  r_completion r = Returned (Some (ErrLogin "login: invalid credentials"))
  /\ count isSend (r_trace r) = 0%nat.
Proof.
  pose proof (httpRequest_initial_login (T := any)
                (sample.world (demo.cfg EmptyString) demo.loginFails
                   (sample.always demo.forbidden) sample.writes)
                "GET" "objects" BodyNil None) as Hc.
  cbv zeta in Hc.
  destruct (proj2 Hc ltac:(reflexivity)) as (_ & Hfail & _).
  destruct (Hfail "login: invalid credentials" ltac:(reflexivity))
    as (Hr & Hs & _).
  cbv zeta. auto.
Defined.

(* --------------------------------------------------------------------- *)
(** ** How many requests and logins *)

(** X18.  No call sends more than two requests or logs in more than once
    before the first request and once after it.  A second request is sent
    only after the first was answered with 403, its body was read, the
    login that refreshes the token succeeded and the request was built
    again; a call whose first response is not 403 refreshes nothing and
    sends nothing more. *)
Theorem httpRequest_bounds {T} `{Unmarshaler Problem} `{Unmarshaler T}
    (w : World) (method path : string) (body : Body)
    (options : option Options) :
  let tr := r_trace (httpRequest (T := T) w method path body options) in
  (count isSend tr <= 2)%nat /\
  (count isInitialLogin tr <= 1)%nat /\
  (count isRefreshLogin tr <= 1)%nat /\
  (length (sentAt 1 tr) <= 1)%nat /\
  count isSend tr = (length (sentAt 1 tr) + length (sentAt 2 tr))%nat /\
  (count isRetry tr = 1%nat ->
     happened (isResponse 1 403) tr = true /\
     happened (isBodyRead 1) tr = true /\
     happened isRefreshOk tr = true /\
     happened (isPrepared 2) tr = true) /\
  (happened (isResponse 1 403) tr = false ->
     count isRefreshLogin tr = 0%nat /\ count isRetry tr = 0%nat).
Proof.
  run_call.
  all: observe_all.
  all: finish.
  all: repeat split; finish; try lia.
Qed.

Lemma httpRequest_bounds_witness :
  let tr := r_trace (httpRequest (T := any)
                       (demo.world demo.loginOk demo.forbidden
                          (demo.response 200 "application/json" "[1]"))
                       "GET" "objects" BodyNil None) in
  happened (isResponse 1 403) tr = true /\ happened isRefreshOk tr = true.
Proof.
  pose proof (httpRequest_bounds (T := any)
                (demo.world demo.loginOk demo.forbidden
                   (demo.response 200 "application/json" "[1]"))
                "GET" "objects" BodyNil None) as Hc.
  cbv zeta in Hc. destruct Hc as (_ & _ & _ & _ & _ & Hretry & _).
  destruct (Hretry ltac:(vm_compute; reflexivity)) as (H403 & _ & Hok & _).
  cbv zeta. auto.
Defined.

(* --------------------------------------------------------------------- *)
(** ** The retried request *)

Lemma prepared_Authorization (w : World) (cfg : Config)
    (method path : string) (body : Body) (headers : StringMap)
    (req : Request) (curl : option string) :
  prepareHTTPRequest w cfg method path body headers = PrepOk req curl ->
  cfg_AuthMethod cfg <> AuthMethodLocal ->
  mapGet headers "Authorization" = EmptyString ->
  header.values (req_Header req) "Authorization"
  = ("Bearer " +:+ cfg_Token cfg)
    :: callerValues (entries headers) "Authorization".
Proof.
  intros Hok Hauth Hnone.
  destruct (prepareHTTPRequest_ok _ _ _ _ _ _ _ _ Hok) as (Hh & _ & _).
  rewrite Hh. unfold requestHeaders. rewrite values_addHeaders.
  unfold withLocalAuth.
  destruct (String.eqb_spec (cfg_AuthMethod cfg) AuthMethodLocal);
    [contradiction|].
  rewrite values_synthHeaders. unfold synthesized.
  cbn [String.eqb Ascii.eqb Bool.eqb]. rewrite Hnone. reflexivity.
Qed.

Example retry_carries_the_fresh_token :
  let r := httpRequest (T := any)
             (sample.world (demo.cfg "stale-token") demo.loginOk
                (sample.afterRefresh
                   (demo.response 200 "application/json" "[1]"))
                sample.writes)
             "GET" "objects" BodyNil None in
  map (fun req => header.values (req_Header req) "Authorization")
      (sentAt 1 (r_trace r) ++ sentAt 2 (r_trace r))
  = [["Bearer stale-token"]; ["Bearer fresh-token"]].
Proof. vm_compute. reflexivity. Qed.

(** X19.  The retried request is built anew, from the config context that
    the refreshing login left: the request sent at the second attempt is
    what [prepareHTTPRequest] returns for that config context and the
    call's method, path, body and headers.  So, when the caller gives no
    Authorization header and the auth method is not local, the retry
    carries the refreshed token as its bearer token. *)
Theorem httpRequest_retry_is_rebuilt {T} `{Unmarshaler Problem}
    `{Unmarshaler T} (w : World) (method path : string) (body : Body)
    (options : option Options) (req : Request) :
  let r := httpRequest (T := T) w method path body options in
  let headers := Headers (optionsOf options) in
  sentAt 2 (r_trace r) = [req] ->
  exists cfg0 cfg curl,
    w_login w RefreshLogin cfg0 = inr cfg /\
    prepareHTTPRequest w cfg method path body headers = PrepOk req curl /\
    (cfg_AuthMethod cfg <> AuthMethodLocal ->
     mapGet headers "Authorization" = EmptyString ->
     header.values (req_Header req) "Authorization"
     = ("Bearer " +:+ cfg_Token cfg)
       :: callerValues (entries headers) "Authorization").
Proof.
  run_call.
  all: observe_all.
  all: intros Hsent; try discriminate.
  all: simplify_eq.
  all: eexists _, _, _; split; [eassumption|];
       split; [eassumption|]; intros; eapply prepared_Authorization;
       eassumption.
Qed.

Lemma httpRequest_retry_is_rebuilt_witness :
  let w := sample.world (demo.cfg "stale-token") demo.loginOk
             (sample.afterRefresh (demo.response 200 "application/json" "[1]"))
             sample.writes in
  exists req,
    sentAt 2 (r_trace (httpRequest (T := any) w "GET" "objects" BodyNil None))
    = [req]
    /\ exists cfg0 cfg curl,
         w_login w RefreshLogin cfg0 = inr cfg /\
         prepareHTTPRequest w cfg "GET" "objects" BodyNil None
         = PrepOk req curl.
Proof.
  pose proof (httpRequest_retry_is_rebuilt (T := any)
                (sample.world (demo.cfg "stale-token") demo.loginOk
                   (sample.afterRefresh
                      (demo.response 200 "application/json" "[1]"))
                   sample.writes)
                "GET" "objects" BodyNil None) as Hc.
  cbv zeta in Hc |- *. eexists. split; [vm_compute; reflexivity|].
  edestruct Hc as (cfg0 & cfg & curl & Hl & Hp & _); [vm_compute; reflexivity|].
  exists cfg0, cfg, curl. split; [exact Hl | exact Hp].
Defined.

(* --------------------------------------------------------------------- *)
(** ** The Status Error *)

(** The errors of [prepareHTTPRequest]. *)
Lemma prepareHTTPRequest_error (w : World) (cfg : Config)
    (method path : string) (body : Body) (headers : StringMap) (e : Error) :
  prepareHTTPRequest w cfg method path body headers = PrepErr e ->
  (exists x, e = ErrMarshalBody x) \/ (exists t, e = ErrBodyType t)
  \/ (exists u x, e = ErrCreateRequest u x).
Proof.
  unfold prepareHTTPRequest. cbv zeta.
  destruct (negb _ && _).
  - destruct (w_jsonMarshal w body); [intros [= <-]; eauto|].
    destruct (cutQuery path) as [p q].
    destruct (w_urlParse w (cfg_URL cfg)); [discriminate|].
    destruct (w_joinPath w _ p); [intros [= <-]; eauto|].
    destruct (w_newRequest w method _); [intros [= <-]; eauto | discriminate].
  - destruct body; [| |intros [= <-]; eauto].
    all: destruct (cutQuery path) as [p q].
    all: destruct (w_urlParse w (cfg_URL cfg)); [discriminate|].
    all: destruct (w_joinPath w _ p); [intros [= <-]; eauto|].
    all: destruct (w_newRequest w method _);
      [intros [= <-]; eauto | discriminate].
Qed.

Lemma prepareHTTPRequest_no_status_error (w : World) (cfg : Config)
    (method path : string) (body : Body) (headers : StringMap)
    (se : HttpStatusError) :
  prepareHTTPRequest w cfg method path body headers <> PrepErr (ErrStatus se).
Proof.
  intros Hp. apply prepareHTTPRequest_error in Hp.
  destruct Hp as [[? [=]] | [[? [=]] | (? & ? & [=])]].
Qed.

(** X20.  A call returns a Status Error exactly for the response it goes
    by (the answer to the last request sent): the error is
    [parseIntoError] of that response and its body, its status code is the
    response's, which is neither 2xx nor 303, and nothing is decoded or
    saved.  Conversely, when the last response, read in full, has such a
    status, and it is not a first 403 (which is retried instead), the call
    returns that Status Error. *)
Theorem httpRequest_status_error {T} `{Unmarshaler Problem} `{Unmarshaler T}
    (w : World) (method path : string) (body : Body)
    (options : option Options) :
  let r := httpRequest (T := T) w method path body options in
  (forall se, r_completion r = Returned (Some (ErrStatus se)) ->
     exists resp respBytes,
       finalResponse w (r_trace r) = Some resp /\
       bodyOf resp = Some respBytes /\
       se = parseIntoError w resp respBytes /\
       StatusCode se = resp_StatusCode resp /\
       isSuccessStatus (resp_StatusCode resp) = false /\
       r_out r = None /\ r_file r = None) /\
  (forall resp respBytes,
     finalResponse w (r_trace r) = Some resp ->
     bodyOf resp = Some respBytes ->
     isSuccessStatus (resp_StatusCode resp) = false ->
     resp_StatusCode resp <> 403 \/ count isSend (r_trace r) = 2%nat ->
     r_completion r
     = Returned (Some (ErrStatus (parseIntoError w resp respBytes)))).
Proof.
  run_call.
  all: observe_all.
  all: split; intros; simplify_eq.
  all: status_known; same_answers; simplify_eq.
  all: try congruence; try lia.
  all: try (exfalso; eapply prepareHTTPRequest_no_status_error; eassumption).
  all: eexists _, _; split; [reflexivity|]; split;
       [repeat match goal with
        | H : resp_Body ?r = _ |- context [resp_Body ?r] => rewrite H
        end; reflexivity|];
       repeat split; try assumption; apply parseIntoError_StatusCode.
Qed.

Lemma httpRequest_status_error_witness :
  let w := sample.world (demo.cfg "t") demo.loginOk
             (sample.always
                (demo.response 404 "application/json" "not here"))
             sample.writes in
  r_completion (httpRequest (T := any) w "GET" "objects" BodyNil None)
  = Returned (Some (ErrStatus
      (mkHttpStatusError "status: 404 not here" 404 None))).
Proof.
  pose proof (httpRequest_status_error (T := any)
                (sample.world (demo.cfg "t") demo.loginOk
                   (sample.always
                      (demo.response 404 "application/json" "not here"))
                   sample.writes)
                "GET" "objects" BodyNil None) as Hc.
  cbv zeta in Hc |- *. destruct Hc as [_ Hc].
  erewrite Hc; cycle 1.
  - vm_compute. reflexivity.
  - reflexivity.
  - reflexivity.
  - left. vm_compute. discriminate.
  - vm_compute. reflexivity.
Defined.

(* --------------------------------------------------------------------- *)
(** ** The response headers *)

(** X21.  The caller's options are written to only when the call returns
    nil: then [ResponseHeaders] holds the headers of the response the call
    went by (nil when that response has none) and the other fields are as
    the caller set them.  When the call returns an error, or the process
    exits, the options are exactly as the caller passed them: response
    headers of a failed call are not reported. *)
Theorem httpRequest_response_headers {T} `{Unmarshaler Problem}
    `{Unmarshaler T} (w : World) (method path : string) (body : Body)
    (o : Options) :
  let r := httpRequest (T := T) w method path body (Some o) in
  (r_completion r <> Returned None -> r_options r = Some o) /\
  (r_completion r = Returned None ->
     exists resp,
       finalResponse w (r_trace r) = Some resp /\
       r_options r = Some (withResponseHeaders o (resp_Header resp))).
Proof.
  run_call.
  all: observe_all.
  all: split; intros Hc; try discriminate; try congruence; try reflexivity.
  all: eexists; split; reflexivity.
Qed.

Lemma httpRequest_response_headers_witness :
  let o := mkOptions None (Some {[ "X-Old" := ["1"] ]}) [404] false None in
  r_options (httpRequest (T := any)
               (sample.world (demo.cfg "t") demo.loginOk
                  (sample.always (demo.response 404 "text/plain" "gone"))
                  sample.writes)
               "GET" "objects" BodyNil (Some o))
  = Some o.
Proof.
  cbv zeta.
  apply (proj1 (httpRequest_response_headers (T := any)
                  (sample.world (demo.cfg "t") demo.loginOk
                     (sample.always (demo.response 404 "text/plain" "gone"))
                     sample.writes)
                  "GET" "objects" BodyNil
                  (mkOptions None (Some {[ "X-Old" := ["1"] ]}) [404] false
                             None))).
  vm_compute. discriminate.
Defined.

(* --------------------------------------------------------------------- *)
(** ** Saving a download *)

Example download_is_saved :
  let r := httpRequest (T := any)
             (sample.world (demo.cfg "t") demo.loginOk
                (sample.always
                   (demo.response 200 "application/zip" "PK-bytes"))
                sample.writes)
             "GET" "solutions/acme"  BodyNil
             (Some (mkOptions (Some [("solutionFileName", "acme.zip")])
                              None [] false None)) in
  r_completion r = Returned None
  /\ r_file r = Some ("acme.zip", "PK-bytes")
  /\ r_out r = None.
Proof. vm_compute. auto. Qed.

(** X22.  Downloads.  A call writes a file only when it succeeds: the file
    is named by the caller's request header [solutionFileName], which is
    not empty, it holds exactly the bytes of the body of the response the
    call went by, whose content type is [application/octet-stream] or
    [application/zip] and whose status is a success (2xx or 303), the
    method is not DELETE and nothing is decoded into the caller's output.
    Conversely, for such a response to a method other than DELETE: without
    a file name the call returns the "(bug) filename not provided" error
    and writes nothing; if [os.WriteFile] fails its error is returned as
    "failed to save the solution archive file"; otherwise the call returns
    nil with the file written. *)
Theorem httpRequest_download {T} `{Unmarshaler Problem} `{Unmarshaler T}
    (w : World) (method path : string) (body : Body)
    (options : option Options) :
  let r := httpRequest (T := T) w method path body options in
  let fileName := mapGet (Headers (optionsOf options)) "solutionFileName" in
  (forall name data, r_file r = Some (name, data) ->
     r_completion r = Returned None /\ r_out r = None /\
     name = fileName /\ name <> EmptyString /\ method <> "DELETE" /\
     w_writeFile w name data = None /\
     exists resp,
       finalResponse w (r_trace r) = Some resp /\
       bodyOf resp = Some data /\
       isSuccessStatus (resp_StatusCode resp) = true /\
       isDownload (responseHeaderGet resp "content-type") = true) /\
  (forall resp data,
     finalResponse w (r_trace r) = Some resp ->
     bodyOf resp = Some data ->
     isSuccessStatus (resp_StatusCode resp) = true ->
     isDownload (responseHeaderGet resp "content-type") = true ->
     method <> "DELETE" ->
     (fileName = EmptyString ->
        r_completion r
        = Returned (Some (ErrNoFileName (responseHeaderGet resp "content-type")))
        /\ r_file r = None /\ count isWriteFile (r_trace r) = 0%nat) /\
     (fileName <> EmptyString ->
        match w_writeFile w fileName data with
        | Some e =>
          r_completion r = Returned (Some (ErrSaveFile fileName e)) /\
          r_file r = None
        | None =>
          r_completion r = Returned None /\
          r_file r = Some (fileName, data)
        end)).
Proof.
  run_call.
  all: observe_all.
  all: split; intros; simplify_eq.
  all: status_known; unfold isDownload in *; same_answers; simplify_eq.
  all: try match goal with
       | H : resp_StatusCode ?r = 403,
         H' : isSuccessStatus (resp_StatusCode ?r) = true |- _ =>
         rewrite H in H'; vm_compute in H'; discriminate H'
       end.
  all: bool_facts.
  all: try congruence.
  all: try (split; intros Hname; [try congruence|];
            repeat match goal with
            | H : w_writeFile _ _ _ = _ |- _ => rewrite H
            end; repeat split; try congruence; try reflexivity; fail).
  all: repeat split; try assumption; try reflexivity.
  all: eexists; split; [reflexivity|]; split;
       [match goal with
        | H : resp_Body ?r = _ |- context [resp_Body ?r] => rewrite H
        end; reflexivity|];
       split; assumption.
Qed.

Lemma httpRequest_download_witness :
  let r := httpRequest (T := any)
             (sample.world (demo.cfg "t") demo.loginOk
                (sample.always
                   (demo.response 200 "application/zip" "PK-bytes"))
                sample.diskFull)
             "GET" "solutions/acme" BodyNil
             (Some (mkOptions (Some [("solutionFileName", "acme.zip")])
                              None [] false None)) in
  r_completion r
  = Returned (Some (ErrSaveFile "acme.zip" "no space left on device"))
  /\ r_file r = None.
Proof.
  pose proof (httpRequest_download (T := any)
                (sample.world (demo.cfg "t") demo.loginOk
                   (sample.always
                      (demo.response 200 "application/zip" "PK-bytes"))
                   sample.diskFull)
                "GET" "solutions/acme" BodyNil
                (Some (mkOptions (Some [("solutionFileName", "acme.zip")])
                                 None [] false None))) as Hc.
  cbv zeta in Hc |- *. destruct Hc as [_ Hc].
  edestruct Hc as [_ Hw].
  - vm_compute. reflexivity.
  - reflexivity.
  - reflexivity.
  - reflexivity.
  - discriminate.
  - exact (Hw ltac:(discriminate)).
Defined.

(* --------------------------------------------------------------------- *)
(** ** Decoding the response *)

Example unparsable_success_body :
  let r := httpRequest (T := any)
             (sample.world (demo.cfg "t") demo.loginOk
                (sample.always (demo.response 200 "text/html" "<html>"))
                sample.writes)
             "GET" "objects" BodyNil (Some emptyOptions) in
  r_completion r = Returned (Some (ErrJSONParse "<html>"))
  /\ r_out r = None
  /\ r_options r = Some emptyOptions.
Proof. vm_compute. auto. Qed.

(** X23.  The caller's output.  A call decodes into the caller's output
    only when it succeeds: the value is [json.Unmarshal] of the body of the
    response the call went by, that body is not empty, the status is a
    success other than 303, the content type is not a download type and
    the method is not DELETE.  Conversely, for a response with a success
    status and a content type that is not a download type, to a method
    other than DELETE: an empty body, or the status 303, leaves the output
    untouched and the call returns nil without decoding (whatever the
    content type says); otherwise the body is decoded as JSON, and the
    call returns nil with the value, or the "failed to JSON-parse the
    response" error when it does not parse. *)
Theorem httpRequest_json_output {T} `{Unmarshaler Problem} `{Unmarshaler T}
    (w : World) (method path : string) (body : Body)
    (options : option Options) :
  let r := httpRequest (T := T) w method path body options in
  (forall v, r_out r = Some v ->
     r_completion r = Returned None /\ r_file r = None /\
     method <> "DELETE" /\
     exists resp data,
       finalResponse w (r_trace r) = Some resp /\
       bodyOf resp = Some data /\
       unmarshal (T := T) data = Some v /\
       String.length data <> 0%nat /\
       isSuccessStatus (resp_StatusCode resp) = true /\
       resp_StatusCode resp <> 303 /\
       isDownload (responseHeaderGet resp "content-type") = false) /\
  (forall resp data,
     finalResponse w (r_trace r) = Some resp ->
     bodyOf resp = Some data ->
     isSuccessStatus (resp_StatusCode resp) = true ->
     isDownload (responseHeaderGet resp "content-type") = false ->
     method <> "DELETE" ->
     (String.length data = 0%nat \/ resp_StatusCode resp = 303 ->
        r_completion r = Returned None /\ r_out r = None /\
        count isUnmarshalOut (r_trace r) = 0%nat) /\
     (String.length data <> 0%nat -> resp_StatusCode resp <> 303 ->
        match unmarshal (T := T) data with
        | Some v => r_completion r = Returned None /\ r_out r = Some v
        | None =>
          r_completion r = Returned (Some (ErrJSONParse data)) /\
          r_out r = None
        end)).
Proof.
  run_call.
  all: observe_all.
  all: split; intros; simplify_eq.
  all: status_known; unfold isDownload in *; same_answers; simplify_eq.
  all: try match goal with
       | H : resp_StatusCode ?r = 403,
         H' : isSuccessStatus (resp_StatusCode ?r) = true |- _ =>
         rewrite H in H'; vm_compute in H'; discriminate H'
       end.
  all: bool_facts;
       repeat match goal with
       | H : (_ =? _)%nat = true |- _ => apply Nat.eqb_eq in H
       | H : (_ =? _)%nat = false |- _ => apply Nat.eqb_neq in H
       | H : (_ =? _) = true |- _ => apply Z.eqb_eq in H
       | H : (_ =? _) = false |- _ => apply Z.eqb_neq in H
       end.
  all: try congruence.
  all: try (split; intros;
            repeat match goal with
            | H : _ \/ _ |- _ => destruct H
            | H : unmarshal _ = _ |- _ => rewrite H
            end; repeat split; try congruence; try reflexivity; fail).
  all: repeat split; try assumption; try reflexivity.
  all: eexists _, _; split; [reflexivity|]; split;
       [match goal with
        | H : resp_Body ?r = _ |- context [resp_Body ?r] => rewrite H
        end; reflexivity|];
       repeat split; assumption.
Qed.

Lemma httpRequest_json_output_witness :
  let r := httpRequest (T := any)
             (sample.world (demo.cfg "t") demo.loginOk
                (sample.always (demo.response 200 "text/html" "<html>"))
                sample.writes)
             "GET" "objects" BodyNil None in
  r_completion r = Returned (Some (ErrJSONParse "<html>")) /\ r_out r = None.
Proof.
  pose proof (httpRequest_json_output (T := any)
                (sample.world (demo.cfg "t") demo.loginOk
                   (sample.always (demo.response 200 "text/html" "<html>"))
                   sample.writes)
                "GET" "objects" BodyNil None) as Hc.
  cbv zeta in Hc |- *. destruct Hc as [_ Hc].
  edestruct Hc as [_ Hj].
  - vm_compute. reflexivity.
  - reflexivity.
  - reflexivity.
  - reflexivity.
  - discriminate.
  - exact (Hj ltac:(discriminate) ltac:(discriminate)).
Defined.

(* --------------------------------------------------------------------- *)
(** ** Leaving through [log.Fatalf] *)

Lemma prepareHTTPRequest_fatal (w : World) (cfg : Config)
    (method path : string) (body : Body) (headers : StringMap)
    (msg : string) :
  prepareHTTPRequest w cfg method path body headers = PrepFatal msg ->
  exists e, w_urlParse w (cfg_URL cfg) = inl e.
Proof.
  unfold prepareHTTPRequest. cbv zeta.
  destruct (if negb _ && _ then _ else _); [discriminate|].
  destruct (cutQuery path) as [p q].
  destruct (w_urlParse w (cfg_URL cfg)); [eauto|].
  destruct (w_joinPath w _ p); [discriminate|].
  destruct (w_newRequest w method _); discriminate.
Qed.

Example malformed_url_exits :
  let w := mkWorld (demo.cfg "t") false demo.loginOk (fun _ => inr "{}")
             (fun _ => inl "parse: missing protocol scheme")
             (fun base p => inr (base +:+ "/" +:+ p))
             (fun _ u => inr (mkURL u "/objects" EmptyString))
             (fun _ h => h) (fun _ => "curl")
             (fun _ _ => inl "down") (fun _ _ => None) (fun _ => EmptyString) in
  let r := httpRequest (T := any) w "GET" "objects" BodyNil None in
  r_completion r = ProcessExit /\ count isSend (r_trace r) = 0%nat.
Proof. vm_compute. auto. Qed.

Example refreshed_url_exits :
  let w := mkWorld (demo.cfg "t") false
             (fun _ cfg => inr (mkConfig "::" "fresh" (cfg_AuthMethod cfg)
                                  (cfg_LocalAuthOptions cfg)))
             (fun _ => inr "{}")
             (fun s => if String.eqb s "::"
                       then inl "parse: missing protocol scheme"
                       else inr (mkURL s EmptyString EmptyString))
             (fun base p => inr (base +:+ "/" +:+ p))
             (fun _ u => inr (mkURL u "/objects" EmptyString))
             (fun _ h => h) (fun _ => "curl")
             (fun _ _ => demo.forbidden) (fun _ _ => None) (fun _ => EmptyString) in
  let r := httpRequest (T := any) w "GET" "objects" BodyNil None in
  r_completion r = ProcessExit /\ count isSend (r_trace r) = 1%nat /\
  retryConfig w = Some (mkConfig "::" "fresh" "oauth" EmptyString).
Proof. vm_compute. auto. Qed.

(** X24.  The process exits inside a call (in [log.Fatalf]) only when
    [url.Parse] rejects the URL of the config context that the call holds
    when it builds a request: the config of the first attempt (the one the
    call starts with, or the one the initial login left), and then no
    request was sent, or the config that the refreshing login left, and
    then one request was sent.  The call was not classified as a success
    before. *)
Theorem httpRequest_exit {T} `{Unmarshaler Problem} `{Unmarshaler T}
    (w : World) (method path : string) (body : Body)
    (options : option Options) :
  let r := httpRequest (T := T) w method path body options in
  r_completion r = ProcessExit ->
  (exists cfg e,
     w_urlParse w (cfg_URL cfg) = inl e /\
     (firstConfig w = Some cfg /\ count isSend (r_trace r) = 0%nat \/
      retryConfig w = Some cfg /\ count isSend (r_trace r) = 1%nat)) /\
  (count isSend (r_trace r) <= 1)%nat /\
  happened isSuccessStop (r_trace r) = false.
Proof.
  run_call.
  all: observe_all.
  all: intros Hexit; try discriminate.
  all: repeat split; try lia.
  all: match goal with
       | H : prepareHTTPRequest _ ?cfg _ _ _ _ = PrepFatal _ |- _ =>
         destruct (prepareHTTPRequest_fatal _ _ _ _ _ _ _ H) as [e He];
         exists cfg, e; split; [exact He|]
       end.
  all: unfold retryConfig, firstConfig.
  all: repeat match goal with
       | H : (cfg_Token _ =? _)%string = _ |- _ => rewrite H
       | H : w_login _ _ _ = _ |- _ => rewrite H
       end.
  all: first [ left; split; reflexivity | right; split; reflexivity ].
Qed.

Lemma httpRequest_exit_witness :
  let w := mkWorld (demo.cfg "t") false demo.loginOk (fun _ => inr "{}")
             (fun _ => inl "parse: missing protocol scheme")
             (fun base p => inr (base +:+ "/" +:+ p))
             (fun _ u => inr (mkURL u "/objects" EmptyString))
             (fun _ h => h) (fun _ => "curl")
             (fun _ _ => inl "down") (fun _ _ => None) (fun _ => EmptyString) in
  let r := httpRequest (T := any) w "GET" "objects" BodyNil None in
  (exists cfg e,
     w_urlParse w (cfg_URL cfg) = inl e /\
     (firstConfig w = Some cfg /\ count isSend (r_trace r) = 0%nat \/
      retryConfig w = Some cfg /\ count isSend (r_trace r) = 1%nat)) /\
  (count isSend (r_trace r) <= 1)%nat /\
  happened isSuccessStop (r_trace r) = false.
Proof.
  pose proof (httpRequest_exit (T := any)
                (mkWorld (demo.cfg "t") false demo.loginOk (fun _ => inr "{}")
                   (fun _ => inl "parse: missing protocol scheme")
                   (fun base p => inr (base +:+ "/" +:+ p))
                   (fun _ u => inr (mkURL u "/objects" EmptyString))
                   (fun _ h => h) (fun _ => "curl")
                   (fun _ _ => inl "down") (fun _ _ => None) (fun _ => EmptyString))
                "GET" "objects" BodyNil None) as Hc.
  cbv zeta in Hc |- *. apply Hc. vm_compute. reflexivity.
Defined.

(* ===================================================================== *)
(** * Expected errors *)

Section Sim.
Context {T : Type}.

Lemma sameButLogs_refl (s : State T) : sameButLogs s s.
Proof. repeat split. Qed.

Lemma sim_ret {A} (a : A) : sim (T := T) (ret a) (ret a).
Proof. intros s s' Hs. cbn. auto. Qed.

Lemma sim_bind {A B} (m m' : M T A) (k k' : A -> M T B) :
  sim m m' -> (forall a, sim (k a) (k' a)) -> sim (bind m k) (bind m' k').
Proof.
  intros Hm Hk s s' Hs. unfold bind. specialize (Hm s s' Hs).
  destruct (m s) as [a t|c t], (m' s') as [a' t'|c' t']; try contradiction.
  - destruct Hm as [<- Ht]. apply Hk, Ht.
  - exact Hm.
Qed.

Lemma sim_returnErr {A} (e : Error) : sim (T := T) (A := A) (returnErr e) (returnErr e).
Proof. intros s s' Hs. cbn. auto. Qed.

Lemma sim_returnNil {A} : sim (T := T) (A := A) returnNil returnNil.
Proof. intros s s' Hs. cbn. auto. Qed.

Lemma sim_fatal {A} : sim (T := T) (A := A) fatal fatal.
Proof. intros s s' Hs. cbn. auto. Qed.

Lemma sim_getCfg : sim (T := T) getCfg getCfg.
Proof. intros s s' Hs. cbn. split; [apply Hs | exact Hs]. Qed.

Lemma sim_emit (ev : Event) : sim (T := T) (emit ev) (emit ev).
Proof.
  intros s s' (Hc & Ho & Hf & Hh & Hr & He). cbn.
  split; [reflexivity|]. repeat split; cbn; try assumption.
  unfold withoutLogs in *. cbn [List.filter].
  destruct (negb (isLog ev)); congruence.
Qed.

(** A log line on each side, whatever the lines are. *)
Lemma sim_emit_logs (l1 l2 : Level) (m1 m2 : string) :
  sim (T := T) (emit (EvLog l1 m1)) (emit (EvLog l2 m2)).
Proof.
  intros s s' (Hc & Ho & Hf & Hh & Hr & He). cbn.
  split; [reflexivity|]. repeat split; cbn; assumption.
Qed.

Lemma sim_emitOpt (ev : option Event) : sim (T := T) (emitOpt ev) (emitOpt ev).
Proof.
  destruct ev as [ev|]; [apply sim_emit|].
  intros s s' Hs. cbn. split; [reflexivity | exact Hs].
Qed.

Lemma sim_setCfg (cfg : Config) : sim (T := T) (setCfg cfg) (setCfg cfg).
Proof.
  intros s s' (Hc & Ho & Hf & Hh & Hr & He). cbn.
  split; [reflexivity|]. repeat split; cbn; assumption.
Qed.

Lemma sim_setOut (v : T) : sim (setOut v) (setOut v).
Proof.
  intros s s' (Hc & Ho & Hf & Hh & Hr & He). cbn.
  split; [reflexivity|]. repeat split; cbn; assumption.
Qed.

Lemma sim_setFile (name data : string) :
  sim (T := T) (setFile name data) (setFile name data).
Proof.
  intros s s' (Hc & Ho & Hf & Hh & Hr & He). cbn.
  split; [reflexivity|]. repeat split; cbn; assumption.
Qed.

Lemma sim_setResponseHeaders (h : option Header) :
  sim (T := T) (setResponseHeaders h) (setResponseHeaders h).
Proof.
  intros s s' (Hc & Ho & Hf & Hh & Hr & He). cbn.
  split; [reflexivity|]. repeat split; cbn; assumption.
Qed.

Lemma sim_when (b : bool) (m m' : M T unit) :
  sim m m' -> sim (when b m) (when b m').
Proof. intros Hm. destruct b; [exact Hm | apply sim_ret]. Qed.

End Sim.

(** One statement on each side. *)
Ltac sim_step :=
  lazymatch goal with
  | |- sim (bind _ _) (bind _ _) => apply sim_bind; [|intros ?]
  | |- sim (ret _) (ret _) => apply sim_ret
  | |- sim (emit (EvLog _ _)) (emit (EvLog _ _)) => apply sim_emit_logs
  | |- sim (emit _) (emit _) => apply sim_emit
  | |- sim (emitOpt _) (emitOpt _) => apply sim_emitOpt
  | |- sim getCfg getCfg => apply sim_getCfg
  | |- sim (setCfg _) (setCfg _) => apply sim_setCfg
  | |- sim (setOut _) (setOut _) => apply sim_setOut
  | |- sim (setFile _ _) (setFile _ _) => apply sim_setFile
  | |- sim (setResponseHeaders _) (setResponseHeaders _) =>
    apply sim_setResponseHeaders
  | |- sim (returnErr _) (returnErr _) => apply sim_returnErr
  | |- sim returnNil returnNil => apply sim_returnNil
  | |- sim fatal fatal => apply sim_fatal
  | |- sim (when _ _) (when _ _) => apply sim_when
  | |- sim (login _ _) (login _ _) => unfold login
  | |- sim (prepare _ _ _ _ _ _) (prepare _ _ _ _ _ _) => unfold prepare
  | |- sim (doAndRead _ _ _ _) (doAndRead _ _ _ _) => unfold doAndRead
  | |- sim (if ?b then emit _ else emit _) (if ?b' then emit _ else emit _) =>
    destruct b, b'
  | |- sim (match ?x with _ => _ end) (match ?x with _ => _ end) => destruct x
  end.

Lemma httpRequestBody_sim {T} `{Unmarshaler Problem} `{Unmarshaler T}
    (w : World) (method path : string) (body : Body) (o : Options)
    (codes : list Z) :
  sim (T := T) (httpRequestBody w method path body o)
      (httpRequestBody w method path body (withExpectedErrors o codes)).
Proof.
  unfold httpRequestBody. cbn [withExpectedErrors Headers ExpectedErrors].
  repeat sim_step.
Qed.

Lemma withoutLogs_rev (tr : list Event) :
  withoutLogs (rev tr) = rev (withoutLogs tr).
Proof.
  unfold withoutLogs. induction tr as [|ev tr IH]; [reflexivity|].
  cbn [rev List.filter]. rewrite List.filter_app, IH. cbn [List.filter].
  destruct (negb (isLog ev)); cbn [rev]; [reflexivity|].
  rewrite app_nil_r. reflexivity.
Qed.

Lemma withoutLogs_deferred (c : Completion) (tr tr' : list Event) :
  withoutLogs tr = withoutLogs tr' ->
  withoutLogs (rev (deferred c tr)) = withoutLogs (rev (deferred c tr')).
Proof.
  intros Htr. rewrite !withoutLogs_rev. f_equal.
  destruct c; cbn [deferred]; [|exact Htr].
  unfold withoutLogs in *. cbn [List.filter isLog negb]. congruence.
Qed.

Example expected_error_is_logged_as_info :
  let w := sample.world (demo.cfg "t") demo.loginOk
             (sample.always (demo.response 404 "text/plain" "gone"))
             sample.writes in
  let logs (o : Options) :=
    List.filter isLog
      (r_trace (httpRequest (T := any) w "GET" "objects" BodyNil (Some o))) in
  logs (withExpectedErrors emptyOptions [404])
  = [EvLog LInfo "Calling the observability platform API";
     EvLog LInfo "Platform API call failed with expected error"]
  /\ logs emptyOptions
     = [EvLog LInfo "Calling the observability platform API";
        EvLog LError "Platform API call failed"].
Proof. vm_compute. auto. Qed.

(** X25.  The expected errors of the options only choose the level of a
    log line.  Two calls that differ only in [ExpectedErrors] end alike:
    the same error or nil (a status listed as expected is still returned
    as a Status Error), the same output, the same file, the same response
    headers written back, and the same requests, logins and other events
    in the same order; only log lines may differ. *)
Theorem httpRequest_expected_errors {T} `{Unmarshaler Problem}
    `{Unmarshaler T} (w : World) (method path : string) (body : Body)
    (o : Options) (codes : list Z) :
  let r := httpRequest (T := T) w method path body (Some o) in
  let r' := httpRequest (T := T) w method path body
              (Some (withExpectedErrors o codes)) in
  r_completion r = r_completion r' /\
  r_out r = r_out r' /\
  r_file r = r_file r' /\
  option_map ResponseHeaders (r_options r)
  = option_map ResponseHeaders (r_options r') /\
  option_map Headers (r_options r) = option_map Headers (r_options r') /\
  withoutLogs (r_trace r) = withoutLogs (r_trace r').
Proof.
  cbv zeta. unfold httpRequest. cbv zeta.
  assert (Hs0 : sameButLogs (T := T)
                  (mkState (w_cfg w) o None None [])
                  (mkState (w_cfg w) (withExpectedErrors o codes) None None []))
    by (repeat split).
  pose proof (httpRequestBody_sim w method path body o codes _ _ Hs0) as Hsim.
  destruct (httpRequestBody w method path body o _) as [a s|c s],
           (httpRequestBody w method path body (withExpectedErrors o codes) _)
             as [a' s'|c' s']; try contradiction.
  all: destruct Hsim as (Hc & Hcfg & Ho & Hf & Hh & Hr & He).
  all: unfold resultOf;
       cbn [r_completion r_out r_file r_options r_trace option_map].
  all: repeat split; try congruence.
  all: try (apply withoutLogs_deferred; exact He).
  all: subst; apply withoutLogs_deferred; exact He.
Qed.
